(** * Game of Life engine (tkinter_game_of_life): model and verification

  A shallow embedding of [tkinter_cell.py] and [tkinter_game_board.py],
  together with the classes of [tkinter_gui.py]: the view of the board with
  its canvas, the configuration form, the rule editor, and the application
  with its frame timers.

  - Python integers are [Z]; list lengths and object references are [nat].
  - A [Cell] is a Python object with identity: it is used as a dictionary key
    and handed out in delta lists.  A cell is modelled as a reference into a
    store that holds the [_state] attribute of every allocated cell.
  - Dictionaries are finite maps ([gmap]); a failed lookup raises [KeyError].
  - [randint(0, 2)] reads the next element of a sequence of draws. *)

From stdpp Require Import gmap list fin_maps sorting strings pretty.
From Stdlib Require Import ZArith Lia.

Open Scope Z_scope.

(** ** Python runtime pieces *)

Inductive exn : Type :=
| IndexError   (* list index out of range *)
| KeyError     (* dictionary key absent *)
| NoSuchCell.  (* a reference that no [Cell()] call returned; it stands for no
                Python exception and no constructed board reaches it *)

Inductive result (A : Type) : Type :=
| Ok (a : A)
| Raise (e : exn).
Arguments Ok {A} a.
Arguments Raise {A} e.

Definition bind {A B : Type} (m : result A) (k : A -> result B) : result B :=
match m with
| Ok a => k a
| Raise e => Raise e
end.

Notation "'do' x <- m ; k" := (bind m (fun x => k))
(at level 10, x name, m at level 100, k at level 200).

(** A loop whose body may raise: the state reached when the exception leaves
  the loop is kept, since mutations made before it are not undone. *)
Inductive outcome (S : Type) : Type :=
| Done (s : S)
| Raised (e : exn) (s : S).
Arguments Done {S} s.
Arguments Raised {S} e s.

Fixpoint for_each {S A : Type} (body : S -> A -> outcome S) (s : S) (xs : list A)
: outcome S :=
match xs with
| [] => Done s
| x :: xs' =>
    match body s x with
    | Done s' => for_each body s' xs'
    | Raised e s' => Raised e s'
    end
end.

(** [range(n)]: empty when [n <= 0]. *)
Definition range (n : Z) : list Z := map Z.of_nat (seq 0 (Z.to_nat n)).

(** [l[i]] for a list: indices [-len .. -1] count from the end. *)
Definition list_getitem {A : Type} (l : list A) (i : Z) : result A :=
let n := Z.of_nat (length l) in
let j := if i <? 0 then i + n else i in
if (j <? 0) || (n <=? j) then Raise IndexError
else match l !! Z.to_nat j with
     | Some a => Ok a
     | None => Raise IndexError
     end.

(** [d[k]] for a dictionary. *)
Definition dict_getitem `{Countable K} {V : Type} (d : gmap K V) (k : K) : result V :=
match d !! k with
| Some v => Ok v
| None => Raise KeyError
end.

(** ** tkinter_cell.py *)

Inductive CellState : Type := dead | alive.

Global Instance CellState_eq_dec : EqDecision CellState.
Proof. solve_decision. Defined.

Global Instance CellState_countable : Countable CellState.
Proof.
refine (inj_countable' (fun s => match s with dead => false | alive => true end)
                       (fun b : bool => if b then alive else dead) _).
by intros [].
Defined.

(** Object references to [Cell] instances. *)
Abbreviation Cell := nat (only parsing).

Module Cell.

(** The [_state] attribute of every allocated cell, by reference. *)
Abbreviation store := (list CellState) (only parsing).

(** [Cell()]: a new object, [_state = CellState.dead]. *)
Definition new (st : store) : Cell * store := (length st, st ++ [dead]).

Definition set_dead (c : Cell) (st : store) : store := <[c := dead]> st.

Definition set_alive (c : Cell) (st : store) : store := <[c := alive]> st.

Definition get_state (c : Cell) (st : store) : result CellState :=
  match st !! c with
  | Some s => Ok s
  | None => Raise NoSuchCell
  end.

Definition toggle_state (c : Cell) (st : store) : result (CellState * store) :=
  do s <- get_state c st;
  if decide (s = dead) then Ok (alive, <[c := alive]> st)
  else Ok (dead, <[c := dead]> st).

End Cell.

(** ** tkinter_game_board.py: GameRules *)

Module GameRules.

(** [_transitions]: state -> (neighbour count -> next state). *)
Abbreviation t := (gmap CellState (gmap Z CellState)) (only parsing).

(** [{i: v for i in ks}] *)
Definition dict_from_keys (ks : list Z) (v : CellState) : gmap Z CellState :=
  foldl (fun d i => <[i := v]> d) ∅ ks.

Definition __init__ : t :=
  let tr : t := ∅ in
  let tr := <[alive := dict_from_keys [0; 1; 4; 5; 6; 7; 8] dead]> tr in
  let tr := <[alive := <[3 := alive]> (<[2 := alive]> (default ∅ (tr !! alive)))]> tr in
  let tr := <[dead := dict_from_keys [0; 1; 2; 4; 5; 6; 7; 8] dead]> tr in
  let tr := <[dead := <[3 := alive]> (default ∅ (tr !! dead))]> tr in
  tr.

Definition get_next_state (self : t) (state : CellState) (neighbors : Z)
  : result CellState :=
  do row <- dict_getitem self state;
  dict_getitem row neighbors.

Definition set_rule (self : t) (state : CellState) (neighbors : Z) (newrule : CellState)
  : result t :=
  do row <- dict_getitem self state;
  Ok (<[state := <[neighbors := newrule]> row]> self).

End GameRules.

(** ** tkinter_game_board.py: GameConfig *)

Module GameConfig.

Record t : Type := mk {
  _default_scale : Z;
  _default_num_cells_x : Z;
  _default_num_cells_y : Z;
  _default_fps : Z;
  _current_scale : Z;
  _current_num_cells_x : Z;
  _current_num_cells_y : Z;
  _current_fps : Z
}.

Definition __init__ : t := mk 16 50 50 30 16 50 50 30.

Definition set_scale (self : t) (value : Z) : t :=
  mk (_default_scale self) (_default_num_cells_x self) (_default_num_cells_y self)
     (_default_fps self) value (_current_num_cells_x self)
     (_current_num_cells_y self) (_current_fps self).

Definition set_num_cells_x (self : t) (value : Z) : t :=
  mk (_default_scale self) (_default_num_cells_x self) (_default_num_cells_y self)
     (_default_fps self) (_current_scale self) value
     (_current_num_cells_y self) (_current_fps self).

Definition set_num_cells_y (self : t) (value : Z) : t :=
  mk (_default_scale self) (_default_num_cells_x self) (_default_num_cells_y self)
     (_default_fps self) (_current_scale self) (_current_num_cells_x self)
     value (_current_fps self).

Definition set_fps (self : t) (value : Z) : t :=
  mk (_default_scale self) (_default_num_cells_x self) (_default_num_cells_y self)
     (_default_fps self) (_current_scale self) (_current_num_cells_x self)
     (_current_num_cells_y self) value.

Definition get_scale (self : t) : Z := _current_scale self.
Definition get_num_cells_x (self : t) : Z := _current_num_cells_x self.
Definition get_num_cells_y (self : t) : Z := _current_num_cells_y self.
Definition get_fps (self : t) : Z := _current_fps self.

End GameConfig.

(** ** tkinter_game_board.py: GameBoard *)

Module GameBoard.

(** [_config] is read once, by [__init__]; [_rules] is a reference to the
    [GameRules] object shared with the rule editor, so [update] takes the
    current contents of that object as an argument.  [cells] is the store of
    the [Cell] objects that the references in the other fields point to. *)
Record t : Type := mk {
  _num_cells_x : Z;
  _num_cells_y : Z;
  _board : list (list Cell);
  _cell_positions : gmap Cell (Z * Z);
  _neighbors : gmap Cell (list Cell);
  _generation : Z;
  _live_count : Z;
  _initial_changes : list (Cell * CellState);
  cells : Cell.store
}.

Definition with_board (v : list (list Cell)) (b : t) : t :=
  mk (_num_cells_x b) (_num_cells_y b) v (_cell_positions b) (_neighbors b)
     (_generation b) (_live_count b) (_initial_changes b) (cells b).

Definition with_cell_positions (v : gmap Cell (Z * Z)) (b : t) : t :=
  mk (_num_cells_x b) (_num_cells_y b) (_board b) v (_neighbors b)
     (_generation b) (_live_count b) (_initial_changes b) (cells b).

Definition with_neighbors (v : gmap Cell (list Cell)) (b : t) : t :=
  mk (_num_cells_x b) (_num_cells_y b) (_board b) (_cell_positions b) v
     (_generation b) (_live_count b) (_initial_changes b) (cells b).

Definition with_generation (v : Z) (b : t) : t :=
  mk (_num_cells_x b) (_num_cells_y b) (_board b) (_cell_positions b) (_neighbors b)
     v (_live_count b) (_initial_changes b) (cells b).

Definition with_live_count (v : Z) (b : t) : t :=
  mk (_num_cells_x b) (_num_cells_y b) (_board b) (_cell_positions b) (_neighbors b)
     (_generation b) v (_initial_changes b) (cells b).

Definition with_initial_changes (v : list (Cell * CellState)) (b : t) : t :=
  mk (_num_cells_x b) (_num_cells_y b) (_board b) (_cell_positions b) (_neighbors b)
     (_generation b) (_live_count b) v (cells b).

Definition with_cells (v : Cell.store) (b : t) : t :=
  mk (_num_cells_x b) (_num_cells_y b) (_board b) (_cell_positions b) (_neighbors b)
     (_generation b) (_live_count b) (_initial_changes b) v.

(** [product([-1, 0, 1], repeat=2)] without [(0, 0)], in its order. *)
Definition _DIRECTIONS : list (Z * Z) :=
  filter (fun item => item <> (0, 0))
         (x ← [-1; 0; 1]; y ← [-1; 0; 1]; [(x, y)]).

Section seeding.

(** The sequence of [randint(0, 2)] results; every function that draws takes
    the index of the next draw and returns the index after it. *)
Variable rng : nat -> Z.

(** The draw and what follows it, as written twice in the source: in the inner
    loop of [_generate] and in the inner loop of [reset]. *)
Definition seed_cell (cell : Cell) (self : t) (k : nat) : t * nat :=
  let rand_num := rng k in
  if decide (rand_num = 0) then
    let self := with_cells (Cell.set_alive cell (cells self)) self in
    let self := with_live_count (_live_count self + 1) self in
    let self := with_initial_changes (_initial_changes self ++ [(cell, alive)]) self in
    (self, S k)
  else (self, S k).

(** Body of the inner loop of [_generate], for row [y]. *)
Definition _generate_cell (y : Z) (acc : t * list Cell * nat) (x : Z)
  : t * list Cell * nat :=
  let '(self, row, k) := acc in
  let '(cell, st) := Cell.new (cells self) in
  let self := with_cells st self in
  let self := with_cell_positions (<[cell := (x, y)]> (_cell_positions self)) self in
  let '(self, k) := seed_cell cell self k in
  (self, row ++ [cell], k).

(** Body of the outer loop of [_generate]. *)
Definition _generate_row (acc : t * nat) (y : Z) : t * nat :=
  let '(self, k) := acc in
  let '(self, row, k) :=
    foldl (_generate_cell y) (self, [], k) (range (_num_cells_x self)) in
  (with_board (_board self ++ [row]) self, k).

Definition _generate (self : t) (k : nat) : t * nat :=
  let self := with_initial_changes [] self in
  foldl _generate_row (self, k) (range (_num_cells_y self)).

End seeding.

(** Body of the loop of [_find_neighbors]; the two [continue]s leave the
    list as it is. *)
Definition _find_neighbors_step (self : t) (pos : Z * Z)
  (neighbors : list Cell) (direction : Z * Z) : outcome (list Cell) :=
  let x_pos := pos.1 + direction.1 in
  let y_pos := pos.2 + direction.2 in
  if (x_pos <? 0) || (x_pos >=? _num_cells_x self) then Done neighbors
  else if (y_pos <? 0) || (y_pos >=? _num_cells_y self) then Done neighbors
  else match (do row <- list_getitem (_board self) y_pos; list_getitem row x_pos) with
       | Ok cell => Done (neighbors ++ [cell])
       | Raise e => Raised e neighbors
       end.

(** The loop rebinds [cell], but [pos] was read before it. *)
Definition _find_neighbors (self : t) (cell : Cell) : result (list Cell) :=
  do pos <- dict_getitem (_cell_positions self) cell;
  match for_each (_find_neighbors_step self pos) [] _DIRECTIONS with
  | Done neighbors => Ok neighbors
  | Raised e _ => Raise e
  end.

Definition _create_neighbor_map_cell (self : t) (cell : Cell) : outcome t :=
  match _find_neighbors self cell with
  | Ok ns => Done (with_neighbors (<[cell := ns]> (_neighbors self)) self)
  | Raise e => Raised e self
  end.

Definition _create_neighbor_map (self : t) : outcome t :=
  for_each (fun self row => for_each _create_neighbor_map_cell self row)
           self (_board self).

(** [GameBoard(config, rules)]: an exception leaves no board behind. *)
Definition __init__ (rng : nat -> Z) (config : GameConfig.t) (k : nat)
  : result (t * nat) :=
  let self := mk (GameConfig.get_num_cells_x config) (GameConfig.get_num_cells_y config)
                 [] ∅ ∅ 0 0 [] [] in
  let '(self, k) := _generate rng self k in
  match _create_neighbor_map self with
  | Done self => Ok (self, k)
  | Raised e _ => Raise e
  end.

(** The list comprehension of [_get_num_live_neighbors]. *)
Fixpoint live_neighbors (st : Cell.store) (ns : list Cell) : result (list Cell) :=
  match ns with
  | [] => Ok []
  | neighbor :: ns' =>
      do s <- Cell.get_state neighbor st;
      do rest <- live_neighbors st ns';
      Ok (if decide (s = alive) then neighbor :: rest else rest)
  end.

Definition _get_num_live_neighbors (self : t) (cell : Cell) : result Z :=
  do ns <- dict_getitem (_neighbors self) cell;
  do live <- live_neighbors (cells self) ns;
  Ok (Z.of_nat (length live)).

Definition _get_total_live_cells (self : t) : Z := _live_count self.

(** The board object and the three local lists of [update]. *)
Record update_state : Type := mk_update_state {
  us_self : t;
  spawning : list Cell;
  dying : list Cell;
  tkinter_data : list (Cell * CellState)
}.

(** Body of the inner loop of [update]. *)
Definition update_cell (rules : GameRules.t) (st : update_state) (cell : Cell)
  : outcome update_state :=
  let self := us_self st in
  match _get_num_live_neighbors self cell with
  | Raise e => Raised e st
  | Ok num_live_neighbors =>
  match Cell.get_state cell (cells self) with
  | Raise e => Raised e st
  | Ok current_state =>
  match GameRules.get_next_state rules current_state num_live_neighbors with
  | Raise e => Raised e st
  | Ok next_state =>
      if decide (next_state <> current_state) then
        let data := tkinter_data st ++ [(cell, next_state)] in
        if decide (next_state = alive) then
          Done (mk_update_state (with_live_count (_live_count self + 1) self)
                                (spawning st ++ [cell]) (dying st) data)
        else
          Done (mk_update_state (with_live_count (_live_count self - 1) self)
                                (spawning st) (dying st ++ [cell]) data)
      else Done st
  end end end.

Definition update (rules : GameRules.t) (self : t)
  : result (list (Cell * CellState)) * t :=
  let self := with_generation (_generation self + 1) self in
  match for_each (fun st row => for_each (update_cell rules) st row)
                 (mk_update_state self [] [] []) (_board self) with
  | Raised e st => (Raise e, us_self st)
  | Done st =>
      let self := us_self st in
      let self := foldl (fun self cell => with_cells (Cell.set_alive cell (cells self)) self)
                        self (spawning st) in
      let self := foldl (fun self cell => with_cells (Cell.set_dead cell (cells self)) self)
                        self (dying st) in
      (Ok (tkinter_data st), self)
  end.

Definition get_coord (self : t) (cell : Cell) : result (Z * Z) :=
  dict_getitem (_cell_positions self) cell.

Definition get_cell (self : t) (x y : Z) : result Cell :=
  do row <- list_getitem (_board self) y;
  list_getitem row x.

Definition get_board (self : t) : list (list Cell) := _board self.

Definition clear (self : t) : t :=
  foldl (fun self row =>
           foldl (fun self cell => with_cells (Cell.set_dead cell (cells self)) self)
                 self row)
        self (_board self).

Definition reset (rng : nat -> Z) (self : t) (k : nat) : t * nat :=
  let self := with_generation 0 self in
  let self := clear self in
  let self := with_live_count 0 self in
  let self := with_initial_changes [] self in
  foldl (fun acc row =>
           foldl (fun acc cell => seed_cell rng cell acc.1 acc.2) acc row)
        (self, k) (_board self).

Definition get_initial_states (self : t) : list (Cell * CellState) :=
  _initial_changes self.

Definition get_info_string (self : t) : string :=
  ("Generation: " +:+ pretty (_generation self) +:+
   " - Live cells: " +:+ pretty (_get_total_live_cells self))%string.

Definition toggle_cell (self : t) (x y : Z) : result (list (Cell * CellState)) * t :=
  match get_cell self x y with
  | Raise e => (Raise e, self)
  | Ok cell =>
      match Cell.toggle_state cell (cells self) with
      | Raise e => (Raise e, self)
      | Ok (state, st) => (Ok [(cell, state)], with_cells st self)
      end
  end.

End GameBoard.

(** ** tkinter_gui.py: the paths that reach the board *)

Module GameBoardGUI.

(** [change_size], as far as the board goes: a new [GameBoard] from the
    configuration, then [self.reset()], which calls [GameBoard.reset]. *)
Definition change_size (rng : nat -> Z) (board_config : GameConfig.t) (k : nat)
  : result (GameBoard.t * nat) :=
  do r <- GameBoard.__init__ rng board_config k;
  Ok (GameBoard.reset rng r.1 r.2).

End GameBoardGUI.

Module GameConfigGUI.

(** [_validate_num_cells] on the value of the entry field: [None] when
    [int()] raises [ValueError].  The second component is
    [_board_needs_rebuild]. *)
Definition _validate_num_cells (axis_x : bool) (input : option Z)
  (acc : GameConfig.t * bool) : GameConfig.t * bool :=
  let '(config, needs_rebuild) := acc in
  let current_value :=
    if axis_x then GameConfig.get_num_cells_x config
    else GameConfig.get_num_cells_y config in
  let set_value_func :=
    if axis_x then GameConfig.set_num_cells_x config
    else GameConfig.set_num_cells_y config in
  match input with
  | None => (config, needs_rebuild)
  | Some input_value =>
      if decide (input_value = current_value) then (config, needs_rebuild)
      else if decide (input_value < 1) then (set_value_func 1, true)
      else (set_value_func input_value, true)
  end.

End GameConfigGUI.

(** ** tkinter_gui.py: GameConfigGUI

    The text of an entry field is represented by what [int()] makes of it:
    [None] when [int()] raises [ValueError], and [Some v] after
    [input_var.set(str(v))].  [_board_config] is a reference to the
    [GameConfig] object shared with the application and the board, so the
    methods take that object and return it. *)

Module ConfigFrame.

Record t : Type := mk {
  scale_input : option Z;
  num_cells_x_input : option Z;
  num_cells_y_input : option Z;
  fps_input : option Z;
  _board_needs_rebuild : bool
}.

Definition with_scale_input (v : option Z) (f : t) : t :=
  mk v (num_cells_x_input f) (num_cells_y_input f) (fps_input f) (_board_needs_rebuild f).

Definition with_num_cells_x_input (v : option Z) (f : t) : t :=
  mk (scale_input f) v (num_cells_y_input f) (fps_input f) (_board_needs_rebuild f).

Definition with_num_cells_y_input (v : option Z) (f : t) : t :=
  mk (scale_input f) (num_cells_x_input f) v (fps_input f) (_board_needs_rebuild f).

Definition with_fps_input (v : option Z) (f : t) : t :=
  mk (scale_input f) (num_cells_x_input f) (num_cells_y_input f) v (_board_needs_rebuild f).

Definition with_board_needs_rebuild (v : bool) (f : t) : t :=
  mk (scale_input f) (num_cells_x_input f) (num_cells_y_input f) (fps_input f) v.

(** The entries show the configuration; nothing to rebuild. *)
Definition __init__ (board_config : GameConfig.t) : t :=
  mk (Some (GameConfig.get_scale board_config))
     (Some (GameConfig.get_num_cells_x board_config))
     (Some (GameConfig.get_num_cells_y board_config))
     (Some (GameConfig.get_fps board_config))
     false.

Definition _validate_scale (st : GameConfig.t * t) : GameConfig.t * t :=
  let '(config, self) := st in
  let current_value := GameConfig.get_scale config in
  match scale_input self with
  | None => (config, with_scale_input (Some current_value) self)
  | Some input_value =>
      if decide (input_value = current_value) then (config, self)
      else if decide (input_value < 1) then
        (GameConfig.set_scale config 1,
         with_board_needs_rebuild true (with_scale_input (Some 1) self))
      else
        (GameConfig.set_scale config input_value, with_board_needs_rebuild true self)
  end.

(** [screen_limit] is not used by the source either. *)
Definition _validate_num_cells (axis : string) (screen_limit : Z)
  (st : GameConfig.t * t) : GameConfig.t * t :=
  let '(config, self) := st in
  let input_var :=
    if decide (axis = "x"%string) then num_cells_x_input self
    else num_cells_y_input self in
  let set_input_var :=
    if decide (axis = "x"%string) then with_num_cells_x_input
    else with_num_cells_y_input in
  let current_value :=
    if decide (axis = "x"%string) then GameConfig.get_num_cells_x config
    else GameConfig.get_num_cells_y config in
  let set_value_func :=
    if decide (axis = "x"%string) then GameConfig.set_num_cells_x config
    else GameConfig.set_num_cells_y config in
  match input_var with
  | None => (config, set_input_var (Some current_value) self)
  | Some input_value =>
      if decide (input_value = current_value) then (config, self)
      else if decide (input_value < 1) then
        (set_value_func 1, with_board_needs_rebuild true (set_input_var (Some 1) self))
      else (set_value_func input_value, with_board_needs_rebuild true self)
  end.

Definition _validate_fps (st : GameConfig.t * t) : GameConfig.t * t :=
  let '(config, self) := st in
  let current_value := GameConfig.get_fps config in
  let set_value_func := GameConfig.set_fps config in
  match fps_input self with
  | None => (config, with_fps_input (Some current_value) self)
  | Some input_value =>
      if decide (input_value = current_value) then (config, self)
      else if decide (input_value < 1) then
        (set_value_func 1, with_fps_input (Some 1) self)
      else if decide (input_value > 1000) then
        (set_value_func 1000, with_fps_input (Some 1000) self)
      else (set_value_func input_value, self)
  end.

(** [_set_options] up to the test of [_board_needs_rebuild]: the four
    validations, in the order of the source. *)
Definition validate_all (screenwidth screenheight : Z) (st : GameConfig.t * t)
  : GameConfig.t * t :=
  let st := _validate_scale st in
  let st := _validate_num_cells "x" screenwidth st in
  let st := _validate_num_cells "y" screenheight st in
  _validate_fps st.

End ConfigFrame.

(** ** tkinter_gui.py: GameRulesGUI

    The key ['survive 3'] of [_vars] is built as [rule + ' ' + str(neighbors)]
    and taken apart again by [split()] and [int()]; it is represented by the
    pair of the rule name and the count.  [_vars] keeps its insertion order;
    its keys never change, only the values of the [BooleanVar]s do. *)

Module RulesFrame.

Record t : Type := mk {
  _vars : list ((string * Z) * bool)
}.

(** [_state_values = {0: CellState.dead, 1: CellState.alive}], indexed by the
    [bool] that [BooleanVar.get()] returns. *)
Definition _state_values : gmap Z CellState := <[1 := alive]> (<[0 := dead]> ∅).

(** [BooleanVar.set(value)] on the variable stored under [key]. *)
Definition set_var (key : string * Z) (value : bool) (self : t) : t :=
  mk (map (fun kv : (string * Z) * bool => if decide (kv.1 = key) then (key, value) else kv)
          (_vars self)).

(** All eighteen check buttons unchecked, then the three default rules set. *)
Definition __init__ : t :=
  let self :=
    mk (rule ← ["survive"%string; "born"%string];
        neighbors ← range 9;
        [((rule, neighbors), false)]) in
  let self := set_var ("born"%string, 3) true self in
  let self := set_var ("survive"%string, 2) true self in
  set_var ("survive"%string, 3) true self.

(** Body of the loop of [set_value]; the rule table is updated in place, so
    what was written before an exception stays. *)
Definition set_value_item (rules : GameRules.t) (item : (string * Z) * bool)
  : outcome GameRules.t :=
  let '((name, neighbors), value) := item in
  let state := if decide (name = "survive"%string) then alive else dead in
  match dict_getitem _state_values (Z.b2z value) with
  | Raise e => Raised e rules
  | Ok newrule =>
      match GameRules.set_rule rules state neighbors newrule with
      | Ok rules' => Done rules'
      | Raise e => Raised e rules
      end
  end.

Definition set_value (self : t) (rules : GameRules.t) : outcome GameRules.t :=
  for_each set_value_item rules (_vars self).

End RulesFrame.

(** ** tkinter_gui.py: GameBoardGUI, with its canvas

    Of the Tk canvas the code uses three operations: [create_rectangle],
    which adds an item and returns its identifier, one that the canvas has not
    handed out before; [itemconfig(item, fill=...)], which sets the fill of
    that item; and [delete('all')], which removes every item. *)

Module Canvas.

Record item : Type := mk_item {
  coords : Z * Z * Z * Z;
  fill : string
}.

Record t : Type := mk {
  next_item : nat;
  items : gmap nat item
}.

(** [Canvas(...)]: no item yet; Tk numbers the items from 1. *)
Definition create : t := mk 1 ∅.

Definition create_rectangle (x0 y0 x1 y1 : Z) (fill : string) (c : t) : nat * t :=
  (next_item c,
   mk (S (next_item c)) (<[next_item c := mk_item (x0, y0, x1, y1) fill]> (items c))).

Definition itemconfig (square : nat) (fill : string) (c : t) : t :=
  mk (next_item c) (alter (fun it => mk_item (coords it) fill) square (items c)).

Definition delete_all (c : t) : t := mk (next_item c) ∅.

End Canvas.

Definition WHITE : string := "#FFFFFF".
Definition BLACK : string := "#000000".

(** An exception leaving a callback of the GUI: one of the board's, the one
    that [//] raises for a zero divisor, or the one that [after_cancel]
    raises for [None]. *)
Inductive gui_exn : Type :=
| BoardError (e : exn)
| ZeroDivisionError
| ValueError.

(** [a // b] on integers. *)
Definition floordiv (a b : Z) : option Z :=
  if decide (b = 0) then None else Some (a / b).

Module BoardFrame.

(** [_board_config] and [_rules] are references to the shared objects, passed
    where the methods read them.  [canvas] is [_widgets['canvas']], [info] the
    text of [vars['info']].  What [print] writes is left out. *)
Record t : Type := mk {
  _num_cells_x : Z;
  _num_cells_y : Z;
  _scale : Z;
  _canvas_width : Z;
  _canvas_height : Z;
  _game_board : GameBoard.t;
  canvas : Canvas.t;
  info : string;
  colors : gmap CellState string;
  links : gmap Cell nat
}.

Definition with_game_board (v : GameBoard.t) (g : t) : t :=
  mk (_num_cells_x g) (_num_cells_y g) (_scale g) (_canvas_width g) (_canvas_height g)
     v (canvas g) (info g) (colors g) (links g).

Definition with_canvas (v : Canvas.t) (g : t) : t :=
  mk (_num_cells_x g) (_num_cells_y g) (_scale g) (_canvas_width g) (_canvas_height g)
     (_game_board g) v (info g) (colors g) (links g).

Definition with_info (v : string) (g : t) : t :=
  mk (_num_cells_x g) (_num_cells_y g) (_scale g) (_canvas_width g) (_canvas_height g)
     (_game_board g) (canvas g) v (colors g) (links g).

Definition with_links (v : gmap Cell nat) (g : t) : t :=
  mk (_num_cells_x g) (_num_cells_y g) (_scale g) (_canvas_width g) (_canvas_height g)
     (_game_board g) (canvas g) (info g) (colors g) v.

(** Body of the loop of [_draw_changes]. *)
Definition _draw_changes_item (self : t) (item : Cell * CellState) : outcome t :=
  let '(cell, state) := item in
  match dict_getitem (colors self) state with
  | Raise e => Raised e self
  | Ok color =>
      match dict_getitem (links self) cell with
      | Raise e => Raised e self
      | Ok square => Done (with_canvas (Canvas.itemconfig square color (canvas self)) self)
      end
  end.

Definition _draw_changes (celldata : list (Cell * CellState)) (self : t) : outcome t :=
  for_each _draw_changes_item self celldata.

(** Body of the inner loop of [_create_cell_links]. *)
Definition _create_cell_links_cell (self : t) (cell : Cell) : outcome t :=
  match GameBoard.get_coord (_game_board self) cell with
  | Raise e => Raised e self
  | Ok cellcoord =>
      let top := cellcoord.1 * _scale self in
      let left := cellcoord.2 * _scale self in
      let bottom := top + _scale self in
      let right := left + _scale self in
      match dict_getitem (colors self) dead with
      | Raise e => Raised e self
      | Ok color =>
          let '(square, c) :=
            Canvas.create_rectangle top left bottom right color (canvas self) in
          Done (with_links (<[cell := square]> (links self)) (with_canvas c self))
      end
  end.

Definition _create_cell_links (self : t) : outcome t :=
  let graph := GameBoard.get_board (_game_board self) in
  let self := with_links ∅ self in
  for_each (fun self row => for_each _create_cell_links_cell self row) self graph.

(** [GameBoardGUI(master, board_config, rules)]: an exception leaves no
    object behind. *)
Definition __init__ (rng : nat -> Z) (board_config : GameConfig.t) (k : nat)
  : result (t * nat) :=
  let num_cells_x := GameConfig.get_num_cells_x board_config in
  let num_cells_y := GameConfig.get_num_cells_y board_config in
  let scale := GameConfig.get_scale board_config in
  do r <- GameBoard.__init__ rng board_config k;
  let self :=
    mk num_cells_x num_cells_y scale (num_cells_x * scale) (num_cells_y * scale)
       r.1 Canvas.create ""%string (<[dead := WHITE]> (<[alive := BLACK]> ∅)) ∅ in
  match _create_cell_links self with
  | Raised e _ => Raise e
  | Done self =>
      match _draw_changes (GameBoard.get_initial_states (_game_board self)) self with
      | Raised e _ => Raise e
      | Done self =>
          Ok (with_info (GameBoard.get_info_string (_game_board self)) self, r.2)
      end
  end.

(** The methods below return the object as the call leaves it and the
    exception that left the call, if one did. *)
Definition leave (o : outcome t) : t * option exn :=
  match o with
  | Done self => (self, None)
  | Raised e self => (self, Some e)
  end.

Definition update (rules : GameRules.t) (self : t) : t * option exn :=
  match GameBoard.update rules (_game_board self) with
  | (Raise e, board) => (with_game_board board self, Some e)
  | (Ok celldata, board) =>
      match _draw_changes celldata (with_game_board board self) with
      | Raised e self => (self, Some e)
      | Done self =>
          (with_info (GameBoard.get_info_string (_game_board self)) self, None)
      end
  end.

(** [toggle_cell(event)], on the coordinates of the event. *)
Definition toggle_cell (event_x event_y : Z) (self : t) : t * option gui_exn :=
  let scale := _scale self in
  match floordiv event_x scale with
  | None => (self, Some ZeroDivisionError)
  | Some cell_x =>
  match floordiv event_y scale with
  | None => (self, Some ZeroDivisionError)
  | Some cell_y =>
      match GameBoard.toggle_cell (_game_board self) cell_x cell_y with
      | (Raise e, board) => (with_game_board board self, Some (BoardError e))
      | (Ok celldata, board) =>
          match _draw_changes celldata (with_game_board board self) with
          | Raised e self => (self, Some (BoardError e))
          | Done self => (self, None)
          end
      end
  end end.

Definition clear (self : t) : t * option exn :=
  let self := with_game_board (GameBoard.clear (_game_board self)) self in
  let celldata :=
    row ← GameBoard.get_board (_game_board self); cell ← row; [(cell, dead)] in
  leave (_draw_changes celldata self).

Definition reset (rng : nat -> Z) (self : t) (k : nat) : t * nat * option exn :=
  let '(board, k) := GameBoard.reset rng (_game_board self) k in
  let self := with_game_board board self in
  let self := with_canvas (Canvas.delete_all (canvas self)) self in
  match _create_cell_links self with
  | Raised e self => (self, k, Some e)
  | Done self =>
      let self := with_info (GameBoard.get_info_string (_game_board self)) self in
      let '(self, e) :=
        leave (_draw_changes (GameBoard.get_initial_states (_game_board self)) self) in
      (self, k, e)
  end.

Definition change_size (rng : nat -> Z) (board_config : GameConfig.t) (self : t) (k : nat)
  : t * nat * option exn :=
  let num_cells_x := GameConfig.get_num_cells_x board_config in
  let num_cells_y := GameConfig.get_num_cells_y board_config in
  let scale := GameConfig.get_scale board_config in
  let self :=
    mk num_cells_x num_cells_y scale (num_cells_x * scale) (num_cells_y * scale)
       (_game_board self) Canvas.create (info self) (colors self) (links self) in
  match GameBoard.__init__ rng board_config k with
  | Raise e => (self, k, Some e)
  | Ok (board, k) => reset rng (with_game_board board self) k
  end.

End BoardFrame.

(** ** Vocabulary of the statements *)

Global Instance exn_eq_dec : EqDecision exn.
Proof. solve_decision. Defined.

Global Instance result_eq_dec `{EqDecision A} : EqDecision (result A).
Proof. solve_decision. Defined.

Import GameBoard.

(** A configuration with the given numbers of cells. *)
Definition config_of (nx ny : Z) : GameConfig.t :=
  GameConfig.set_num_cells_y (GameConfig.set_num_cells_x GameConfig.__init__ nx) ny.

(** Lengths of the lists that [range] makes of the two dimensions. *)
Definition width (b : t) : nat := Z.to_nat (_num_cells_x b).
Definition height (b : t) : nat := Z.to_nat (_num_cells_y b).

(** The state a draw gives a cell. *)
Definition state_of_draw (r : Z) : CellState := if decide (r = 0) then alive else dead.

(** The states of [n] cells seeded in a row from draw [k] on. *)
Definition seeded (rng : nat -> Z) (k n : nat) : list CellState :=
  map (fun i => state_of_draw (rng (k + i)%nat)) (seq 0 n).

(** References of the live cells of a store, in allocation order. *)
Definition alive_refs (st : Cell.store) : list Cell :=
  filter (fun c => st !! c = Some alive) (seq 0 (length st)).

(** Number of live cells, by a full scan of the grid. *)
Definition scan_live_count (b : t) : Z :=
  Z.of_nat (length (filter (fun c => Cell.get_state c (cells b) = Ok alive)
                           (concat (_board b)))).

(** References by rows: row [y] holds [y * w .. y * w + w - 1]. *)
Definition grid (w h : nat) : list (list Cell) :=
  map (fun y => seq (y * w) w) (seq 0 h).

(** Row-major position of a reference, and back. *)
Definition pos_of (w : nat) (c : Cell) : Z * Z :=
  (Z.of_nat (c mod w), Z.of_nat (c / w)).

Definition cell_at (w : nat) (p : Z * Z) : Cell :=
  (Z.to_nat p.2 * w + Z.to_nat p.1)%nat.

Definition in_grid (nx ny : Z) (p : Z * Z) : bool :=
  negb ((p.1 <? 0) || (p.1 >=? nx)) && negb ((p.2 <? 0) || (p.2 >=? ny)).

(** The in-grid positions among the eight around [pos], in direction order. *)
Definition neighbor_positions (nx ny : Z) (pos : Z * Z) : list (Z * Z) :=
  filter (fun p => in_grid nx ny p = true)
         (map (fun d : Z * Z => (pos.1 + d.1, pos.2 + d.2)) _DIRECTIONS).

(** What the constructor builds out of the dimensions alone. *)
Record shape (b : t) : Prop := mk_shape {
  shape_board : _board b = grid (width b) (height b);
  shape_positions : forall c : Cell,
    _cell_positions b !! c =
      if decide (c < width b * height b)%nat then Some (pos_of (width b) c) else None;
  shape_neighbors : forall c : Cell,
    _neighbors b !! c =
      if decide (c < width b * height b)%nat
      then Some (map (cell_at (width b))
                     (neighbor_positions (_num_cells_x b) (_num_cells_y b)
                                         (pos_of (width b) c)))
      else None;
  shape_cells : length (cells b) = (width b * height b)%nat
}.

(** A board as seeding leaves it, from draw [k] on. *)
Record seeded_board (rng : nat -> Z) (k : nat) (b : t) : Prop := mk_seeded_board {
  seeded_generation : _generation b = 0;
  seeded_cells : cells b = seeded rng k (width b * height b);
  seeded_live_count :
    _live_count b = Z.of_nat (length (alive_refs (cells b)));
  seeded_initial_changes :
    _initial_changes b = map (fun c => (c, alive)) (alive_refs (cells b))
}.

(** Boards that the public operations produce. *)
Inductive reachable : t -> Prop :=
| reach_init rng config k b k' :
    __init__ rng config k = Ok (b, k') -> reachable b
| reach_change_size rng config k b k' :
    GameBoardGUI.change_size rng config k = Ok (b, k') -> reachable b
| reach_update rules b : reachable b -> reachable (update rules b).2
| reach_toggle_cell b x y : reachable b -> reachable (toggle_cell b x y).2
| reach_clear b : reachable b -> reachable (clear b)
| reach_reset rng b k : reachable b -> reachable (reset rng b k).1.

(** Every lookup with a neighbour count in [0, 8] succeeds. *)
Definition rules_total (rules : GameRules.t) : Prop :=
  forall (s : CellState) (n : Z), 0 <= n <= 8 ->
    exists s', GameRules.get_next_state rules s n = Ok s'.

(** What the loop body of [update] reads for one cell: its state and the
    state the rules give it. *)
Definition transition (rules : GameRules.t) (self : t) (cell : Cell)
  : result (CellState * CellState) :=
  do n <- _get_num_live_neighbors self cell;
  do cur <- Cell.get_state cell (cells self);
  do next <- GameRules.get_next_state rules cur n;
  Ok (cur, next).

(** The cells of [cs] that change, with their new states. *)
Definition changes (rules : GameRules.t) (self : t) (cs : list Cell)
  : list (Cell * CellState) :=
  mbind (M := list) (fun c =>
           match transition rules self c with
           | Ok (cur, next) => if decide (next <> cur) then [(c, next)] else []
           | Raise _ => []
           end) cs.

(** Row-major order on positions [(x, y)]. *)
Definition row_major_lt (p q : Z * Z) : Prop :=
  p.2 < q.2 \/ (p.2 = q.2 /\ p.1 < q.1).

(** Progress of [_generate] after [m] cells, whatever the row. *)
Record gen_inv (rng : nat -> Z) (k0 : nat) (nx ny : Z) (m : nat) (self : t) (k : nat)
  : Prop := mk_gen_inv {
  gen_x : _num_cells_x self = nx;
  gen_y : _num_cells_y self = ny;
  gen_neighbors : _neighbors self = ∅;
  gen_generation : _generation self = 0;
  gen_cells : cells self = seeded rng k0 m;
  gen_k : k = (k0 + m)%nat;
  gen_positions : forall c : Cell,
    _cell_positions self !! c =
      if decide (c < m)%nat then Some (pos_of (Z.to_nat nx) c) else None;
  gen_live_count : _live_count self = Z.of_nat (length (alive_refs (cells self)));
  gen_initial_changes :
    _initial_changes self = map (fun c => (c, alive)) (alive_refs (cells self))
}.

(** The frame of a board: dimensions, grid of references, position map and
    neighbour map, and the number of cells in the store. *)
Record same_frame (b b' : t) : Prop := mk_same_frame {
  frame_x : _num_cells_x b' = _num_cells_x b;
  frame_y : _num_cells_y b' = _num_cells_y b;
  frame_board : _board b' = _board b;
  frame_positions : _cell_positions b' = _cell_positions b;
  frame_neighbors : _neighbors b' = _neighbors b;
  frame_cells : length (cells b') = length (cells b)
}.

(** [for cell in l: cell.set_...()], on the store. *)
Definition write_all (s : CellState) (l : list Cell) (st : list CellState)
  : list CellState :=
  foldl (fun st c => <[c := s]> st) st l.

(** The cells of a delta list that become alive, and those that become dead. *)
Definition spawned (ch : list (Cell * CellState)) : list Cell :=
  (filter (fun d => d.2 = alive) ch).*1.

Definition died (ch : list (Cell * CellState)) : list Cell :=
  (filter (fun d => d.2 <> alive) ch).*1.

(** The counter after one [+= 1] for each birth and one [-= 1] for each death. *)
Definition live_after (live : Z) (ch : list (Cell * CellState)) : Z :=
  live + Z.of_nat (length (spawned ch)) - Z.of_nat (length (died ch)).

(** The loop state of [update] after the changes [ch] have been recorded. *)
Definition advance (st : update_state) (ch : list (Cell * CellState)) : update_state :=
  mk_update_state
    (with_live_count (live_after (_live_count (us_self st)) ch) (us_self st))
    (spawning st ++ spawned ch) (dying st ++ died ch) (tkinter_data st ++ ch).

(** The other state. *)
Definition flip (s : CellState) : CellState :=
  match s with dead => alive | alive => dead end.

(** The board that construction returns for the given draws and size. *)
Definition board_of (rng : nat -> Z) (nx ny : Z) : t :=
  match __init__ rng (config_of nx ny) 0 with
  | Ok (b, _) => b
  | Raise _ => mk nx ny [] ∅ ∅ 0 0 [] []
  end.

(** Number of live cells in a store. *)
Definition count_alive (st : list CellState) : nat :=
  length (filter (fun s => s = alive) st).

(** Whether the cell at position [p] is alive: [get_cell] then [get_state]. *)
Definition alive_at (b : t) (p : Z * Z) : Prop :=
  (do cell <- get_cell b p.1 p.2; Cell.get_state cell (cells b)) = Ok alive.

Global Instance alive_at_dec (b : t) (p : Z * Z) : Decision (alive_at b p).
Proof. unfold alive_at. apply _. Defined.

(** A configuration that the form accepts as it is. *)
Definition config_valid (config : GameConfig.t) : Prop :=
  1 <= GameConfig.get_scale config /\
  1 <= GameConfig.get_num_cells_x config /\
  1 <= GameConfig.get_num_cells_y config /\
  1 <= GameConfig.get_fps config <= 1000.

(** Whether an entry holds an integer other than [v]. *)
Definition differs (entry : option Z) (v : Z) : bool :=
  match entry with
  | Some i => bool_decide (i <> v)
  | None => false
  end.

(** The state that a rule name stands for in [set_value]. *)
Definition state_of_name (name : string) : CellState :=
  if decide (name = "survive"%string) then alive else dead.

(** The rule table says what the check buttons show. *)
Definition mirrors (self : RulesFrame.t) (rules : gmap CellState (gmap Z CellState))
  : Prop :=
  forall name n v, ((name, n), v) ∈ RulesFrame._vars self ->
    GameRules.get_next_state rules (state_of_name name) n
      = Ok (if v : bool then alive else dead).

(** A click on the check button of [key]: Tk flips the button's variable and
    then runs the button's command, [set_value]. *)
Definition click_rule (key : string * Z)
  (st : RulesFrame.t * gmap CellState (gmap Z CellState))
  : RulesFrame.t * outcome (gmap CellState (gmap Z CellState)) :=
  let self :=
    RulesFrame.mk
      (map (fun kv : (string * Z) * bool =>
              if decide (kv.1 = key) then (key, negb kv.2) else kv)
           (RulesFrame._vars st.1)) in
  (self, RulesFrame.set_value self st.2).

(** A run of clicks; it stops at the first exception. *)
Fixpoint click_rules (keys : list (string * Z))
  (st : RulesFrame.t * gmap CellState (gmap Z CellState))
  : RulesFrame.t * outcome (gmap CellState (gmap Z CellState)) :=
  match keys with
  | [] => (st.1, Done st.2)
  | key :: keys' =>
      match click_rule key st with
      | (self, Done rules) => click_rules keys' (self, rules)
      | (self, Raised e rules) => (self, Raised e rules)
      end
  end.

(** The fill that [colors] holds for a state. *)
Definition color_of (s : CellState) : string :=
  match s with alive => BLACK | dead => WHITE end.

(** The rectangle of the cell at position [p], for cells [scale] pixels wide. *)
Definition square_of (scale : Z) (p : Z * Z) : Z * Z * Z * Z :=
  (p.1 * scale, p.2 * scale, p.1 * scale + scale, p.2 * scale + scale).

(** Whether the rectangle [(x0, y0, x1, y1)] holds the pixel [(px, py)]. *)
Definition covers (r : Z * Z * Z * Z) (px py : Z) : Prop :=
  r.1.1.1 <= px < r.1.2 /\ r.1.1.2 <= py < r.2.

(** The canvas shows the states [st] of the cells of the board: every cell has
    its rectangle, at its position and with the fill of its state; only cells
    of the board are linked, no two of them to one rectangle; and the canvas
    holds no other item. *)
Record drawn (g : BoardFrame.t) (st : Cell.store) : Prop := mk_drawn {
  drawn_cell : forall c : Cell,
    c ∈ concat (get_board (BoardFrame._game_board g)) ->
    exists p s square,
      get_coord (BoardFrame._game_board g) c = Ok p /\
      Cell.get_state c st = Ok s /\
      BoardFrame.links g !! c = Some square /\
      Canvas.items (BoardFrame.canvas g) !! square =
        Some (Canvas.mk_item (square_of (BoardFrame._scale g) p) (color_of s));
  drawn_links : forall (c : Cell) (square : nat),
    BoardFrame.links g !! c = Some square ->
    c ∈ concat (get_board (BoardFrame._game_board g));
  drawn_distinct : forall (c c' : Cell) (square : nat),
    BoardFrame.links g !! c = Some square ->
    BoardFrame.links g !! c' = Some square -> c = c';
  drawn_items : forall square : nat,
    is_Some (Canvas.items (BoardFrame.canvas g) !! square) ->
    exists c : Cell, BoardFrame.links g !! c = Some square
}.

(** The canvas shows the board. *)
Definition in_sync (g : BoardFrame.t) : Prop :=
  drawn g (cells (BoardFrame._game_board g)).

(** What the methods of the view keep of its attributes. *)
Record view_frame (g : BoardFrame.t) : Prop := mk_view_frame {
  vf_board : reachable (BoardFrame._game_board g);
  vf_x : BoardFrame._num_cells_x g = _num_cells_x (BoardFrame._game_board g);
  vf_y : BoardFrame._num_cells_y g = _num_cells_y (BoardFrame._game_board g);
  vf_width : BoardFrame._canvas_width g = BoardFrame._num_cells_x g * BoardFrame._scale g;
  vf_height : BoardFrame._canvas_height g = BoardFrame._num_cells_y g * BoardFrame._scale g;
  vf_colors : BoardFrame.colors g = <[dead := WHITE]> (<[alive := BLACK]> ∅)
}.

(** Views that the application produces: it steps the board with the rule
    table made by [GameRules()] and edited by [set_rule], in which every
    lookup succeeds. *)
Inductive view_reachable : BoardFrame.t -> Prop :=
| vreach_init rng config k g k' :
    BoardFrame.__init__ rng config k = Ok (g, k') -> view_reachable g
| vreach_update rules g :
    rules_total rules -> view_reachable g ->
    view_reachable (BoardFrame.update rules g).1
| vreach_toggle_cell event_x event_y g :
    view_reachable g -> view_reachable (BoardFrame.toggle_cell event_x event_y g).1
| vreach_clear g : view_reachable g -> view_reachable (BoardFrame.clear g).1
| vreach_reset rng g k :
    view_reachable g -> view_reachable (BoardFrame.reset rng g k).1.1
| vreach_change_size rng config g k :
    view_reachable g -> view_reachable (BoardFrame.change_size rng config g k).1.1.

(** The loop of [_create_cell_links] after [i] cells, on a canvas whose next
    identifier was [base]. *)
Record links_inv (g : BoardFrame.t) (base i : nat) (g' : BoardFrame.t) : Prop :=
  mk_links_inv {
  li_rest : g' = BoardFrame.with_links (BoardFrame.links g')
                   (BoardFrame.with_canvas (BoardFrame.canvas g') g);
  li_next : Canvas.next_item (BoardFrame.canvas g') = (base + i)%nat;
  li_links : forall c : Cell,
    BoardFrame.links g' !! c =
      if decide (c < i)%nat then Some (base + c)%nat else None;
  li_items : forall square : nat,
    Canvas.items (BoardFrame.canvas g') !! square =
      if decide (base <= square < base + i)%nat
      then Some (Canvas.mk_item
                   (square_of (BoardFrame._scale g)
                      (pos_of (width (BoardFrame._game_board g)) (square - base)))
                   WHITE)
      else Canvas.items (BoardFrame.canvas g) !! square
}.

(** What every method of the view keeps: its attributes fit the board, the
    canvas shows the board, and the label shows the board's counters. *)
Record view_inv (g : BoardFrame.t) : Prop := mk_view_inv {
  vi_frame : view_frame g;
  vi_sync : in_sync g;
  vi_info : BoardFrame.info g = get_info_string (BoardFrame._game_board g)
}.

(** The view that construction returns for the given draws and size, at the
    default scale. *)
Definition view_of (rng : nat -> Z) (nx ny : Z) : BoardFrame.t :=
  match BoardFrame.__init__ rng (config_of nx ny) 0 with
  | Ok (g, _) => g
  | Raise _ =>
      BoardFrame.mk nx ny 0 0 0 (board_of rng nx ny) Canvas.create ""%string ∅ ∅
  end.

(** ** tkinter_gui.py: GameApp, with the [after] callbacks of Tk

    Of Tk's timers the code uses [after(ms, callback)], which schedules the
    callback and returns an identifier that Tk has not handed out before, and
    [after_cancel(id)], which unschedules it, does nothing for an identifier
    that is not pending, and raises [ValueError] for [None].  The one
    callback that the code schedules is [_play_frame], so a pending timer is
    represented by its identifier and its delay. *)

Module Timers.

Record t : Type := mk {
  next_id : nat;
  pending : gmap nat Z
}.

Definition create : t := mk 1 ∅.

Definition after (ms : Z) (tk : t) : nat * t :=
  (next_id tk, mk (S (next_id tk)) (<[next_id tk := ms]> (pending tk))).

Definition after_cancel (id : option nat) (tk : t) : option t :=
  match id with
  | None => None
  | Some i => Some (mk (next_id tk) (delete i (pending tk)))
  end.

End Timers.

Module App.

(** [_board_config] and [_rules] are the objects shared with the view and the
    two forms; [_game_board] is the [GameBoardGUI].  [tk] holds the timers
    of the Tk interpreter and [draws] the index of the next [randint].  The
    packing and unpacking of the frames is left out. *)
Record t : Type := mk {
  _playing : bool;
  _play_id : option nat;
  _delay : Z;
  _board_config : GameConfig.t;
  _rules : GameRules.t;
  _game_board : BoardFrame.t;
  _config_gui : ConfigFrame.t;
  _rule_gui : RulesFrame.t;
  tk : Timers.t;
  draws : nat
}.

Definition with_playing (v : bool) (a : t) : t :=
  mk v (_play_id a) (_delay a) (_board_config a) (_rules a) (_game_board a)
     (_config_gui a) (_rule_gui a) (tk a) (draws a).

Definition with_play_id (v : option nat) (a : t) : t :=
  mk (_playing a) v (_delay a) (_board_config a) (_rules a) (_game_board a)
     (_config_gui a) (_rule_gui a) (tk a) (draws a).

Definition with_delay (v : Z) (a : t) : t :=
  mk (_playing a) (_play_id a) v (_board_config a) (_rules a) (_game_board a)
     (_config_gui a) (_rule_gui a) (tk a) (draws a).

Definition with_board_config (v : GameConfig.t) (a : t) : t :=
  mk (_playing a) (_play_id a) (_delay a) v (_rules a) (_game_board a)
     (_config_gui a) (_rule_gui a) (tk a) (draws a).

Definition with_rules (v : GameRules.t) (a : t) : t :=
  mk (_playing a) (_play_id a) (_delay a) (_board_config a) v (_game_board a)
     (_config_gui a) (_rule_gui a) (tk a) (draws a).

Definition with_game_board (v : BoardFrame.t) (a : t) : t :=
  mk (_playing a) (_play_id a) (_delay a) (_board_config a) (_rules a) v
     (_config_gui a) (_rule_gui a) (tk a) (draws a).

Definition with_config_gui (v : ConfigFrame.t) (a : t) : t :=
  mk (_playing a) (_play_id a) (_delay a) (_board_config a) (_rules a) (_game_board a)
     v (_rule_gui a) (tk a) (draws a).

Definition with_rule_gui (v : RulesFrame.t) (a : t) : t :=
  mk (_playing a) (_play_id a) (_delay a) (_board_config a) (_rules a) (_game_board a)
     (_config_gui a) v (tk a) (draws a).

Definition with_tk (v : Timers.t) (a : t) : t :=
  mk (_playing a) (_play_id a) (_delay a) (_board_config a) (_rules a) (_game_board a)
     (_config_gui a) (_rule_gui a) v (draws a).

Definition with_draws (v : nat) (a : t) : t :=
  mk (_playing a) (_play_id a) (_delay a) (_board_config a) (_rules a) (_game_board a)
     (_config_gui a) (_rule_gui a) (tk a) v.

(** [GameApp()], from draw [k] on. *)
Definition __init__ (rng : nat -> Z) (k : nat) : result t :=
  let board_config := GameConfig.__init__ in
  let rules := GameRules.__init__ in
  do r <- BoardFrame.__init__ rng board_config k;
  Ok (mk false None 30 board_config rules r.1
         (ConfigFrame.__init__ board_config) RulesFrame.__init__ Timers.create r.2).

Definition play_pause (self : t) : t * option gui_exn :=
  if negb (_playing self) then
    let self := with_playing true self in
    match floordiv 1000 (GameConfig.get_fps (_board_config self)) with
    | None => (self, Some ZeroDivisionError)
    | Some delay =>
        let self := with_delay delay self in
        let '(id, timers) := Timers.after 0 (tk self) in
        (with_play_id (Some id) (with_tk timers self), None)
    end
  else
    match Timers.after_cancel (_play_id self) (tk self) with
    | None => (self, Some ValueError)
    | Some timers =>
        (with_playing false (with_play_id None (with_tk timers self)), None)
    end.

Definition stop (self : t) : t * option gui_exn :=
  if _playing self then
    match Timers.after_cancel (_play_id self) (tk self) with
    | None => (self, Some ValueError)
    | Some timers =>
        (with_playing false (with_play_id None (with_tk timers self)), None)
    end
  else (self, None).

(** An exception of the view as it leaves a callback of the application. *)
Definition lift (e : option exn) : option gui_exn :=
  match e with
  | Some e => Some (BoardError e)
  | None => None
  end.

Definition _play_frame (self : t) : t * option gui_exn :=
  match BoardFrame.update (_rules self) (_game_board self) with
  | (view, Some e) => (with_game_board view self, Some (BoardError e))
  | (view, None) =>
      let self := with_game_board view self in
      let '(id, timers) := Timers.after (_delay self) (tk self) in
      (with_play_id (Some id) (with_tk timers self), None)
  end.

Definition advance (self : t) : t * option gui_exn :=
  let '(view, e) := BoardFrame.update (_rules self) (_game_board self) in
  (with_game_board view self, lift e).

Definition reset (rng : nat -> Z) (self : t) : t * option gui_exn :=
  let '(view, k, e) := BoardFrame.reset rng (_game_board self) (draws self) in
  (with_draws k (with_game_board view self), lift e).

Definition rebuild_board (rng : nat -> Z) (self : t) : t * option gui_exn :=
  let '(view, k, e) :=
    BoardFrame.change_size rng (_board_config self) (_game_board self) (draws self) in
  (with_draws k (with_game_board view self), lift e).

(** [GameConfigGUI._set_options]; its [master] is the application. *)
Definition _set_options (rng : nat -> Z) (screenwidth screenheight : Z) (self : t)
  : t * option gui_exn :=
  let '(config, form) :=
    ConfigFrame.validate_all screenwidth screenheight
      (_board_config self, _config_gui self) in
  let self := with_config_gui form (with_board_config config self) in
  if ConfigFrame._board_needs_rebuild (_config_gui self) then
    match stop self with
    | (self, Some e) => (self, Some e)
    | (self, None) =>
        match rebuild_board rng self with
        | (self, Some e) => (self, Some e)
        | (self, None) =>
            (with_config_gui
               (ConfigFrame.with_board_needs_rebuild false (_config_gui self)) self,
             None)
        end
    end
  else
    (with_config_gui
       (ConfigFrame.with_board_needs_rebuild false (_config_gui self)) self,
     None).

End App.

(** What the user and the Tk event loop do to the application: a press on
    one of the buttons of [ActionGUI], a click on the canvas, a click on a
    check button of the rule editor, typing into the four entries of the
    configuration form, a press on its [Set] button, and a timer that is
    due. *)
Inductive event : Type :=
| press_play_pause
| press_advance
| press_clear
| press_reset
| click_canvas (x y : Z)
| click_check_button (key : string * Z)
| type_entries (scale num_cells_x num_cells_y fps : option Z)
| press_set (screenwidth screenheight : Z)
| timer_due (id : nat).

(** The callback that Tk runs for an event, as bound by [command=] in the
    constructors of the forms, by [bind('<Button 1>', ...)] on the canvas and
    by [after]; a timer leaves the pending ones when its callback starts. *)
Definition handle (rng : nat -> Z) (ev : event) (a : App.t) : App.t * option gui_exn :=
  match ev with
  | press_play_pause => App.play_pause a
  | press_advance => App.advance a
  | press_clear =>
      let '(view, e) := BoardFrame.clear (App._game_board a) in
      (App.with_game_board view a, App.lift e)
  | press_reset => App.reset rng a
  | click_canvas x y =>
      let '(view, e) := BoardFrame.toggle_cell x y (App._game_board a) in
      (App.with_game_board view a, e)
  | click_check_button key =>
      match click_rule key (App._rule_gui a, App._rules a) with
      | (form, Done rules) => (App.with_rules rules (App.with_rule_gui form a), None)
      | (form, Raised e rules) =>
          (App.with_rules rules (App.with_rule_gui form a), Some (BoardError e))
      end
  | type_entries scale num_cells_x num_cells_y fps =>
      (App.with_config_gui
         (ConfigFrame.mk scale num_cells_x num_cells_y fps
            (ConfigFrame._board_needs_rebuild (App._config_gui a))) a,
       None)
  | press_set screenwidth screenheight => App._set_options rng screenwidth screenheight a
  | timer_due id =>
      match Timers.pending (App.tk a) !! id with
      | None => (a, None)
      | Some _ =>
          App._play_frame
            (App.with_tk (Timers.mk (Timers.next_id (App.tk a))
                                    (delete id (Timers.pending (App.tk a)))) a)
      end
  end.

(** The application after a run of events, whether or not a callback
    raised: Tk reports an exception of a callback and goes on. *)
Definition run (rng : nat -> Z) (evs : list event) (a : App.t) : App.t :=
  foldl (fun a ev => (handle rng ev a).1) a evs.

(** Whether the pixel lies on the canvas of the view. *)
Definition on_canvas (g : BoardFrame.t) (x y : Z) : Prop :=
  0 <= x < BoardFrame._canvas_width g /\ 0 <= y < BoardFrame._canvas_height g.

(** What every event keeps. *)
Record app_inv (a : App.t) : Prop := mk_app_inv {
  ai_config : config_valid (App._board_config a);
  ai_view : view_inv (App._game_board a);
  ai_x : BoardFrame._num_cells_x (App._game_board a)
         = GameConfig.get_num_cells_x (App._board_config a);
  ai_y : BoardFrame._num_cells_y (App._game_board a)
         = GameConfig.get_num_cells_y (App._board_config a);
  ai_scale : BoardFrame._scale (App._game_board a)
             = GameConfig.get_scale (App._board_config a);
  ai_keys : (RulesFrame._vars (App._rule_gui a)).*1
            = (RulesFrame._vars RulesFrame.__init__).*1;
  ai_rules : rules_total (App._rules a);
  ai_flag : ConfigFrame._board_needs_rebuild (App._config_gui a) = false;
  ai_delay : 1 <= App._delay a <= 1000;
  ai_timers :
    if App._playing a then
      exists (id : nat) (ms : Z),
        App._play_id a = Some id /\
        Timers.pending (App.tk a) = {[id := ms]} /\
        (ms = 0 \/ ms = App._delay a)
    else App._play_id a = None /\ Timers.pending (App.tk a) = ∅
}.

(** ** Loops *)

Lemma for_each_app {S A : Type} (body : S -> A -> outcome S) (s : S) (xs ys : list A) :
  for_each body s (xs ++ ys) =
    match for_each body s xs with
    | Done s' => for_each body s' ys
    | Raised e s' => Raised e s'
    end.
Proof.
  revert s. induction xs as [|x xs IH]; intros s; simpl; [done|].
  destruct (body s x); auto.
Qed.

Lemma for_each_concat {S A : Type} (body : S -> A -> outcome S) (s : S)
  (rows : list (list A)) :
  for_each (fun s row => for_each body s row) s rows = for_each body s (concat rows).
Proof.
  revert s. induction rows as [|r rows IH]; intros s; simpl; [done|].
  rewrite for_each_app. destruct (for_each body s r); auto.
Qed.

Lemma foldl_concat {S A : Type} (f : S -> A -> S) (s : S) (rows : list (list A)) :
  foldl (fun s row => foldl f s row) s rows = foldl f s (concat rows).
Proof.
  revert s. induction rows as [|r rows IH]; intros s; simpl; [done|].
  by rewrite foldl_app, IH.
Qed.

(** Invariant rule for a loop over [range n]. *)
Lemma foldl_range_inv {S : Type} (f : S -> Z -> S) (P : nat -> S -> Prop) (s : S) (n : Z) :
  P 0%nat s ->
  (forall (i : nat) (s : S), (i < Z.to_nat n)%nat -> P i s -> P (Datatypes.S i) (f s (Z.of_nat i))) ->
  P (Z.to_nat n) (foldl f s (range n)).
Proof.
  unfold range. generalize (Z.to_nat n) as m. intros m H0 Hstep.
  induction m as [|m IH].
  - done.
  - rewrite seq_S, map_app, foldl_app. simpl. apply Hstep; [lia|].
    apply IH. intros i s' Hi. apply Hstep. lia.
Qed.

(** Invariant rule for a loop over the references [0 .. n-1]. *)
Lemma foldl_seq_inv {S : Type} (f : S -> nat -> S) (P : nat -> S -> Prop) (s : S) (n : nat) :
  P 0%nat s ->
  (forall (i : nat) (s : S), (i < n)%nat -> P i s -> P (Datatypes.S i) (f s i)) ->
  P n (foldl f s (seq 0 n)).
Proof.
  intros H0 Hstep. induction n as [|m IH].
  - done.
  - rewrite seq_S, foldl_app. simpl. apply Hstep; [lia|].
    apply IH. intros i s' Hi. apply Hstep. lia.
Qed.

Lemma concat_grid (w h : nat) : concat (grid w h) = seq 0 (w * h).
Proof.
  unfold grid. induction h as [|h IH].
  - by rewrite Nat.mul_0_r.
  - rewrite seq_S, map_app, concat_app, IH. simpl. rewrite app_nil_r.
    replace (w * S h)%nat with (w * h + w)%nat by lia.
    rewrite seq_app. do 2 f_equal; lia.
Qed.

Lemma length_grid (w h : nat) : length (grid w h) = h.
Proof. unfold grid. by rewrite length_map, length_seq. Qed.

Lemma lookup_grid (w h y : nat) :
  (y < h)%nat -> grid w h !! y = Some (seq (y * w) w).
Proof.
  intros Hy. unfold grid. rewrite list_lookup_fmap, lookup_seq_lt by done. done.
Qed.

(** ** Stores and seeding *)

Lemma filter_ext_in {A : Type} (P Q : A -> Prop) `{!forall x, Decision (P x)}
  `{!forall x, Decision (Q x)} (l : list A) :
  (forall x, x ∈ l -> P x <-> Q x) -> filter P l = filter Q l.
Proof.
  induction l as [|a l IH]; intros HPQ; [done|].
  rewrite !filter_cons.
  assert (P a <-> Q a) as Ha by (apply HPQ; left).
  rewrite IH by (intros x Hx; apply HPQ; by right).
  destruct (decide (P a)), (decide (Q a)); tauto || done.
Qed.

Lemma seeded_S (rng : nat -> Z) (k n : nat) :
  seeded rng k (S n) = seeded rng k n ++ [state_of_draw (rng (k + n)%nat)].
Proof. unfold seeded. by rewrite seq_S, map_app. Qed.

Lemma length_seeded (rng : nat -> Z) (k n : nat) : length (seeded rng k n) = n.
Proof. unfold seeded. by rewrite length_map, length_seq. Qed.

Lemma insert_last {A : Type} (l : list A) (x y : A) :
  <[length l := x]> (l ++ [y]) = l ++ [x].
Proof. rewrite insert_app_r_alt by lia. by rewrite Nat.sub_diag. Qed.

Lemma alive_refs_snoc (st : list CellState) (s : CellState) :
  alive_refs (st ++ [s]) =
    alive_refs st ++ (if decide (s = alive) then [length st] else []).
Proof.
  unfold alive_refs. rewrite length_app. simpl. rewrite Nat.add_1_r, seq_S, filter_app.
  f_equal.
  - apply filter_ext_in. intros c Hc. apply elem_of_seq in Hc.
    rewrite lookup_app_l by lia. done.
  - simpl. rewrite filter_cons, filter_nil.
    rewrite lookup_app_r by lia. rewrite Nat.sub_diag. simpl.
    destruct s; repeat case_decide; congruence.
Qed.

Lemma pos_of_cell (w x y : nat) :
  (x < w)%nat -> pos_of w (y * w + x) = (Z.of_nat x, Z.of_nat y).
Proof.
  intros Hx. unfold pos_of. f_equal; f_equal.
  - rewrite Nat.add_comm, Nat.Div0.mod_add. by apply Nat.mod_small.
  - rewrite Nat.add_comm, Nat.div_add by lia. rewrite Nat.div_small by done. lia.
Qed.

Lemma _generate_cell_inv rng k0 nx ny (x y : nat) self row k :
  (x < Z.to_nat nx)%nat ->
  gen_inv rng k0 nx ny (y * Z.to_nat nx + x) self k ->
  exists self' k',
    _generate_cell rng (Z.of_nat y) (self, row, k) (Z.of_nat x)
      = (self', row ++ [(y * Z.to_nat nx + x)%nat], k') /\
    _board self' = _board self /\
    gen_inv rng k0 nx ny (y * Z.to_nat nx + S x) self' k'.
Proof.
  intros Hx [Hnx Hny Hnb Hg Hc Hk Hp Hl Hi].
  assert (length (cells self) = (y * Z.to_nat nx + x)%nat) as Hlen
    by (by rewrite Hc, length_seeded).
  replace (y * Z.to_nat nx + S x)%nat with (S (y * Z.to_nat nx + x)) by lia.
  unfold _generate_cell, Cell.new, seed_cell, Cell.set_alive. simpl.
  rewrite Hlen.
  assert (forall c : Cell,
    <[(y * Z.to_nat nx + x)%nat := (Z.of_nat x, Z.of_nat y)]> (_cell_positions self) !! c =
      if decide (c < S (y * Z.to_nat nx + x))%nat then Some (pos_of (Z.to_nat nx) c) else None)
    as Hp'.
  { intros c. destruct (decide (c = y * Z.to_nat nx + x)%nat) as [->|Hne].
    - rewrite lookup_insert_eq, pos_of_cell by done.
      case_decide; [done|lia].
    - rewrite lookup_insert_ne by done. rewrite Hp.
      repeat case_decide; done || lia. }
  case_decide as Hdraw; simpl; eexists _, _; (split; [reflexivity|]); (split; [done|]).
  - split; simpl; try done.
    + rewrite <- Hlen at 1. rewrite insert_last, Hc, seeded_S. subst k.
      unfold state_of_draw. by rewrite decide_True.
    + lia.
    + rewrite <- Hlen at 1. rewrite insert_last, alive_refs_snoc. simpl.
      rewrite length_app. simpl. lia.
    + rewrite <- Hlen at 1 2. rewrite insert_last, alive_refs_snoc. simpl.
      rewrite map_app, Hi, Hlen. done.
  - split; simpl; try done.
    + rewrite Hc, seeded_S. subst k. unfold state_of_draw. by rewrite decide_False.
    + lia.
    + rewrite alive_refs_snoc. simpl. by rewrite app_nil_r.
    + rewrite alive_refs_snoc. simpl. by rewrite app_nil_r.
Qed.

Lemma _generate_row_inv rng k0 nx ny (y : nat) self k :
  gen_inv rng k0 nx ny (y * Z.to_nat nx) self k ->
  exists self' k',
    _generate_row rng (self, k) (Z.of_nat y) = (self', k') /\
    _board self' = _board self ++ [seq (y * Z.to_nat nx) (Z.to_nat nx)] /\
    gen_inv rng k0 nx ny (S y * Z.to_nat nx) self' k'.
Proof.
  intros Hinv. unfold _generate_row.
  rewrite (gen_x _ _ _ _ _ _ _ Hinv).
  pose (P := fun (x : nat) (acc : t * list Cell * nat) =>
               _board acc.1.1 = _board self /\
               acc.1.2 = seq (y * Z.to_nat nx) x /\
               gen_inv rng k0 nx ny (y * Z.to_nat nx + x) acc.1.1 acc.2).
  assert (P (Z.to_nat nx)
            (foldl (_generate_cell rng (Z.of_nat y)) (self, [], k) (range nx))) as HP.
  { apply foldl_range_inv.
    - unfold P. simpl. by rewrite Nat.add_0_r.
    - intros x [[s row] k1] Hx (Hb & Hrow & Hi). simpl in Hb, Hrow, Hi.
      destruct (_generate_cell_inv rng k0 nx ny x y s row k1 Hx Hi)
        as (s' & k' & -> & Hb' & Hi').
      unfold P. cbn [fst snd]. split; [congruence|]. split; [|done].
      rewrite seq_S. by rewrite Hrow. }
  destruct (foldl _ _ _) as [[s row] k1]. destruct HP as (Hb & Hrow & Hi).
  simpl in *. eexists _, _. split; [reflexivity|]. simpl. split.
  - by rewrite Hb, Hrow.
  - replace (Z.to_nat nx + y * Z.to_nat nx)%nat with (y * Z.to_nat nx + Z.to_nat nx)%nat
      by lia.
    destruct Hi. by split.
Qed.

Lemma grid_S (w h : nat) : grid w (S h) = grid w h ++ [seq (h * w) w].
Proof. unfold grid. by rewrite seq_S, map_app. Qed.

Lemma _generate_inv rng k nx ny :
  let self0 := mk nx ny [] ∅ ∅ 0 0 [] [] in
  exists self',
    _generate rng self0 k = (self', (k + Z.to_nat ny * Z.to_nat nx)%nat) /\
    _board self' = grid (Z.to_nat nx) (Z.to_nat ny) /\
    gen_inv rng k nx ny (Z.to_nat ny * Z.to_nat nx) self'
            (k + Z.to_nat ny * Z.to_nat nx)%nat.
Proof.
  intros self0. unfold _generate. simpl.
  pose (P := fun (y : nat) (acc : t * nat) =>
               _board acc.1 = grid (Z.to_nat nx) y /\
               gen_inv rng k nx ny (y * Z.to_nat nx) acc.1 acc.2).
  assert (P (Z.to_nat ny)
            (foldl (_generate_row rng) (with_initial_changes [] self0, k) (range ny)))
    as HP.
  { apply foldl_range_inv.
    - unfold P. simpl. split; [done|]. by split.
    - intros y [s k1] Hy (Hb & Hi). simpl in Hb, Hi.
      destruct (_generate_row_inv rng k nx ny y s k1 Hi) as (s' & k' & -> & Hb' & Hi').
      unfold P. cbn [fst snd]. split; [|done]. by rewrite Hb', Hb, grid_S. }
  destruct (foldl _ _ _) as [s k1]. destruct HP as (Hb & Hi). simpl in *.
  exists s. rewrite (gen_k _ _ _ _ _ _ _ Hi) at 1. split; [done|]. split; [done|].
  rewrite (gen_k _ _ _ _ _ _ _ Hi) in Hi. done.
Qed.

(** ** Indexing *)

Lemma list_getitem_out {A : Type} (l : list A) (i : Z) :
  ~ (- Z.of_nat (length l) <= i < Z.of_nat (length l)) ->
  list_getitem l i = Raise IndexError.
Proof.
  intros Hi. unfold list_getitem.
  destruct (Z.ltb_spec i 0);
    destruct (Z.ltb_spec (i + Z.of_nat (length l)) 0);
    destruct (Z.ltb_spec i 0);
    destruct (Z.leb_spec (Z.of_nat (length l)) (i + Z.of_nat (length l)));
    destruct (Z.leb_spec (Z.of_nat (length l)) i); simpl; try done; lia.
Qed.

Lemma list_getitem_in {A : Type} (l : list A) (i : Z) :
  - Z.of_nat (length l) <= i < Z.of_nat (length l) ->
  exists a, l !! Z.to_nat (i mod Z.of_nat (length l)) = Some a /\
            list_getitem l i = Ok a.
Proof.
  intros Hi. unfold list_getitem.
  set (n := Z.of_nat (length l)) in *.
  assert (i mod n = if i <? 0 then i + n else i) as Hm.
  { destruct (Z.ltb_spec i 0).
    - rewrite <- (Z.mod_small (i + n) n) by lia.
      rewrite <- (Z.mod_add i 1 n) by lia. f_equal. lia.
    - apply Z.mod_small. lia. }
  rewrite <- Hm.
  assert (0 <= i mod n < n) as Hr by (apply Z.mod_pos_bound; lia).
  destruct (Z.ltb_spec (i mod n) 0); [lia|].
  destruct (Z.leb_spec n (i mod n)); [lia|]. simpl.
  destruct (lookup_lt_is_Some_2 l (Z.to_nat (i mod n))) as [a Ha]; [lia|].
  exists a. by rewrite Ha.
Qed.

Lemma list_getitem_nonneg {A : Type} (l : list A) (i : Z) (a : A) :
  0 <= i -> l !! Z.to_nat i = Some a -> list_getitem l i = Ok a.
Proof.
  intros Hi Hl. apply lookup_lt_Some in Hl as Hlt.
  destruct (list_getitem_in l i) as (a' & Ha' & ->); [lia|].
  rewrite Z.mod_small in Ha' by lia. congruence.
Qed.

(** ** The neighbour map *)

Lemma in_grid_true (nx ny : Z) (p : Z * Z) :
  in_grid nx ny p = true <-> 0 <= p.1 < nx /\ 0 <= p.2 < ny.
Proof.
  unfold in_grid. rewrite andb_true_iff, !negb_true_iff, !orb_false_iff.
  rewrite !Z.geb_leb, !Z.ltb_ge, !Z.leb_gt. lia.
Qed.

Lemma cell_at_bound (nx ny : Z) (p : Z * Z) :
  in_grid nx ny p = true -> (cell_at (Z.to_nat nx) p < Z.to_nat nx * Z.to_nat ny)%nat.
Proof.
  rewrite in_grid_true. intros [Hx Hy]. unfold cell_at.
  assert (Z.to_nat p.1 < Z.to_nat nx)%nat by lia.
  assert (Z.to_nat p.2 < Z.to_nat ny)%nat by lia.
  nia.
Qed.

Lemma _find_neighbors_step_grid (b : t) (pos : Z * Z) (acc : list Cell) (d : Z * Z) :
  _board b = grid (width b) (height b) ->
  _find_neighbors_step b pos acc d =
    Done (acc ++ (if in_grid (_num_cells_x b) (_num_cells_y b)
                             (pos.1 + d.1, pos.2 + d.2)
                  then [cell_at (width b) (pos.1 + d.1, pos.2 + d.2)] else [])).
Proof.
  intros Hb. unfold _find_neighbors_step.
  destruct (in_grid _ _ _) eqn:Hin.
  - pose proof Hin as Hin'. unfold in_grid in Hin'. simpl in Hin'.
    apply andb_true_iff in Hin' as [H1 H2].
    apply negb_true_iff in H1, H2. rewrite H1, H2.
    apply in_grid_true in Hin. simpl in Hin. destruct Hin as [Hx Hy].
    rewrite Hb.
    rewrite (list_getitem_nonneg _ _ (seq (Z.to_nat (pos.2 + d.2) * width b) (width b)));
      [|lia|apply lookup_grid; unfold height; lia].
    simpl.
    rewrite (list_getitem_nonneg _ _ (cell_at (width b) (pos.1 + d.1, pos.2 + d.2)));
      [done|lia|].
    apply lookup_seq. unfold cell_at, width. simpl. lia.
  - unfold in_grid in Hin. simpl in Hin. rewrite app_nil_r.
    apply andb_false_iff in Hin as [H|H]; apply negb_false_iff in H; rewrite H; [done|].
    clear H. by destruct (orb _ _).
Qed.

Lemma _find_neighbors_loop (b : t) (pos : Z * Z) (acc : list Cell) (ds : list (Z * Z)) :
  _board b = grid (width b) (height b) ->
  for_each (_find_neighbors_step b pos) acc ds =
    Done (acc ++ map (cell_at (width b))
                     (filter (fun p => in_grid (_num_cells_x b) (_num_cells_y b) p = true)
                             (map (fun d : Z * Z => (pos.1 + d.1, pos.2 + d.2)) ds))).
Proof.
  intros Hb. revert acc. induction ds as [|d ds IH]; intros acc; simpl.
  - by rewrite app_nil_r.
  - rewrite _find_neighbors_step_grid by done. rewrite IH, filter_cons.
    destruct (in_grid _ _ _); simpl.
    + by rewrite <- app_assoc.
    + by rewrite app_nil_r.
Qed.

Lemma _find_neighbors_grid (b : t) (c : Cell) (pos : Z * Z) :
  _board b = grid (width b) (height b) ->
  _cell_positions b !! c = Some pos ->
  _find_neighbors b c =
    Ok (map (cell_at (width b))
            (neighbor_positions (_num_cells_x b) (_num_cells_y b) pos)).
Proof.
  intros Hb Hp. unfold _find_neighbors, dict_getitem. rewrite Hp. cbn [bind].
  by rewrite _find_neighbors_loop.
Qed.

(** Invariant rule for a loop that may raise, over the references [0 .. n-1]. *)
Lemma for_each_seq_inv {S : Type} (body : S -> nat -> outcome S) (P : nat -> S -> Prop)
  (s : S) (n : nat) :
  P 0%nat s ->
  (forall (i : nat) (s : S), (i < n)%nat -> P i s ->
     exists s', body s i = Done s' /\ P (Datatypes.S i) s') ->
  exists s', for_each body s (seq 0 n) = Done s' /\ P n s'.
Proof.
  intros H0 Hstep. induction n as [|m IH].
  - by exists s.
  - destruct IH as (s1 & Hs1 & HP1); [intros i s' Hi; apply Hstep; lia|].
    rewrite seq_S, for_each_app, Hs1. simpl.
    destruct (Hstep m s1) as (s2 & -> & HP2); [lia|done|]. by exists s2.
Qed.

Lemma _create_neighbor_map_shape (b : t) :
  _board b = grid (width b) (height b) ->
  (forall c : Cell, _cell_positions b !! c =
     if decide (c < width b * height b)%nat then Some (pos_of (width b) c) else None) ->
  _neighbors b = ∅ ->
  length (cells b) = (width b * height b)%nat ->
  exists b', _create_neighbor_map b = Done b' /\ shape b' /\
    b' = with_neighbors (_neighbors b') b.
Proof.
  intros Hb Hp Hn Hc. unfold _create_neighbor_map.
  rewrite for_each_concat, Hb, concat_grid.
  pose (P := fun (i : nat) (s : t) =>
    s = with_neighbors (_neighbors s) b /\
    forall c : Cell, _neighbors s !! c =
      if decide (c < i)%nat
      then Some (map (cell_at (width b))
                     (neighbor_positions (_num_cells_x b) (_num_cells_y b)
                                         (pos_of (width b) c)))
      else None).
  destruct (for_each_seq_inv _create_neighbor_map_cell P b (width b * height b))
    as (b' & Hb' & Heq & Hnb).
  - split; [by destruct b|]. intros c. rewrite Hn. apply lookup_empty.
  - intros i s Hi [Heq Hnb]. unfold _create_neighbor_map_cell.
    rewrite (_find_neighbors_grid s i (pos_of (width b) i)).
    + eexists. split; [reflexivity|]. split.
      * rewrite Heq. done.
      * intros c. simpl. destruct (decide (c = i)) as [->|Hne].
        -- rewrite lookup_insert_eq, decide_True by lia.
           rewrite Heq. done.
        -- rewrite lookup_insert_ne, Hnb by done.
           repeat case_decide; done || lia.
    + rewrite Heq. apply Hb.
    + rewrite Heq. simpl. rewrite Hp. by rewrite decide_True.
  - exists b'. split; [done|]. split; [|done].
    rewrite Heq. split; simpl; try done.
Qed.

(** ** Construction *)

Lemma __init___spec (rng : nat -> Z) (config : GameConfig.t) (k : nat) :
  exists b,
    __init__ rng config k =
      Ok (b, (k + Z.to_nat (GameConfig.get_num_cells_x config)
                  * Z.to_nat (GameConfig.get_num_cells_y config))%nat) /\
    _num_cells_x b = GameConfig.get_num_cells_x config /\
    _num_cells_y b = GameConfig.get_num_cells_y config /\
    shape b /\ seeded_board rng k b.
Proof.
  unfold __init__.
  set (nx := GameConfig.get_num_cells_x config).
  set (ny := GameConfig.get_num_cells_y config).
  destruct (_generate_inv rng k nx ny) as (s & Hgen & Hboard & Hinv).
  rewrite Hgen. destruct Hinv as [Hx Hy Hnb Hg Hc Hk Hp Hl Hi].
  destruct (_create_neighbor_map_shape s) as (b & Hmap & Hshape & Heq).
  - unfold width, height. by rewrite Hx, Hy.
  - intros c. unfold width, height. rewrite Hx, Hy, Hp, (Nat.mul_comm (Z.to_nat ny)). done.
  - done.
  - unfold width, height. rewrite Hx, Hy, Hc, length_seeded. lia.
  - rewrite Hmap. exists b. rewrite (Nat.mul_comm (Z.to_nat nx)).
    split; [done|]. rewrite Heq. simpl. split; [done|]. split; [done|].
    split; [by rewrite <- Heq|].
    split; simpl; try done.
    unfold width, height. simpl. rewrite Hx, Hy, Hc, (Nat.mul_comm (Z.to_nat ny)). done.
Qed.

(** ** The frame of a board: what no operation after construction changes *)

Lemma same_frame_refl (b : t) : same_frame b b.
Proof. by split. Qed.

Lemma same_frame_trans (b1 b2 b3 : t) :
  same_frame b1 b2 -> same_frame b2 b3 -> same_frame b1 b3.
Proof. intros [] []. split; congruence. Qed.

Lemma same_frame_shape (b b' : t) : same_frame b b' -> shape b -> shape b'.
Proof.
  intros [Hx Hy Hb Hp Hn Hc] [Sb Sp Sn Sc].
  split; unfold width, height in *; rewrite ?Hx, ?Hy, ?Hb, ?Hp, ?Hn, ?Hc; done.
Qed.

(** Two boards of one shape and size differ at most in states and counters. *)
Lemma shape_frame (b b' : t) :
  shape b -> shape b' ->
  _num_cells_x b' = _num_cells_x b -> _num_cells_y b' = _num_cells_y b ->
  same_frame b b'.
Proof.
  intros [Sb Sp Sn Sc] [Sb' Sp' Sn' Sc'] Hx Hy.
  unfold width, height in *. rewrite Hx, Hy in *.
  split; try done.
  - congruence.
  - apply map_eq. intros c. by rewrite Sp, Sp'.
  - apply map_eq. intros c. by rewrite Sn, Sn'.
  - congruence.
Qed.

Lemma board_eq (b b' : t) :
  same_frame b b' -> _generation b' = _generation b -> _live_count b' = _live_count b ->
  _initial_changes b' = _initial_changes b -> cells b' = cells b -> b' = b.
Proof.
  destruct b, b'. intros [Hx Hy Hb Hp Hn Hc]. simpl in *. congruence.
Qed.

(** ** Writing states into the store *)

Lemma length_write_all s l st : length (write_all s l st) = length st.
Proof.
  unfold write_all. revert st. induction l as [|c l IH]; intros st; simpl; [done|].
  by rewrite IH, length_insert.
Qed.

Lemma lookup_write_all s l st (c : Cell) :
  write_all s l st !! c =
    if decide (c ∈ l /\ (c < length st)%nat) then Some s else st !! c.
Proof.
  unfold write_all. revert st. induction l as [|a l IH]; intros st; simpl.
  - done.
  - rewrite IH, length_insert.
    destruct (decide (c ∈ l /\ (c < length st)%nat)) as [[Hin Hlt]|Hn].
    { rewrite decide_True; [done|]. split; [by right|done]. }
    destruct (decide (c = a)) as [->|Hne].
    + destruct (decide (a < length st)%nat) as [Hlt|Hge].
      * rewrite list_lookup_insert_eq by done.
        rewrite decide_True; [done|]. split; [by left|done].
      * rewrite list_insert_ge by lia.
        rewrite decide_False; [done|]. intros [_ ?]. lia.
    + rewrite list_lookup_insert_ne by done.
      rewrite decide_False; [done|]. intros [Hin ?].
      apply elem_of_cons in Hin as [?|?]; [done|]. by apply Hn.
Qed.

Lemma foldl_set_alive (b : t) (l : list Cell) :
  foldl (fun self cell => with_cells (Cell.set_alive cell (cells self)) self) b l =
    with_cells (write_all alive l (cells b)) b.
Proof.
  unfold write_all. revert b. induction l as [|c l IH]; intros b; simpl.
  - by destruct b.
  - by rewrite IH.
Qed.

Lemma foldl_set_dead (b : t) (l : list Cell) :
  foldl (fun self cell => with_cells (Cell.set_dead cell (cells self)) self) b l =
    with_cells (write_all dead l (cells b)) b.
Proof.
  unfold write_all. revert b. induction l as [|c l IH]; intros b; simpl.
  - by destruct b.
  - by rewrite IH.
Qed.

(** ** The scan of [update] *)

Lemma spawned_app ch1 ch2 : spawned (ch1 ++ ch2) = spawned ch1 ++ spawned ch2.
Proof. unfold spawned. by rewrite filter_app, fmap_app. Qed.

Lemma died_app ch1 ch2 : died (ch1 ++ ch2) = died ch1 ++ died ch2.
Proof. unfold died. by rewrite filter_app, fmap_app. Qed.

Lemma live_after_app live ch1 ch2 :
  live_after (live_after live ch1) ch2 = live_after live (ch1 ++ ch2).
Proof. unfold live_after. rewrite spawned_app, died_app, !length_app. lia. Qed.

Lemma advance_nil st : advance st [] = st.
Proof.
  destruct st as [b sp dy da]. unfold advance, live_after. simpl.
  rewrite !app_nil_r. f_equal. destruct b. unfold with_live_count. simpl. f_equal. lia.
Qed.

Lemma advance_app st ch1 ch2 : advance (advance st ch1) ch2 = advance st (ch1 ++ ch2).
Proof.
  unfold advance. simpl. rewrite live_after_app, spawned_app, died_app, !app_assoc.
  done.
Qed.

Lemma changes_cons rules b c cs :
  changes rules b (c :: cs) = changes rules b [c] ++ changes rules b cs.
Proof. unfold changes. simpl. by rewrite app_nil_r. Qed.

Lemma changes_app rules b cs1 cs2 :
  changes rules b (cs1 ++ cs2) = changes rules b cs1 ++ changes rules b cs2.
Proof. unfold changes. apply bind_app. Qed.

Lemma update_cell_spec rules st c :
  update_cell rules st c =
    match transition rules (us_self st) c with
    | Raise e => Raised e st
    | Ok _ => Done (advance st (changes rules (us_self st) [c]))
    end.
Proof.
  unfold update_cell, transition, changes. simpl.
  unfold transition.
  destruct (_get_num_live_neighbors _ _) as [n|e]; simpl; [|done].
  destruct (Cell.get_state _ _) as [cur|e]; simpl; [|done].
  destruct (GameRules.get_next_state _ _ _) as [next|e]; simpl; [|done].
  case_decide as Hne; simpl.
  - unfold advance, live_after, spawned, died. simpl.
    rewrite !filter_cons, !filter_nil. simpl.
    case_decide as Hal; simpl; repeat (case_decide; try tauto); simpl;
      rewrite ?app_nil_r; do 3 f_equal; lia.
  - by rewrite advance_nil.
Qed.

Lemma transition_advance rules st ch c :
  transition rules (us_self (advance st ch)) c = transition rules (us_self st) c.
Proof. reflexivity. Qed.

Lemma changes_advance rules st ch cs :
  changes rules (us_self (advance st ch)) cs = changes rules (us_self st) cs.
Proof. reflexivity. Qed.

Lemma scan_spec rules cs : forall st,
  (for_each (update_cell rules) st cs = Done (advance st (changes rules (us_self st) cs)) /\
   forall c, c ∈ cs -> exists tr, transition rules (us_self st) c = Ok tr)
  \/
  (exists e pre c post,
     cs = pre ++ c :: post /\
     (forall c', c' ∈ pre -> exists tr, transition rules (us_self st) c' = Ok tr) /\
     transition rules (us_self st) c = Raise e /\
     for_each (update_cell rules) st cs =
       Raised e (advance st (changes rules (us_self st) pre))).
Proof.
  induction cs as [|c cs IH]; intros st.
  - left. simpl. rewrite advance_nil. split; [done|]. intros c Hc. by apply elem_of_nil in Hc.
  - cbn [for_each]. rewrite update_cell_spec.
    destruct (transition rules (us_self st) c) as [tr|e] eqn:Htr.
    + destruct (IH (advance st (changes rules (us_self st) [c])))
        as [[Hdone Hall]|(e & pre & c' & post & -> & Hpre & Hc' & Hraised)].
      * left. split.
        -- rewrite Hdone, advance_app, changes_advance, (changes_cons _ _ c cs). done.
        -- intros c' Hc'. apply elem_of_cons in Hc' as [->|Hc']; [by exists tr|].
           by apply Hall.
      * right. exists e, (c :: pre), c', post. split; [done|]. split; [|split; [done|]].
        -- intros c'' Hc''. apply elem_of_cons in Hc'' as [->|Hc'']; [by exists tr|].
           by apply Hpre.
        -- rewrite Hraised, advance_app, changes_advance, (changes_cons _ _ c pre). done.
    + right. exists e, [], c, cs. simpl. rewrite advance_nil.
      split; [done|]. split; [|done]. intros c' Hc'. by apply elem_of_nil in Hc'.
Qed.

(** [update], in one equation for each way it ends. *)
Lemma update_spec rules b :
  let b1 := with_generation (_generation b + 1) b in
  let cs := concat (_board b) in
  ((forall c, c ∈ cs -> exists tr, transition rules b c = Ok tr) /\
   let ch := changes rules b cs in
   update rules b =
     (Ok ch,
      with_cells (write_all dead (died ch) (write_all alive (spawned ch) (cells b)))
                 (with_live_count (live_after (_live_count b) ch) b1)))
  \/
  (exists e pre c post,
     cs = pre ++ c :: post /\
     (forall c', c' ∈ pre -> exists tr, transition rules b c' = Ok tr) /\
     transition rules b c = Raise e /\
     update rules b =
       (Raise e, with_live_count (live_after (_live_count b) (changes rules b pre)) b1)).
Proof.
  intros b1 cs. unfold update. fold b1. rewrite for_each_concat.
  change (_board b1) with (_board b). fold cs.
  destruct (scan_spec rules cs (mk_update_state b1 [] [] []))
    as [[Hdone Hall]|(e & pre & c & post & Hcs & Hpre & Hc & Hraised)].
  - left. split; [exact Hall|]. rewrite Hdone. simpl.
    rewrite foldl_set_alive, foldl_set_dead. done.
  - right. exists e, pre, c, post. split; [done|]. split; [exact Hpre|].
    split; [exact Hc|]. rewrite Hraised. done.
Qed.

(** ** Every operation keeps the frame *)

Lemma update_frame rules b : same_frame b (update rules b).2.
Proof.
  destruct (update_spec rules b) as [[_ ->]|(e & pre & c & post & _ & _ & _ & ->)].
  - split; simpl; try done. by rewrite !length_write_all.
  - by split.
Qed.

Lemma toggle_cell_frame b x y : same_frame b (toggle_cell b x y).2.
Proof.
  unfold toggle_cell. destruct (get_cell b x y) as [c|e]; [|apply same_frame_refl].
  unfold Cell.toggle_state, Cell.get_state.
  destruct (cells b !! c) as [s|]; simpl; [|apply same_frame_refl].
  case_decide; simpl; split; simpl; try done; by rewrite length_insert.
Qed.

Lemma clear_spec b :
  clear b = with_cells (write_all dead (concat (_board b)) (cells b)) b.
Proof.
  unfold clear. rewrite foldl_concat. apply foldl_set_dead.
Qed.

Lemma clear_frame b : same_frame b (clear b).
Proof. rewrite clear_spec. split; simpl; try done. by rewrite length_write_all. Qed.

Lemma seed_cell_frame rng c b k : same_frame b (seed_cell rng c b k).1.
Proof.
  unfold seed_cell. case_decide; simpl; [|apply same_frame_refl].
  split; simpl; try done. unfold Cell.set_alive. by rewrite length_insert.
Qed.

Lemma reset_frame rng b k : same_frame b (reset rng b k).1.
Proof.
  unfold reset. rewrite foldl_concat.
  change (_board (with_initial_changes [] (with_live_count 0 (clear (with_generation 0 b)))))
    with (_board (clear (with_generation 0 b))).
  generalize (concat (_board (clear (with_generation 0 b)))). intros l.
  assert (same_frame b (with_initial_changes [] (with_live_count 0
            (clear (with_generation 0 b))), k).1) as H0.
  { destruct (clear_frame (with_generation 0 b)). by split. }
  revert H0. generalize (with_initial_changes [] (with_live_count 0
            (clear (with_generation 0 b))), k). 
  induction l as [|c l IH]; intros acc Hacc; simpl; [done|].
  apply IH. eapply same_frame_trans; [exact Hacc|]. apply seed_cell_frame.
Qed.

Lemma change_size_spec rng config k :
  exists b k1,
    __init__ rng config k = Ok (b, k1) /\
    GameBoardGUI.change_size rng config k = Ok (reset rng b k1).
Proof.
  destruct (__init___spec rng config k) as (b & Hb & _).
  unfold GameBoardGUI.change_size. rewrite Hb. simpl. by eexists _, _.
Qed.

(** Every reachable board has the shape its dimensions give. *)
Lemma reachable_shape b : reachable b -> shape b.
Proof.
  induction 1 as [rng config k b k' Hinit|rng config k b k' Hsize|rules b _ IH
                 |b x y _ IH|b _ IH|rng b k _ IH].
  - destruct (__init___spec rng config k) as (b0 & Hb0 & _ & _ & Hshape & _).
    congruence.
  - destruct (change_size_spec rng config k) as (b0 & k0 & Hb0 & Hcs).
    destruct (__init___spec rng config k) as (b1 & Hb1 & _ & _ & Hshape & _).
    assert (b1 = b0) as -> by congruence.
    rewrite Hcs in Hsize. injection Hsize as Hr.
    pose proof (reset_frame rng b0 k0) as Hf. rewrite Hr in Hf. 
    by apply (same_frame_shape b0).
  - apply (same_frame_shape b); [apply update_frame|done].
  - apply (same_frame_shape b); [apply toggle_cell_frame|done].
  - apply (same_frame_shape b); [apply clear_frame|done].
  - apply (same_frame_shape b); [apply reset_frame|done].
Qed.

(** ** Reseeding *)

Lemma write_all_seq (s : CellState) (st : list CellState) :
  write_all s (seq 0 (length st)) st = replicate (length st) s.
Proof.
  apply list_eq. intros i. rewrite lookup_write_all.
  destruct (decide (i < length st)%nat) as [Hi|Hi].
  - rewrite decide_True by (split; [apply elem_of_seq; lia|done]).
    by rewrite lookup_replicate_2.
  - rewrite decide_False by tauto.
    rewrite lookup_ge_None_2 by lia. symmetry. apply lookup_replicate_None. lia.
Qed.

Lemma reset_spec rng b k :
  shape b ->
  exists b',
    reset rng b k = (b', (k + width b * height b)%nat) /\
    same_frame b b' /\ seeded_board rng k b'.
Proof.
  intros Hs. pose proof (reset_frame rng b k) as Hf.
  unfold reset in *. rewrite foldl_concat in *.
  set (b0 := with_initial_changes [] (with_live_count 0 (clear (with_generation 0 b)))) in *.
  assert (_board b0 = grid (width b) (height b)) as Hb0.
  { unfold b0. simpl. rewrite clear_spec. simpl. apply Hs. }
  rewrite Hb0, concat_grid in *.
  set (n := (width b * height b)%nat) in *.
  assert (cells b0 = replicate n dead) as Hc0.
  { unfold b0. simpl. rewrite clear_spec. simpl. rewrite (shape_board _ Hs), concat_grid.
    unfold n. rewrite <- (shape_cells _ Hs). apply write_all_seq. }
  pose (P := fun (i : nat) (acc : t * nat) =>
    _generation acc.1 = 0 /\ acc.2 = (k + i)%nat /\
    cells acc.1 = seeded rng k i ++ replicate (n - i) dead /\
    _live_count acc.1 = Z.of_nat (length (alive_refs (seeded rng k i))) /\
    _initial_changes acc.1 = map (fun c => (c, alive)) (alive_refs (seeded rng k i))).
  assert (P n (foldl (fun acc cell => seed_cell rng cell acc.1 acc.2) (b0, k) (seq 0 n)))
    as HP.
  { apply foldl_seq_inv.
    - unfold P. cbn [fst snd]. rewrite Nat.sub_0_r, Nat.add_0_r, Hc0.
      split; [|done]. unfold b0. simpl. by rewrite clear_spec.
    - intros i [s k1] Hi (Hg & Hk & Hc & Hl & Hic). simpl in Hg, Hk, Hc, Hl, Hic.
      unfold P. rewrite seeded_S, alive_refs_snoc, length_seeded.
      replace (n - i)%nat with (S (n - S i)) in Hc by lia. simpl in Hc.
      unfold seed_cell, state_of_draw. cbn [fst snd]. subst k1.
      case_decide as Hdraw; cbn [fst snd].
      + simpl. split; [done|]. split; [lia|]. split; [|split].
        * unfold Cell.set_alive. rewrite Hc.
          rewrite <- (length_seeded rng k i) at 1.
          rewrite insert_app_r_alt, Nat.sub_diag by lia. simpl.
          by rewrite <- app_assoc.
        * rewrite Hl, length_app. simpl. lia.
        * by rewrite Hic, map_app.
      + simpl. rewrite !app_nil_r. split; [done|]. split; [lia|]. split; [|done].
        rewrite Hc. by rewrite <- app_assoc. }
  destruct (foldl _ _ _) as [b' k']. destruct HP as (Hg & Hk & Hc & Hl & Hic).
  simpl in *. rewrite Nat.sub_diag, app_nil_r in Hc.
  exists b'. subst k'. split; [done|]. split; [done|].
  destruct Hf as [Hx Hy _ _ _ _].
  split; try done.
  - unfold width, height. rewrite Hx, Hy. exact Hc.
  - by rewrite Hc.
  - by rewrite Hc.
Qed.

(** ** Cell lookup and toggling *)

Lemma board_of_init rng nx ny :
  __init__ rng (config_of nx ny) 0 =
    Ok (board_of rng nx ny, (Z.to_nat nx * Z.to_nat ny)%nat).
Proof.
  unfold board_of. destruct (__init___spec rng (config_of nx ny) 0) as (b & -> & _).
  done.
Qed.

Lemma reachable_board_of rng nx ny : reachable (board_of rng nx ny).
Proof. eapply reach_init. apply board_of_init. Qed.

Lemma get_cell_in b (x y : Z) :
  shape b ->
  - Z.of_nat (width b) <= x < Z.of_nat (width b) ->
  - Z.of_nat (height b) <= y < Z.of_nat (height b) ->
  get_cell b x y =
    Ok (cell_at (width b) (x mod Z.of_nat (width b), y mod Z.of_nat (height b))).
Proof.
  intros Hs Hx Hy. unfold get_cell. rewrite (shape_board _ Hs).
  destruct (list_getitem_in (grid (width b) (height b)) y) as (row & Hrow & ->).
  { by rewrite length_grid. }
  rewrite length_grid in Hrow. simpl.
  assert (0 <= y mod Z.of_nat (height b) < Z.of_nat (height b)) as Hym
    by (apply Z.mod_pos_bound; lia).
  rewrite lookup_grid in Hrow by lia. injection Hrow as <-.
  destruct (list_getitem_in (seq (Z.to_nat (y mod Z.of_nat (height b)) * width b) (width b)) x)
    as (c & Hc & ->).
  { by rewrite length_seq. }
  rewrite length_seq in Hc.
  assert (0 <= x mod Z.of_nat (width b) < Z.of_nat (width b)) as Hxm
    by (apply Z.mod_pos_bound; lia).
  rewrite lookup_seq_lt in Hc by lia. injection Hc as <-. done.
Qed.

Lemma get_cell_out b (x y : Z) :
  shape b ->
  ~ (- Z.of_nat (width b) <= x < Z.of_nat (width b) /\
     - Z.of_nat (height b) <= y < Z.of_nat (height b)) ->
  get_cell b x y = Raise IndexError.
Proof.
  intros Hs Hxy. unfold get_cell. rewrite (shape_board _ Hs).
  destruct (decide (- Z.of_nat (height b) <= y < Z.of_nat (height b))) as [Hy|Hy].
  - destruct (list_getitem_in (grid (width b) (height b)) y) as (row & Hrow & ->).
    { by rewrite length_grid. }
    rewrite length_grid in Hrow. simpl.
    assert (0 <= y mod Z.of_nat (height b) < Z.of_nat (height b)) as Hym
      by (apply Z.mod_pos_bound; lia).
    rewrite lookup_grid in Hrow by lia. injection Hrow as <-.
    apply list_getitem_out. rewrite length_seq. tauto.
  - rewrite list_getitem_out; [done|]. by rewrite length_grid.
Qed.

Lemma cell_at_in_store b (x y : Z) :
  shape b ->
  0 <= x < Z.of_nat (width b) -> 0 <= y < Z.of_nat (height b) ->
  (cell_at (width b) (x, y) < length (cells b))%nat /\
  pos_of (width b) (cell_at (width b) (x, y)) = (x, y).
Proof.
  intros Hs Hx Hy. rewrite (shape_cells _ Hs). unfold cell_at. simpl. split.
  - assert (Z.to_nat x < width b)%nat by lia.
    assert (Z.to_nat y < height b)%nat by lia. nia.
  - rewrite pos_of_cell by lia. f_equal; lia.
Qed.

Lemma toggle_cell_in b (x y : Z) :
  shape b ->
  - Z.of_nat (width b) <= x < Z.of_nat (width b) ->
  - Z.of_nat (height b) <= y < Z.of_nat (height b) ->
  let c := cell_at (width b) (x mod Z.of_nat (width b), y mod Z.of_nat (height b)) in
  exists s, cells b !! c = Some s /\
    get_coord b c = Ok (x mod Z.of_nat (width b), y mod Z.of_nat (height b)) /\
    toggle_cell b x y =
      (Ok [(c, flip s)], with_cells (<[c := flip s]> (cells b)) b).
Proof.
  intros Hs Hx Hy c.
  assert (0 <= x mod Z.of_nat (width b) < Z.of_nat (width b)) as Hxm
    by (apply Z.mod_pos_bound; lia).
  assert (0 <= y mod Z.of_nat (height b) < Z.of_nat (height b)) as Hym
    by (apply Z.mod_pos_bound; lia).
  destruct (cell_at_in_store b _ _ Hs Hxm Hym) as [Hlt Hpos]. fold c in Hlt, Hpos.
  destruct (lookup_lt_is_Some_2 (cells b) c Hlt) as [s Hsome].
  exists s. split; [done|]. split.
  - unfold get_coord, dict_getitem. rewrite (shape_positions _ Hs).
    rewrite decide_True by (rewrite <- (shape_cells _ Hs); done). by rewrite Hpos.
  - unfold toggle_cell. rewrite get_cell_in by done. fold c.
    unfold Cell.toggle_state, Cell.get_state. rewrite Hsome. simpl.
    by destruct s.
Qed.

(** ** Clearing *)

Lemma clear_facts b :
  reachable b ->
  cells (clear b) = replicate (width b * height b) dead /\
  _generation (clear b) = _generation b /\
  _live_count (clear b) = _live_count b /\
  same_frame b (clear b).
Proof.
  intros Hr. apply reachable_shape in Hr as Hs. split; [|split; [|split]].
  - rewrite clear_spec. simpl. rewrite (shape_board _ Hs), concat_grid.
    rewrite <- (shape_cells _ Hs). apply write_all_seq.
  - by rewrite clear_spec.
  - by rewrite clear_spec.
  - apply clear_frame.
Qed.

(** ** Validation of the configuration form *)

(** The configuration form clamps an entry below 1 to 1 before the board is
    rebuilt: a validated dimension is positive whenever the one it replaces
    is. *)
Lemma _validate_num_cells_positive (axis_x : bool) (input : option Z)
  (config : GameConfig.t) (flag : bool) :
  1 <= GameConfig.get_num_cells_x config ->
  1 <= GameConfig.get_num_cells_y config ->
  let config' := (GameConfigGUI._validate_num_cells axis_x input (config, flag)).1 in
  1 <= GameConfig.get_num_cells_x config' /\ 1 <= GameConfig.get_num_cells_y config'.
Proof.
  intros Hx Hy. unfold GameConfigGUI._validate_num_cells.
  unfold GameConfig.get_num_cells_x, GameConfig.get_num_cells_y in *.
  destruct input as [v|]; [|done].
  destruct axis_x; repeat case_decide; simpl; lia.
Qed.

(** ** Counting neighbours *)

Lemma _DIRECTIONS_eq :
  _DIRECTIONS = [(-1, -1); (-1, 0); (-1, 1); (0, -1); (0, 1); (1, -1); (1, 0); (1, 1)].
Proof. reflexivity. Qed.

Lemma NoDup_DIRECTIONS : NoDup _DIRECTIONS.
Proof. by apply (bool_decide_unpack _). Qed.

Ltac settle_in_grid :=
  repeat match goal with
  | |- context [decide (in_grid ?nx ?ny ?p = true)] =>
      first [ rewrite (decide_True (P := in_grid nx ny p = true))
                by (apply in_grid_true; simpl; lia)
            | rewrite (decide_False (P := in_grid nx ny p = true))
                by (rewrite in_grid_true; simpl; lia) ]
  end.

Lemma neighbor_positions_length (nx ny x y : Z) :
  2 <= nx -> 2 <= ny -> 0 <= x < nx -> 0 <= y < ny ->
  length (neighbor_positions nx ny (x, y)) =
    if decide ((x = 0 \/ x = nx - 1) /\ (y = 0 \/ y = ny - 1)) then 3%nat
    else if decide (x = 0 \/ x = nx - 1 \/ y = 0 \/ y = ny - 1) then 5%nat
    else 8%nat.
Proof.
  intros Hnx Hny Hx Hy. unfold neighbor_positions. rewrite _DIRECTIONS_eq.
  cbn [map fst snd]. rewrite !filter_cons, filter_nil.
  destruct (decide (x = 0)); destruct (decide (x = nx - 1));
    destruct (decide (y = 0)); destruct (decide (y = ny - 1));
    try lia; settle_in_grid; cbn [length];
    repeat case_decide; lia || tauto.
Qed.

Lemma elem_of_neighbor_positions (nx ny : Z) (pos p : Z * Z) :
  p ∈ neighbor_positions nx ny pos <->
    (exists d : Z * Z, d ∈ _DIRECTIONS /\ p = (pos.1 + d.1, pos.2 + d.2)) /\
    0 <= p.1 < nx /\ 0 <= p.2 < ny.
Proof.
  unfold neighbor_positions. rewrite list_elem_of_filter, in_grid_true.
  rewrite (list_elem_of_fmap (A := Z * Z)). 
  split.
  - intros [Hin (d & -> & Hd)]. split; [by exists d|done].
  - intros [(d & Hd & ->) Hin]. split; [done|]. by exists d.
Qed.

Lemma NoDup_neighbor_positions (nx ny : Z) (pos : Z * Z) :
  NoDup (neighbor_positions nx ny pos).
Proof.
  unfold neighbor_positions. apply NoDup_filter.
  apply (NoDup_fmap_2 (A := Z * Z)); [|apply NoDup_DIRECTIONS].
  intros [a1 a2] [b1 b2] Heq. simpl in Heq. injection Heq as H1 H2. f_equal; lia.
Qed.

Lemma get_coord_cell_at b (p : Z * Z) :
  shape b -> in_grid (_num_cells_x b) (_num_cells_y b) p = true ->
  get_coord b (cell_at (width b) p) = Ok p.
Proof.
  intros Hs Hin. pose proof (cell_at_bound _ _ _ Hin) as Hlt.
  apply in_grid_true in Hin as [Hx Hy].
  unfold get_coord, dict_getitem. rewrite (shape_positions _ Hs).
  rewrite decide_True by exact Hlt. unfold cell_at.
  rewrite pos_of_cell by (unfold width; lia). destruct p; simpl in *. do 2 f_equal; lia.
Qed.

(** ** What [update] reads and writes, cell by cell *)

Lemma transition_inv rules b c cur next :
  transition rules b c = Ok (cur, next) ->
  exists n, _get_num_live_neighbors b c = Ok n /\
            Cell.get_state c (cells b) = Ok cur /\
            GameRules.get_next_state rules cur n = Ok next.
Proof.
  unfold transition.
  destruct (_get_num_live_neighbors b c) as [n|e]; simpl; [|done].
  destruct (Cell.get_state c (cells b)) as [cur'|e]; simpl; [|done].
  destruct (GameRules.get_next_state rules cur' n) as [next'|e] eqn:Hnext; simpl; [|done].
  intros [= -> ->]. by exists n.
Qed.

Lemma elem_of_changes rules b cs (c : Cell) (s : CellState) :
  (c, s) ∈ changes rules b cs <->
    c ∈ cs /\ exists cur, transition rules b c = Ok (cur, s) /\ s <> cur.
Proof.
  unfold changes. rewrite list_elem_of_bind. split.
  - intros (c' & Hin & Hc'). destruct (transition rules b c') as [[cur next]|e] eqn:Htr.
    + case_decide as Hne; [|by apply elem_of_nil in Hin].
      apply list_elem_of_singleton in Hin as [= -> ->]. split; [done|]. by exists cur.
    + by apply elem_of_nil in Hin.
  - intros (Hc & cur & Htr & Hne). exists c. split; [|done].
    rewrite Htr, decide_True by done. apply list_elem_of_singleton. done.
Qed.

Lemma elem_of_spawned ch (c : Cell) : c ∈ spawned ch <-> (c, alive) ∈ ch.
Proof.
  unfold spawned. rewrite list_elem_of_fmap. split.
  - intros ([c' s] & -> & Hin). apply list_elem_of_filter in Hin as [Hs Hin].
    simpl in *. by subst.
  - intros Hin. exists (c, alive). split; [done|]. by apply list_elem_of_filter.
Qed.

Lemma elem_of_died ch (c : Cell) : c ∈ died ch <-> (c, dead) ∈ ch.
Proof.
  unfold died. rewrite list_elem_of_fmap. split.
  - intros ([c' s] & -> & Hin). apply list_elem_of_filter in Hin as [Hs Hin].
    simpl in *. by destruct s.
  - intros Hin. exists (c, dead). split; [done|]. by apply list_elem_of_filter.
Qed.

Lemma update_ok rules b deltas b' :
  update rules b = (Ok deltas, b') ->
  deltas = changes rules b (concat (_board b)) /\
  _generation b' = _generation b + 1 /\
  _live_count b' = live_after (_live_count b) deltas /\
  _initial_changes b' = _initial_changes b /\
  same_frame b b' /\
  forall c : Cell, c ∈ concat (_board b) ->
    exists n cur next,
      _get_num_live_neighbors b c = Ok n /\
      Cell.get_state c (cells b) = Ok cur /\
      GameRules.get_next_state rules cur n = Ok next /\
      Cell.get_state c (cells b') = Ok next /\
      ((c, next) ∈ deltas <-> next <> cur).
Proof.
  intros Hup. pose proof (update_frame rules b) as Hf. rewrite Hup in Hf.
  destruct (update_spec rules b) as [[Hall Heq]|(e & pre & c & post & _ & _ & _ & Heq)];
    rewrite Heq in Hup; [|done].
  injection Hup as <- <-. simpl.
  repeat (split; [done|]).
  intros c Hc. destruct (Hall c Hc) as [[cur next] Htr].
  destruct (transition_inv _ _ _ _ _ Htr) as (n & Hn & Hcur & Hnext).
  exists n, cur, next. repeat (split; [done|]).
  set (ch := changes rules b (concat (_board b))).
  assert (forall s, (c, s) ∈ ch <-> s = next /\ next <> cur) as Hch.
  { intros s. unfold ch. rewrite elem_of_changes. split.
    - intros (_ & cur' & Htr' & Hne). rewrite Htr in Htr'. injection Htr' as <- <-. done.
    - intros [-> Hne]. split; [done|]. by exists cur. }
  split; [|rewrite Hch; tauto].
  unfold Cell.get_state in *.
  destruct (cells b !! c) as [s|] eqn:Hsome; [|done]. injection Hcur as ->.
  apply lookup_lt_Some in Hsome as Hlt.
  rewrite !lookup_write_all, length_write_all, Hsome.
  pose proof (elem_of_died ch c) as Hd. pose proof (elem_of_spawned ch c) as Hsp.
  pose proof (Hch dead) as Hcd. pose proof (Hch alive) as Hca.
  destruct cur, next; repeat case_decide; try done; exfalso; intuition congruence.
Qed.

Lemma update_raise rules b e b' :
  update rules b = (Raise e, b') ->
  cells b' = cells b /\
  _generation b' = _generation b + 1 /\
  _initial_changes b' = _initial_changes b /\
  same_frame b b' /\
  exists pre c post,
    concat (_board b) = pre ++ c :: post /\
    transition rules b c = Raise e /\
    _live_count b' = live_after (_live_count b) (changes rules b pre).
Proof.
  intros Hup. pose proof (update_frame rules b) as Hf. rewrite Hup in Hf.
  destruct (update_spec rules b) as [[Hall Heq]|(e' & pre & c & post & Hcs & _ & Hc & Heq)];
    rewrite Heq in Hup; [done|].
  injection Hup as <- <-. simpl. repeat (split; [done|]).
  by exists pre, c, post.
Qed.

(** ** Reads on a reachable board *)

Lemma live_neighbors_ok (st : list CellState) (ns : list Cell) :
  (forall n, n ∈ ns -> (n < length st)%nat) ->
  live_neighbors st ns = Ok (filter (fun n => st !! n = Some alive) ns).
Proof.
  induction ns as [|n ns IH]; intros Hns; simpl; [done|].
  destruct (lookup_lt_is_Some_2 st n) as [s Hs]; [apply Hns; left|].
  unfold Cell.get_state. rewrite Hs. simpl.
  rewrite IH by (intros m Hm; apply Hns; by right). simpl.
  rewrite filter_cons. destruct s; repeat case_decide; congruence.
Qed.

Lemma shape_reads b (c : Cell) :
  shape b -> c ∈ concat (_board b) ->
  exists n cur,
    _get_num_live_neighbors b c = Ok n /\ 0 <= n <= 8 /\
    Cell.get_state c (cells b) = Ok cur.
Proof.
  intros Hs Hc. rewrite (shape_board _ Hs), concat_grid in Hc.
  apply elem_of_seq in Hc as [_ Hc]. simpl in Hc.
  unfold _get_num_live_neighbors, dict_getitem.
  rewrite (shape_neighbors _ Hs), decide_True by done. simpl.
  set (ps := neighbor_positions _ _ _).
  rewrite live_neighbors_ok.
  - destruct (lookup_lt_is_Some_2 (cells b) c) as [s Hsome].
    { by rewrite (shape_cells _ Hs). }
    eexists _, s. split; [reflexivity|]. split.
    + pose proof (length_filter (fun n : nat => cells b !! n = Some alive)
                                (map (cell_at (width b)) ps)) as Hle.
      rewrite length_map in Hle.
      assert (length ps <= 8)%nat; [|lia].
      unfold ps, neighbor_positions.
      etrans; [apply length_filter|]. by rewrite length_map.
    + unfold Cell.get_state. by rewrite Hsome.
  - intros n Hn. apply list_elem_of_fmap in Hn as (p & -> & Hp).
    rewrite (shape_cells _ Hs). unfold width, height.
    apply cell_at_bound. unfold ps, neighbor_positions in Hp.
    by apply list_elem_of_filter in Hp as [Hp _].
Qed.

Lemma update_total rules b :
  reachable b -> rules_total rules ->
  exists deltas b', update rules b = (Ok deltas, b').
Proof.
  intros Hr Ht. apply reachable_shape in Hr as Hs.
  destruct (update_spec rules b) as [[_ Heq]|(e & pre & c & post & Hcs & _ & Hc & _)].
  - by eexists _, _.
  - exfalso. destruct (shape_reads b c Hs) as (n & cur & Hn & Hbound & Hcur).
    { rewrite Hcs. apply elem_of_app. right. left. }
    destruct (Ht cur n Hbound) as [next Hnext].
    unfold transition in Hc. rewrite Hn, Hcur in Hc. simpl in Hc.
    by rewrite Hnext in Hc.
Qed.

Lemma get_next_state_raise rules s n e :
  GameRules.get_next_state rules s n = Raise e -> e = KeyError.
Proof.
  unfold GameRules.get_next_state, dict_getitem.
  destruct (rules !! s) as [row|]; simpl; [|congruence].
  destruct (row !! n); congruence.
Qed.

Lemma get_cell_elem b (x y : Z) (cell : Cell) :
  shape b -> get_cell b x y = Ok cell -> cell ∈ concat (_board b).
Proof.
  intros Hs Hcell.
  destruct (decide (- Z.of_nat (width b) <= x < Z.of_nat (width b) /\
                    - Z.of_nat (height b) <= y < Z.of_nat (height b))) as [[Hx Hy]|Hout].
  - rewrite get_cell_in in Hcell by done. injection Hcell as <-.
    rewrite (shape_board _ Hs), concat_grid. apply elem_of_seq. split; [lia|]. simpl.
    apply (cell_at_bound (_num_cells_x b) (_num_cells_y b)). apply in_grid_true. simpl.
    assert (0 <= x mod Z.of_nat (width b) < Z.of_nat (width b)) as Hxm
      by (apply Z.mod_pos_bound; lia).
    assert (0 <= y mod Z.of_nat (height b) < Z.of_nat (height b)) as Hym
      by (apply Z.mod_pos_bound; lia).
    unfold width, height in *. lia.
  - by rewrite get_cell_out in Hcell.
Qed.

(** A board is its frame plus states and counters. *)
Lemma board_canon (b0 b : t) :
  same_frame b0 b ->
  b = mk (_num_cells_x b0) (_num_cells_y b0) (_board b0) (_cell_positions b0)
         (_neighbors b0) (_generation b) (_live_count b) (_initial_changes b) (cells b).
Proof. intros [Hx Hy Hb Hp Hn _]. destruct b. simpl in *. congruence. Qed.

(** ** Rule edits *)

Lemma set_rule_spec rules s n v rules' :
  GameRules.set_rule rules s n v = Ok rules' ->
  GameRules.get_next_state rules' s n = Ok v /\
  forall s' n', (s', n') <> (s, n) ->
    GameRules.get_next_state rules' s' n' = GameRules.get_next_state rules s' n'.
Proof.
  unfold GameRules.set_rule, GameRules.get_next_state, dict_getitem.
  destruct (rules !! s) as [row|] eqn:Hrow; simpl; [|done].
  intros [= <-]. split.
  - by rewrite !lookup_insert_eq; simpl; rewrite lookup_insert_eq.
  - intros s' n' Hne. destruct (decide (s' = s)) as [->|Hs].
    + rewrite lookup_insert_eq, Hrow. simpl.
      rewrite lookup_insert_ne by congruence. done.
    + by rewrite lookup_insert_ne.
Qed.

Lemma set_rule_total rules s n v rules' :
  rules_total rules -> GameRules.set_rule rules s n v = Ok rules' -> rules_total rules'.
Proof.
  intros Ht Hset s' n' Hn'. destruct (set_rule_spec _ _ _ _ _ Hset) as [Hnew Hold].
  destruct (decide ((s', n') = (s, n))) as [[= -> ->]|Hne].
  - by exists v.
  - rewrite Hold by done. by apply Ht.
Qed.

Lemma rules_total_init : rules_total GameRules.__init__.
Proof.
  intros s n Hn.
  assert (n = 0 \/ n = 1 \/ n = 2 \/ n = 3 \/ n = 4 \/ n = 5 \/ n = 6 \/ n = 7 \/ n = 8)
    as Hcases by lia.
  destruct s; repeat (destruct Hcases as [->|Hcases]); try subst n;
    eexists; vm_compute; reflexivity.
Qed.

Lemma filter_none {A : Type} (P : A -> Prop) `{!forall x, Decision (P x)} (l : list A) :
  (forall x, x ∈ l -> ~ P x) -> filter P l = [].
Proof.
  induction l as [|a l IH]; intros Hl; [done|].
  rewrite filter_cons, decide_False by (apply Hl; left).
  apply IH. intros x Hx. apply Hl. by right.
Qed.

Lemma transition_all_dead rules b (c : Cell) :
  shape b -> cells b = replicate (width b * height b) dead ->
  c ∈ concat (_board b) ->
  GameRules.get_next_state rules dead 0 = Ok alive ->
  transition rules b c = Ok (dead, alive).
Proof.
  intros Hs Hdead Hc Hrule. rewrite (shape_board _ Hs), concat_grid in Hc.
  apply elem_of_seq in Hc as [_ Hc]. simpl in Hc.
  unfold transition, _get_num_live_neighbors, dict_getitem.
  rewrite (shape_neighbors _ Hs), decide_True by done. cbn [bind].
  rewrite live_neighbors_ok.
  - cbn [bind]. rewrite filter_none.
    + unfold Cell.get_state. rewrite Hdead, lookup_replicate_2 by done. simpl.
      change (Z.of_nat 0) with 0. by rewrite Hrule.
    + intros n _. rewrite Hdead. intros Hn. apply lookup_replicate in Hn as [? _]. done.
  - intros n Hn. apply list_elem_of_fmap in Hn as (p & -> & Hp).
    rewrite (shape_cells _ Hs). unfold width, height.
    apply cell_at_bound. unfold neighbor_positions in Hp.
    by apply list_elem_of_filter in Hp as [Hp _].
Qed.

Lemma changes_all rules b cs cur next :
  next <> cur ->
  (forall c, c ∈ cs -> transition rules b c = Ok (cur, next)) ->
  changes rules b cs = map (fun c => (c, next)) cs.
Proof.
  intros Hne. induction cs as [|c cs IH]; intros Hall; [done|].
  rewrite changes_cons, IH by (intros c' Hc'; apply Hall; by right).
  unfold changes. simpl. rewrite (Hall c) by left. by rewrite decide_True.
Qed.

Lemma spawned_all_alive (cs : list Cell) :
  spawned (map (fun c => (c, alive)) cs) = cs /\
  died (map (fun c => (c, alive)) cs) = [].
Proof.
  unfold spawned, died. induction cs as [|c cs [IH1 IH2]]; [done|].
  simpl. rewrite !filter_cons. simpl. split; [|done].
  f_equal. exact IH1.
Qed.

(** After [set_rule(dead, 0, alive)], a step on a reachable board with no live
    cell returns a delta for every cell, in scan order, all alive, and adds
    the number of cells to [_live_count]. *)
Lemma update_all_dead rules0 rules b :
  reachable b ->
  GameRules.set_rule rules0 dead 0 alive = Ok rules ->
  cells b = replicate (width b * height b) dead ->
  exists b',
    update rules b = (Ok (map (fun c => (c, alive)) (seq 0 (width b * height b))), b') /\
    cells b' = replicate (width b * height b) alive /\
    _generation b' = _generation b + 1 /\
    _live_count b' = _live_count b + Z.of_nat (width b * height b).
Proof.
  intros Hr Hset Hdead. apply reachable_shape in Hr as Hs.
  destruct (set_rule_spec _ _ _ _ _ Hset) as [Hrule _].
  assert (forall c, c ∈ concat (_board b) -> transition rules b c = Ok (dead, alive))
    as Hall by (intros c Hc; by apply transition_all_dead).
  destruct (update_spec rules b) as [[_ Heq]|(e & pre & c & post & Hcs & _ & Hc & _)].
  - rewrite (changes_all _ _ _ dead alive) in Heq by done.
    rewrite (shape_board _ Hs), concat_grid in Heq.
    destruct (spawned_all_alive (seq 0 (width b * height b))) as [Hsp Hdi].
    unfold live_after in Heq. rewrite Hsp, Hdi in Heq.
    eexists. split; [exact Heq|]. simpl. split; [|split; [done|]].
    + unfold write_all at 1. simpl. rewrite <- (shape_cells _ Hs). apply write_all_seq.
    + rewrite length_seq. lia.
  - rewrite Hall in Hc; [done|]. rewrite Hcs. apply elem_of_app. right. left.
Qed.

(** ** Order and determinism of the delta list *)

Lemma changes_single rules b (c : Cell) :
  changes rules b [c] = [] \/ exists next, changes rules b [c] = [(c, next)].
Proof.
  unfold changes. simpl. destruct (transition rules b c) as [[cur next]|e]; [|by left].
  case_decide; [right; by exists next|by left].
Qed.

Lemma changes_seq_sorted rules b (n : nat) : forall a : nat,
  StronglySorted (fun d1 d2 : Cell * CellState => (d1.1 < d2.1 < a + n)%nat)
                 (changes rules b (seq a n)).
Proof.
  induction n as [|n IH]; intros a; [constructor|].
  cbn [seq]. rewrite changes_cons.
  assert (StronglySorted
            (fun d1 d2 : Cell * CellState => (d1.1 < d2.1 < a + S n)%nat)
            (changes rules b (seq (S a) n))) as Htail.
  { replace (a + S n)%nat with (S a + n)%nat by lia. apply IH. }
  destruct (changes_single rules b a) as [->|[next ->]]; [done|].
  simpl. constructor; [done|].
  apply Forall_forall. intros [c s] Hin. apply elem_of_changes in Hin as [Hc _].
  apply elem_of_seq in Hc. simpl. lia.
Qed.

Lemma StronglySorted_weaken {A : Type} (R1 R2 : A -> A -> Prop) (l : list A) :
  (forall x y, x ∈ l -> y ∈ l -> R1 x y -> R2 x y) ->
  StronglySorted R1 l -> StronglySorted R2 l.
Proof.
  intros HR Hl. induction Hl as [|a l Hl IH Hall]; [constructor|].
  constructor.
  - apply IH. intros x y Hx Hy. apply HR; by right.
  - apply Forall_forall. intros y Hy. apply HR; [by left|by right|].
    eapply Forall_forall in Hall; [exact Hall|done].
Qed.

Lemma pos_of_row_major (w c1 c2 : nat) :
  (c1 < c2)%nat -> (0 < w)%nat -> row_major_lt (pos_of w c1) (pos_of w c2).
Proof.
  intros Hlt Hw. unfold row_major_lt, pos_of. simpl.
  pose proof (Nat.div_mod_eq c1 w) as H1. pose proof (Nat.div_mod_eq c2 w) as H2.
  pose proof (Nat.mod_upper_bound c1 w) as B1. pose proof (Nat.mod_upper_bound c2 w) as B2.
  destruct (decide (c1 / w < c2 / w)%nat) as [Hd|Hd]; [left; lia|].
  right. assert (c1 / w = c2 / w)%nat as Heq; [|split; [lia|]].
  - destruct (decide (c2 / w < c1 / w)%nat) as [Hd'|Hd']; [|lia].
    exfalso. nia.
  - rewrite Heq in H1. lia.
Qed.

Lemma transition_ext rules b1 b2 (c : Cell) :
  _neighbors b1 = _neighbors b2 -> cells b1 = cells b2 ->
  transition rules b1 c = transition rules b2 c.
Proof.
  intros Hn Hc. unfold transition, _get_num_live_neighbors. by rewrite Hn, Hc.
Qed.

Lemma scan_ext rules cs : forall st1 st2,
  _neighbors (us_self st1) = _neighbors (us_self st2) ->
  cells (us_self st1) = cells (us_self st2) ->
  tkinter_data st1 = tkinter_data st2 ->
  match for_each (update_cell rules) st1 cs, for_each (update_cell rules) st2 cs with
  | Done s1, Done s2 => tkinter_data s1 = tkinter_data s2
  | Raised e1 _, Raised e2 _ => e1 = e2
  | _, _ => False
  end.
Proof.
  induction cs as [|c cs IH]; intros st1 st2 Hn Hc Hd; cbn [for_each]; [done|].
  rewrite !update_cell_spec.
  assert (changes rules (us_self st1) [c] = changes rules (us_self st2) [c]) as Hch.
  { unfold changes. simpl. by rewrite (transition_ext rules _ (us_self st2)). }
  rewrite (transition_ext rules (us_self st1) (us_self st2)) by done.
  destruct (transition rules (us_self st2) c); [|done].
  apply IH; [exact Hn|exact Hc|].
  unfold advance. cbn [tkinter_data]. by rewrite Hch, Hd.
Qed.

Lemma update_result rules b :
  (update rules b).1 =
    match for_each (update_cell rules)
                   (mk_update_state (with_generation (_generation b + 1) b) [] [] [])
                   (concat (_board b)) with
    | Done st => Ok (tkinter_data st)
    | Raised e _ => Raise e
    end.
Proof.
  unfold update. rewrite for_each_concat. simpl. by destruct (for_each _ _ _).
Qed.

Lemma update_result_ext rules b1 b2 :
  _board b1 = _board b2 -> _neighbors b1 = _neighbors b2 -> cells b1 = cells b2 ->
  (update rules b1).1 = (update rules b2).1.
Proof.
  intros Hb Hn Hc. rewrite !update_result, Hb.
  pose proof (scan_ext rules (concat (_board b2))
                (mk_update_state (with_generation (_generation b1 + 1) b1) [] [] [])
                (mk_update_state (with_generation (_generation b2 + 1) b2) [] [] [])
                Hn Hc eq_refl) as H.
  destruct (for_each _ _ _), (for_each _ _ _); try done; congruence.
Qed.

(** ** Where the live count is kept *)

Lemma alive_refs_count (st : list CellState) :
  length (alive_refs st) = count_alive st.
Proof.
  unfold count_alive. induction st as [|s st IH] using rev_ind; [done|].
  rewrite alive_refs_snoc, filter_app, !length_app, IH. f_equal.
  rewrite filter_cons, filter_nil. by destruct s; repeat case_decide.
Qed.

Lemma scan_live_count_shape b :
  shape b -> scan_live_count b = Z.of_nat (count_alive (cells b)).
Proof.
  intros Hs. unfold scan_live_count.
  rewrite (shape_board _ Hs), concat_grid, <- (shape_cells _ Hs), <- alive_refs_count.
  unfold alive_refs. do 2 f_equal. apply filter_ext_in. intros c _.
  unfold Cell.get_state. destruct (cells b !! c); split; congruence.
Qed.

Lemma count_alive_insert (st : list CellState) (c : Cell) (s s' : CellState) :
  st !! c = Some s ->
  (count_alive (<[c := s']> st) + (if decide (s = alive) then 1 else 0))%nat =
  (count_alive st + (if decide (s' = alive) then 1 else 0))%nat.
Proof.
  intros Hc. apply lookup_lt_Some in Hc as Hlt.
  rewrite <- (take_drop_middle st c s Hc) at 2.
  rewrite insert_take_drop by done. unfold count_alive.
  rewrite !filter_app, !filter_cons, !length_app.
  repeat case_decide; simpl; lia.
Qed.

Lemma count_alive_write_all (s s0 : CellState) (l : list Cell) : forall st,
  NoDup l -> (forall c, c ∈ l -> st !! c = Some s0) ->
  (count_alive (write_all s l st) + (if decide (s0 = alive) then length l else 0))%nat =
  (count_alive st + (if decide (s = alive) then length l else 0))%nat.
Proof.
  unfold write_all. induction l as [|c l IH]; intros st Hnd Hall; simpl.
  - repeat case_decide; lia.
  - apply NoDup_cons in Hnd as [Hc Hnd].
    pose proof (count_alive_insert st c s0 s (Hall c ltac:(left))) as Hins.
    assert (forall c', c' ∈ l -> <[c := s]> st !! c' = Some s0) as Hall'.
    { intros c' Hc'. rewrite list_lookup_insert_ne by (intros ->; done).
      apply Hall. by right. }
    specialize (IH (<[c := s]> st) Hnd Hall').
    repeat case_decide; lia.
Qed.

Lemma changes_fst_sublist rules b cs : (changes rules b cs).*1 `sublist_of` cs.
Proof.
  induction cs as [|c cs IH]; [done|].
  rewrite changes_cons, fmap_app.
  destruct (changes_single rules b c) as [->|[next ->]]; simpl.
  - by apply sublist_cons.
  - by apply sublist_skip.
Qed.

Lemma NoDup_spawned_died rules b cs :
  NoDup cs ->
  NoDup (spawned (changes rules b cs)) /\ NoDup (died (changes rules b cs)).
Proof.
  intros Hnd.
  assert (NoDup (changes rules b cs).*1) as Hch
    by (eapply sublist_NoDup; [exact Hnd|apply changes_fst_sublist]).
  unfold spawned, died. split.
  - eapply sublist_NoDup; [exact Hch|]. apply fmap_sublist, sublist_filter.
  - eapply sublist_NoDup; [exact Hch|]. apply fmap_sublist, sublist_filter.
Qed.

(** Construction leaves the counter equal to the scanned count. *)
Lemma live_count_after_init rng config k b k' :
  __init__ rng config k = Ok (b, k') -> _live_count b = scan_live_count b.
Proof.
  intros Hb. destruct (__init___spec rng config k) as (b0 & Hb0 & _ & _ & Hs & Hseed).
  assert (b0 = b) as -> by congruence.
  rewrite scan_live_count_shape, <- alive_refs_count by done. apply Hseed.
Qed.

(** So does [reset], on every reachable board. *)
Lemma live_count_after_reset rng b k :
  reachable b -> _live_count (reset rng b k).1 = scan_live_count (reset rng b k).1.
Proof.
  intros Hr. apply reachable_shape in Hr as Hs.
  destruct (reset_spec rng b k Hs) as (b' & -> & Hf & Hseed). simpl.
  rewrite scan_live_count_shape, <- alive_refs_count by (by apply (same_frame_shape b)).
  apply Hseed.
Qed.

(** A step that returns keeps the counter right when it was right. *)
Lemma live_count_after_update rules b deltas b' :
  reachable b -> _live_count b = scan_live_count b ->
  update rules b = (Ok deltas, b') ->
  _live_count b' = scan_live_count b'.
Proof.
  intros Hr Hinv Hup. apply reachable_shape in Hr as Hs.
  destruct (update_ok _ _ _ _ Hup) as (Hd & _ & Hl & _ & Hf & _).
  rewrite scan_live_count_shape in Hinv by done.
  rewrite scan_live_count_shape by (by apply (same_frame_shape b)).
  rewrite Hl, Hinv. unfold live_after.
  destruct (update_spec rules b) as [[Hall Heq]|(e & pre & c & post & _ & _ & _ & Heq)];
    rewrite Heq in Hup; [|done].
  injection Hup as _ <-. simpl. rewrite <- Hd.
  destruct (NoDup_spawned_died rules b (concat (_board b))) as [Hnsp Hndi].
  { rewrite (shape_board _ Hs), concat_grid. apply NoDup_seq. }
  rewrite <- Hd in Hnsp, Hndi.
  assert (forall c s, (c, s) ∈ deltas -> cells b !! c = Some (flip s)) as Hflip.
  { intros c s Hin. rewrite Hd in Hin. apply elem_of_changes in Hin as (_ & cur & Htr & Hne).
    apply transition_inv in Htr as (_ & _ & Hcur & _). unfold Cell.get_state in Hcur.
    destruct (cells b !! c) as [s0|]; [|done]. injection Hcur as ->.
    by destruct s, cur. }
  assert (forall c, c ∈ spawned deltas -> cells b !! c = Some dead) as Hsp.
  { intros c Hc. apply elem_of_spawned in Hc. by apply Hflip in Hc. }
  assert (forall c, c ∈ died deltas ->
            write_all alive (spawned deltas) (cells b) !! c = Some alive) as Hdi.
  { intros c Hc. apply elem_of_died in Hc as Hc'. apply Hflip in Hc' as Hsome.
    rewrite lookup_write_all, decide_False; [done|].
    intros [Hin _]. apply Hsp in Hin. simpl in *. congruence. }
  pose proof (count_alive_write_all alive dead _ _ Hnsp Hsp) as H1.
  pose proof (count_alive_write_all dead alive _ _ Hndi Hdi) as H2.
  rewrite (decide_False (P := dead = alive)) in H1, H2 by done.
  rewrite (decide_True (P := alive = alive)) in H1, H2 by done.
  lia.
Qed.


(** ** Positions of cells, and live neighbours by position *)

Lemma cell_at_pos_of (w : nat) (c : Cell) : cell_at w (pos_of w c) = c.
Proof.
  unfold cell_at, pos_of. simpl. rewrite !Nat2Z.id.
  destruct w as [|w]; [simpl; lia|].
  pose proof (Nat.div_mod_eq c (S w)). lia.
Qed.

Lemma pos_of_in_grid b (c : Cell) :
  (c < width b * height b)%nat ->
  in_grid (_num_cells_x b) (_num_cells_y b) (pos_of (width b) c) = true.
Proof.
  intros Hc. apply in_grid_true. unfold pos_of. simpl.
  assert (0 < width b)%nat as Hw by (destruct (width b); lia).
  pose proof (Nat.mod_upper_bound c (width b)).
  assert (c / width b < height b)%nat
    by (apply Nat.Div0.div_lt_upper_bound; lia).
  unfold width, height in *. lia.
Qed.

Lemma pos_of_cell_at (nx ny : Z) (p : Z * Z) :
  in_grid nx ny p = true -> pos_of (Z.to_nat nx) (cell_at (Z.to_nat nx) p) = p.
Proof.
  intros [Hx Hy]%in_grid_true. unfold cell_at. rewrite pos_of_cell by lia.
  destruct p. simpl in *. f_equal; lia.
Qed.

Lemma get_coord_shape b (c : Cell) (p : Z * Z) :
  shape b ->
  get_coord b c = Ok p <-> (c < width b * height b)%nat /\ p = pos_of (width b) c.
Proof.
  intros Hs. unfold get_coord, dict_getitem. rewrite (shape_positions _ Hs).
  case_decide; split; try done.
  - intros [= <-]. done.
  - intros [_ ->]. done.
  - intros [? _]. done.
Qed.

Lemma alive_at_in_grid b (p : Z * Z) :
  shape b -> in_grid (_num_cells_x b) (_num_cells_y b) p = true ->
  alive_at b p <-> cells b !! cell_at (width b) p = Some alive.
Proof.
  intros Hs [Hx Hy]%in_grid_true. unfold alive_at.
  rewrite get_cell_in by (done || unfold width, height; lia).
  rewrite !Z.mod_small by (unfold width, height; lia). cbn [bind].
  replace (p.1, p.2) with p by (by destruct p).
  unfold Cell.get_state. destruct (cells b !! _); split; congruence.
Qed.

Lemma live_among_neighbor_positions b (l : list (Z * Z)) :
  shape b ->
  length (filter (fun n => cells b !! n = Some alive)
                 (map (cell_at (width b))
                      (filter (fun p => in_grid (_num_cells_x b) (_num_cells_y b) p = true) l))) =
  length (filter (fun p : Z * Z =>
                    (0 <= p.1 < _num_cells_x b /\ 0 <= p.2 < _num_cells_y b) /\ alive_at b p)
                 l).
Proof.
  intros Hs. induction l as [|p l IH]; [done|].
  rewrite !filter_cons.
  destruct (decide (in_grid (_num_cells_x b) (_num_cells_y b) p = true)) as [Hin|Hout].
  - pose proof (alive_at_in_grid b p Hs Hin) as Halive.
    apply in_grid_true in Hin. cbn [map]. rewrite filter_cons.
    repeat case_decide; simpl; rewrite ?IH; try done; exfalso; tauto.
  - rewrite in_grid_true in Hout. rewrite decide_False by tauto. exact IH.
Qed.

Lemma num_live_neighbors_spec b (c : Cell) :
  shape b -> c ∈ concat (_board b) ->
  exists (ns : list Cell) (p : Z * Z) (n : Z),
    _neighbors b !! c = Some ns /\
    get_coord b c = Ok p /\
    n = Z.of_nat (length (filter (fun c' : Cell => Cell.get_state c' (cells b) = Ok alive)
                                 ns)) /\
    n = Z.of_nat
          (length (filter (fun q : Z * Z =>
                             (0 <= q.1 < _num_cells_x b /\ 0 <= q.2 < _num_cells_y b) /\
                             alive_at b q)
                          (map (fun d : Z * Z => (p.1 + d.1, p.2 + d.2)) _DIRECTIONS))) /\
    _get_num_live_neighbors b c = Ok n.
Proof.
  intros Hs Hc. rewrite (shape_board _ Hs), concat_grid in Hc.
  apply elem_of_seq in Hc as [_ Hc]. simpl in Hc.
  set (ps := neighbor_positions (_num_cells_x b) (_num_cells_y b) (pos_of (width b) c)).
  assert (forall n : Cell, n ∈ map (cell_at (width b)) ps -> (n < length (cells b))%nat)
    as Hbound.
  { intros n Hn. apply list_elem_of_fmap in Hn as (p & -> & Hp).
    rewrite (shape_cells _ Hs). unfold width, height.
    apply cell_at_bound. unfold ps, neighbor_positions in Hp.
    by apply list_elem_of_filter in Hp as [Hp _]. }
  assert (filter (fun c' : Cell => Cell.get_state c' (cells b) = Ok alive)
                 (map (cell_at (width b)) ps)
          = filter (fun c' : Cell => cells b !! c' = Some alive)
                   (map (cell_at (width b)) ps)) as Hfilter.
  { apply filter_ext_in. intros c' _. unfold Cell.get_state.
    destruct (cells b !! c') as [[]|]; split; congruence. }
  exists (map (cell_at (width b)) ps), (pos_of (width b) c). eexists.
  split_and!.
  - by rewrite (shape_neighbors _ Hs), decide_True.
  - by apply get_coord_shape.
  - reflexivity.
  - rewrite Hfilter. unfold ps, neighbor_positions.
    by rewrite live_among_neighbor_positions.
  - unfold _get_num_live_neighbors, dict_getitem.
    rewrite (shape_neighbors _ Hs), decide_True by done. cbn [bind].
    rewrite live_neighbors_ok by done. cbn [bind]. fold ps. by rewrite Hfilter.
Qed.

(** ** The deltas and the states before and after *)

Lemma update_lists_changed rules b deltas b' :
  update rules b = (Ok deltas, b') ->
  forall (c : Cell) (s : CellState),
    (c, s) ∈ deltas <->
      c ∈ concat (_board b) /\
      Cell.get_state c (cells b') = Ok s /\
      Cell.get_state c (cells b) <> Ok s.
Proof.
  intros Hup c s.
  destruct (update_ok _ _ _ _ Hup) as (Hd & _ & _ & _ & _ & Hcells). split.
  - intros Hin. rewrite Hd in Hin.
    apply elem_of_changes in Hin as (Hc & cur & Htr & Hne).
    apply transition_inv in Htr as (n & Hn & Hcur & Hnext).
    destruct (Hcells c Hc) as (n' & cur' & next' & Hn' & Hcur' & Hnext' & Hpost & _).
    assert (n' = n) as -> by congruence. assert (cur' = cur) as -> by congruence.
    assert (next' = s) as -> by congruence.
    split; [done|]. split; [done|]. rewrite Hcur. congruence.
  - intros (Hc & Hafter & Hbefore).
    destruct (Hcells c Hc) as (n & cur & next & _ & Hcur & _ & Hpost & Hiff).
    assert (next = s) as -> by congruence.
    apply Hiff. congruence.
Qed.

(** ** Claims *)

(** C1 (code defect).  The claim: after construction, step, toggle, clear and
    reset, [_live_count] equals the number of live cells found by scanning the
    grid.  [toggle_cell] and [clear] never write [_live_count]: on a board of
    one dead cell whose counter is right, toggling the cell leaves the counter
    at 0 with one live cell; on a board of one live cell whose counter is
    right, clearing leaves the counter at 1 with no live cell.  The info
    string reports the stale counter as the number of live cells. *)
Theorem C1_live_count_stale_after_toggle_and_clear :
  let b := board_of (fun _ => 1) 1 1 in
  let a := board_of (fun _ => 0) 1 1 in
  (_live_count b = scan_live_count b /\
   (toggle_cell b 0 0).1 = Ok [(0%nat, alive)] /\
   _live_count (toggle_cell b 0 0).2 = 0 /\
   scan_live_count (toggle_cell b 0 0).2 = 1 /\
   get_info_string (toggle_cell b 0 0).2 = "Generation: 0 - Live cells: 0"%string) /\
  (_live_count a = scan_live_count a /\
   _live_count (clear a) = 1 /\
   scan_live_count (clear a) = 0 /\
   get_info_string (clear a) = "Generation: 0 - Live cells: 1"%string).
Proof. vm_compute. repeat split. Qed.

(** C2.  On a reachable board, [update] decides every cell from the states
    before the step: when it returns, each cell of the grid holds the state
    that the table gives for the cell's previous state and the number [n] of
    its neighbours that were alive before the step, and the cell is in the
    delta list exactly when that state differs from the previous one; with a
    total table it does return.  The number [n] is the number of cells in the
    cell's stored neighbour list whose state in the store before the step is
    alive, which is the number of directions in which the next position lies
    in the grid and held a live cell.  On a 3x3 board with all cells alive and
    the default rules, the deltas are the four edge midpoints and the centre,
    all becoming dead, and the four corners stay alive without a delta. *)
Theorem C2_update_simultaneous (rules : gmap CellState (gmap Z CellState)) (b : t) :
  reachable b ->
  (rules_total rules -> exists deltas b', update rules b = (Ok deltas, b')) /\
  (forall deltas b', update rules b = (Ok deltas, b') ->
     forall x y cell, get_cell b x y = Ok cell ->
       exists (ns : list Cell) (p : Z * Z) (n : Z) (cur next : CellState),
         _neighbors b !! cell = Some ns /\
         get_coord b cell = Ok p /\
         n = Z.of_nat
               (length (filter (fun c : Cell => Cell.get_state c (cells b) = Ok alive)
                               ns)) /\
         n = Z.of_nat
               (length (filter (fun q : Z * Z =>
                                  (0 <= q.1 < _num_cells_x b /\
                                   0 <= q.2 < _num_cells_y b) /\
                                  alive_at b q)
                               (map (fun d : Z * Z => (p.1 + d.1, p.2 + d.2))
                                    _DIRECTIONS))) /\
         _get_num_live_neighbors b cell = Ok n /\
         Cell.get_state cell (cells b) = Ok cur /\
         GameRules.get_next_state rules cur n = Ok next /\
         Cell.get_state cell (cells b') = Ok next /\
         ((cell, next) ∈ deltas <-> next <> cur)) /\
  (_num_cells_x b = 3 -> _num_cells_y b = 3 -> cells b = replicate 9 alive ->
     (update GameRules.__init__ b).1
       = Ok [(1%nat, dead); (3%nat, dead); (4%nat, dead); (5%nat, dead); (7%nat, dead)] /\
     map (get_coord b) [1%nat; 3%nat; 4%nat; 5%nat; 7%nat]
       = [Ok (1, 0); Ok (0, 1); Ok (1, 1); Ok (2, 1); Ok (1, 2)] /\
     map (get_coord b) [0%nat; 2%nat; 6%nat; 8%nat]
       = [Ok (0, 0); Ok (2, 0); Ok (0, 2); Ok (2, 2)] /\
     cells (update GameRules.__init__ b).2
       = [alive; dead; alive; dead; dead; dead; alive; dead; alive]).
Proof.
  intros Hr. apply reachable_shape in Hr as Hs.
  split; [by apply update_total|]. split.
  - intros deltas b' Hup x y cell Hcell.
    destruct (update_ok _ _ _ _ Hup) as (_ & _ & _ & _ & _ & Hcells).
    pose proof (get_cell_elem b x y cell Hs Hcell) as Hon.
    destruct (Hcells cell Hon) as (n & cur & next & Hn & Hcur & Hnext & Hafter & Hiff).
    destruct (num_live_neighbors_spec b cell Hs Hon)
      as (ns & p & n' & Hns & Hp & Hcount & Hpos & Hn').
    assert (n' = n) as -> by congruence.
    by exists ns, p, n, cur, next.
  - intros Hx Hy Hc.
    assert (same_frame (board_of (fun _ => 0) 3 3) b) as Hf.
    { apply shape_frame; [apply reachable_shape, reachable_board_of|done| |].
      - rewrite Hx. reflexivity.
      - rewrite Hy. reflexivity. }
    rewrite (board_canon _ _ Hf), Hc. vm_compute. done.
Qed.

Lemma C2_update_simultaneous_witness :
  (reachable (board_of (fun _ => 0) 3 3) /\
   (update GameRules.__init__ (board_of (fun _ => 0) 3 3)).1
     = Ok [(1%nat, dead); (3%nat, dead); (4%nat, dead); (5%nat, dead); (7%nat, dead)] /\
   map (get_coord (board_of (fun _ => 0) 3 3)) [1%nat; 3%nat; 4%nat; 5%nat; 7%nat]
     = [Ok (1, 0); Ok (0, 1); Ok (1, 1); Ok (2, 1); Ok (1, 2)] /\
   map (get_coord (board_of (fun _ => 0) 3 3)) [0%nat; 2%nat; 6%nat; 8%nat]
     = [Ok (0, 0); Ok (2, 0); Ok (0, 2); Ok (2, 2)] /\
   cells (update GameRules.__init__ (board_of (fun _ => 0) 3 3)).2
     = [alive; dead; alive; dead; dead; dead; alive; dead; alive]) /\
  let b := board_of (fun i => if bool_decide (3 <= i <= 5)%nat then 0 else 1) 3 3 in
  reachable b /\
  update GameRules.__init__ b
    = (Ok [(1%nat, alive); (3%nat, dead); (5%nat, dead); (7%nat, alive)],
       (update GameRules.__init__ b).2) /\
  get_cell b 1 0 = Ok 1%nat /\
  exists (ns : list Cell) (p : Z * Z) (n : Z) (cur next : CellState),
    _neighbors b !! 1%nat = Some ns /\
    get_coord b 1%nat = Ok p /\
    n = Z.of_nat
          (length (filter (fun c : Cell => Cell.get_state c (cells b) = Ok alive) ns)) /\
    n = Z.of_nat
          (length (filter (fun q : Z * Z =>
                             (0 <= q.1 < _num_cells_x b /\ 0 <= q.2 < _num_cells_y b) /\
                             alive_at b q)
                          (map (fun d : Z * Z => (p.1 + d.1, p.2 + d.2)) _DIRECTIONS))) /\
    _get_num_live_neighbors b 1%nat = Ok n /\
    Cell.get_state 1%nat (cells b) = Ok cur /\
    GameRules.get_next_state GameRules.__init__ cur n = Ok next /\
    Cell.get_state 1%nat (cells (update GameRules.__init__ b).2) = Ok next /\
    ((1%nat, next) ∈ [(1%nat, alive); (3%nat, dead); (5%nat, dead); (7%nat, alive)]
     <-> next <> cur).
Proof.
  split.
  - assert (reachable (board_of (fun _ => 0) 3 3)) as Hr.
    { apply (reach_init (fun _ => 0) (config_of 3 3) 0 _ 9%nat). vm_compute. reflexivity. }
    split; [exact Hr|].
    apply (C2_update_simultaneous GameRules.__init__ _ Hr); vm_compute; reflexivity.
  - cbn zeta.
    set (b := board_of (fun i => if bool_decide (3 <= i <= 5)%nat then 0 else 1) 3 3).
    assert (reachable b) as Hr.
    { apply (reach_init (fun i => if bool_decide (3 <= i <= 5)%nat then 0 else 1)
               (config_of 3 3) 0 _ 9%nat). vm_compute. reflexivity. }
    assert (update GameRules.__init__ b
            = (Ok [(1%nat, alive); (3%nat, dead); (5%nat, dead); (7%nat, alive)],
               (update GameRules.__init__ b).2)) as Hup
      by (vm_compute; reflexivity).
    assert (get_cell b 1 0 = Ok 1%nat) as Hcell by (vm_compute; reflexivity).
    split; [exact Hr|]. split; [exact Hup|]. split; [exact Hcell|].
    exact (proj1 (proj2 (C2_update_simultaneous GameRules.__init__ b Hr))
             _ _ Hup 1 0 1%nat Hcell).
Defined.

(** C3 (counterexample).  The claim has [toggle] fail for every [x < 0] and
    [y < 0]; on a 2x2 board of dead cells, toggling at (-1, -1) succeeds and
    flips the last cell of the last row. *)
Lemma C3_negative_index_counterexample :
  let b := board_of (fun _ => 1) 2 2 in
  -1 < 0 /\
  (toggle_cell b (-1) (-1)).1 <> Raise IndexError /\
  (toggle_cell b (-1) (-1)).1 = Ok [(3%nat, alive)] /\
  get_coord b 3%nat = Ok (1, 1) /\
  cells (toggle_cell b (-1) (-1)).2 = [dead; dead; dead; alive].
Proof. vm_compute. repeat split. discriminate. Qed.

(** C3 (amended).  On a reachable board of width [w] and height [h],
    [toggle_cell x y] raises [IndexError] and changes nothing unless
    [-w <= x < w] and [-h <= y < h]; within that range, where a negative index
    counts from the end, it flips exactly the cell at column [x mod w] of row
    [y mod h], keeps the generation counter and returns the single
    (cell, new state) delta.  Nothing is said of [_live_count]. *)
Theorem C3_toggle_cell_amended (b : t) (x y : Z) :
  reachable b ->
  (~ (- Z.of_nat (width b) <= x < Z.of_nat (width b) /\
      - Z.of_nat (height b) <= y < Z.of_nat (height b)) ->
   toggle_cell b x y = (Raise IndexError, b)) /\
  (- Z.of_nat (width b) <= x < Z.of_nat (width b) /\
   - Z.of_nat (height b) <= y < Z.of_nat (height b) ->
   exists cell s b',
     get_cell b x y = Ok cell /\
     get_coord b cell = Ok (x mod Z.of_nat (width b), y mod Z.of_nat (height b)) /\
     Cell.get_state cell (cells b) = Ok s /\
     toggle_cell b x y = (Ok [(cell, flip s)], b') /\
     cells b' = <[cell := flip s]> (cells b) /\
     _generation b' = _generation b /\
     same_frame b b').
Proof.
  intros Hr. apply reachable_shape in Hr as Hs. split.
  - intros Hout. unfold toggle_cell. by rewrite get_cell_out.
  - intros [Hx Hy].
    destruct (toggle_cell_in b x y Hs Hx Hy) as (s & Hsome & Hcoord & Htoggle).
    eexists _, s, _. split; [by apply get_cell_in|]. split; [exact Hcoord|].
    split; [unfold Cell.get_state; by rewrite Hsome|].
    split; [exact Htoggle|]. simpl. split; [done|]. split; [done|].
    split; simpl; try done. by rewrite length_insert.
Qed.

Lemma C3_toggle_cell_amended_witness :
  reachable (board_of (fun _ => 1) 2 2) /\
  exists cell s b',
    get_cell (board_of (fun _ => 1) 2 2) (-1) 0 = Ok cell /\
    get_coord (board_of (fun _ => 1) 2 2) cell = Ok (1, 0) /\
    Cell.get_state cell (cells (board_of (fun _ => 1) 2 2)) = Ok s /\
    toggle_cell (board_of (fun _ => 1) 2 2) (-1) 0 = (Ok [(cell, flip s)], b') /\
    cells b' = <[cell := flip s]> (cells (board_of (fun _ => 1) 2 2)) /\
    _generation b' = _generation (board_of (fun _ => 1) 2 2) /\
    same_frame (board_of (fun _ => 1) 2 2) b'.
Proof.
  assert (reachable (board_of (fun _ => 1) 2 2)) as Hr.
  { apply (reach_init (fun _ => 1) (config_of 2 2) 0 _ 4%nat). vm_compute. reflexivity. }
  split; [exact Hr|].
  apply (C3_toggle_cell_amended (board_of (fun _ => 1) 2 2) (-1) 0 Hr).
  vm_compute. repeat split; discriminate.
Defined.

(** C4 (code defect).  The claim: after [clear] every cell is dead,
    [_live_count] is 0, the generation is as before and no delta is returned.
    [clear] only writes cell states ([reset] is the caller that zeroes the
    counter after it): on a board of one live cell, the cell is dead after
    [clear] and [_live_count] is still 1. *)
Theorem C4_clear_keeps_live_count :
  let a := board_of (fun _ => 0) 1 1 in
  cells a = [alive] /\ _live_count a = 1 /\
  cells (clear a) = [dead] /\ _live_count (clear a) = 1 /\
  _generation (clear a) = _generation a.
Proof. vm_compute. repeat split. Qed.

(** C5 (counterexample).  The claim has construction and resize fail when a
    dimension is not positive; with width 0 and height -2 both return a board,
    one without cells. *)
Lemma C5_nonpositive_dimensions_counterexample :
  0 <= 0 /\ -2 <= 0 /\
  __init__ (fun _ => 0) (config_of 0 (-2)) 0 = Ok (mk 0 (-2) [] ∅ ∅ 0 0 [] [], 0%nat) /\
  GameBoardGUI.change_size (fun _ => 0) (config_of 0 (-2)) 0
    = Ok (mk 0 (-2) [] ∅ ∅ 0 0 [] [], 0%nat).
Proof. vm_compute. repeat split; discriminate. Qed.

(** C5 (amended).  Construction and resize never fail, whatever the
    dimensions: the board has [max 0 width * max 0 height] cells, none when a
    dimension is not positive.  Resize ([change_size]) builds a board from the
    configured dimensions and reseeds it with [reset]: the result is the board
    that construction returns for the same dimensions from the draws that
    follow those of the discarded one, with cells, neighbour map, counters and
    initial changes rebuilt and generation 0. *)
Theorem C5_construction_and_resize_amended (rng : nat -> Z) (config : GameConfig.t)
  (k : nat) :
  let n := (Z.to_nat (GameConfig.get_num_cells_x config)
            * Z.to_nat (GameConfig.get_num_cells_y config))%nat in
  exists b b',
    __init__ rng config k = Ok (b, (k + n)%nat) /\
    length (cells b) = n /\
    GameBoardGUI.change_size rng config k = Ok (b', (k + n + n)%nat) /\
    __init__ rng config (k + n) = Ok (b', (k + n + n)%nat) /\
    _generation b' = 0 /\
    _num_cells_x b' = GameConfig.get_num_cells_x config /\
    _num_cells_y b' = GameConfig.get_num_cells_y config.
Proof.
  intros n.
  destruct (__init___spec rng config k) as (b & Hb & Hx & Hy & Hs & Hseed).
  destruct (__init___spec rng config (k + n)) as (b2 & Hb2 & Hx2 & Hy2 & Hs2 & Hseed2).
  fold n in Hb, Hb2.
  destruct (reset_spec rng b (k + n) Hs) as (b' & Hreset & Hf & Hseed').
  assert (width b = Z.to_nat (GameConfig.get_num_cells_x config)) as Hw
    by (unfold width; by rewrite Hx).
  assert (height b = Z.to_nat (GameConfig.get_num_cells_y config)) as Hh
    by (unfold height; by rewrite Hy).
  rewrite Hw, Hh in Hreset. fold n in Hreset.
  assert (b2 = b') as ->.
  { assert (same_frame b' b2) as Hf2.
    { apply shape_frame; [by apply (same_frame_shape b)|done| |].
      - rewrite Hx2. destruct Hf. congruence.
      - rewrite Hy2. destruct Hf. congruence. }
    assert (width b2 = width b' /\ height b2 = height b') as [Hw2 Hh2].
    { destruct Hf2 as [Hx' Hy' _ _ _ _]. unfold width, height. by rewrite Hx', Hy'. }
    destruct Hseed2 as [Hg2 Hc2 Hl2 Hi2]. destruct Hseed' as [Hg' Hc' Hl' Hi'].
    assert (cells b2 = cells b') as Hcells by (rewrite Hc2, Hc', Hw2, Hh2; done).
    apply board_eq; try done; congruence. }
  exists b, b'. split; [done|]. split.
  { rewrite (shape_cells _ Hs), Hw, Hh. done. }
  split.
  { unfold GameBoardGUI.change_size. rewrite Hb. simpl. by rewrite Hreset. }
  split; [done|]. split; [apply Hseed2|]. done.
Qed.

(** C6 (counterexample).  The claim has a failing [update] leave generation
    and [_live_count] as they were.  On a 2x1 board with cells dead and alive,
    under a table where a dead cell with one live neighbour is born and the
    entry for a live cell with no live neighbour has been removed, [update]
    raises [KeyError] at the second cell: no cell has changed, but the
    generation has gone from 0 to 1 and [_live_count] from 1 to 2. *)
Lemma C6_partial_failure_counterexample :
  let b := board_of (fun i => if decide (i = 1%nat) then 0 else 1) 2 1 in
  let rules : gmap CellState (gmap Z CellState) :=
    <[alive := delete 0 (default ∅ (GameRules.__init__ !! alive))]>
      (<[dead := <[1 := alive]> (default ∅ (GameRules.__init__ !! dead))]>
         GameRules.__init__) in
  cells b = [dead; alive] /\ _generation b = 0 /\ _live_count b = 1 /\
  (update rules b).1 = Raise KeyError /\
  cells (update rules b).2 = [dead; alive] /\
  _generation (update rules b).2 = 1 /\
  _live_count (update rules b).2 = 2 /\
  _generation (update rules b).2 <> _generation b /\
  _live_count (update rules b).2 <> _live_count b.
Proof. vm_compute. repeat split; discriminate. Qed.

(** C6 (amended).  On a reachable board and for every rule table, [update]
    either commits the generation in full (every cell of the grid holds the
    state the table gives for its previous state and previous live-neighbour
    count, [_live_count] is adjusted by births minus deaths, the generation is
    one more) or raises [KeyError] for a rule lookup that has no entry; in the
    latter case no cell state has changed, but the generation counter is
    already one more and [_live_count] has been adjusted for the changing
    cells scanned before the failing one.  With a table that has an entry for
    both states and every count from 0 to 8, [update] does not raise. *)
Theorem C6_update_commits_or_keeps_cells (rules : gmap CellState (gmap Z CellState))
  (b : t) :
  reachable b ->
  (rules_total rules -> exists deltas b', update rules b = (Ok deltas, b')) /\
  (forall deltas b', update rules b = (Ok deltas, b') ->
     _generation b' = _generation b + 1 /\
     _live_count b' = _live_count b + Z.of_nat (length (spawned deltas))
                                    - Z.of_nat (length (died deltas)) /\
     forall x y cell, get_cell b x y = Ok cell ->
       exists n cur next,
         _get_num_live_neighbors b cell = Ok n /\
         Cell.get_state cell (cells b) = Ok cur /\
         GameRules.get_next_state rules cur n = Ok next /\
         Cell.get_state cell (cells b') = Ok next) /\
  (forall e b', update rules b = (Raise e, b') ->
     e = KeyError /\
     cells b' = cells b /\
     _generation b' = _generation b + 1 /\
     exists pre cell post n cur,
       concat (_board b) = pre ++ cell :: post /\
       _get_num_live_neighbors b cell = Ok n /\
       Cell.get_state cell (cells b) = Ok cur /\
       GameRules.get_next_state rules cur n = Raise KeyError /\
       _live_count b' = live_after (_live_count b) (changes rules b pre)).
Proof.
  intros Hr. apply reachable_shape in Hr as Hs.
  split; [by apply update_total|]. split.
  - intros deltas b' Hup.
    destruct (update_ok _ _ _ _ Hup) as (_ & Hg & Hl & _ & _ & Hcells).
    split; [done|]. split; [done|].
    intros x y cell Hcell.
    destruct (Hcells cell) as (n & cur & next & Hn & Hcur & Hnext & Hpost & _).
    { by apply (get_cell_elem b x y). }
    by exists n, cur, next.
  - intros e b' Hup.
    destruct (update_raise _ _ _ _ Hup)
      as (Hc & Hg & _ & _ & pre & cell & post & Hcs & Htr & Hl).
    destruct (shape_reads b cell Hs) as (n & cur & Hn & _ & Hcur).
    { rewrite Hcs. apply elem_of_app. right. left. }
    unfold transition in Htr. rewrite Hn, Hcur in Htr. simpl in Htr.
    destruct (GameRules.get_next_state rules cur n) as [next|e'] eqn:Hnext; [done|].
    simpl in Htr. injection Htr as ->.
    pose proof (get_next_state_raise _ _ _ _ Hnext) as ->.
    repeat (split; [done|]). by exists pre, cell, post, n, cur.
Qed.

Lemma C6_update_commits_or_keeps_cells_witness :
  reachable (board_of (fun i => if decide (i = 1%nat) then 0 else 1) 2 1) /\
  KeyError = KeyError /\
  cells (update (delete alive GameRules.__init__)
           (board_of (fun i => if decide (i = 1%nat) then 0 else 1) 2 1)).2
    = cells (board_of (fun i => if decide (i = 1%nat) then 0 else 1) 2 1) /\
  _generation (update (delete alive GameRules.__init__)
                 (board_of (fun i => if decide (i = 1%nat) then 0 else 1) 2 1)).2
    = _generation (board_of (fun i => if decide (i = 1%nat) then 0 else 1) 2 1) + 1 /\
  exists pre cell post n cur,
    concat (_board (board_of (fun i => if decide (i = 1%nat) then 0 else 1) 2 1))
      = pre ++ cell :: post /\
    _get_num_live_neighbors
      (board_of (fun i => if decide (i = 1%nat) then 0 else 1) 2 1) cell = Ok n /\
    Cell.get_state cell
      (cells (board_of (fun i => if decide (i = 1%nat) then 0 else 1) 2 1)) = Ok cur /\
    GameRules.get_next_state (delete alive GameRules.__init__) cur n = Raise KeyError /\
    _live_count (update (delete alive GameRules.__init__)
                   (board_of (fun i => if decide (i = 1%nat) then 0 else 1) 2 1)).2
      = live_after
          (_live_count (board_of (fun i => if decide (i = 1%nat) then 0 else 1) 2 1))
          (changes (delete alive GameRules.__init__)
             (board_of (fun i => if decide (i = 1%nat) then 0 else 1) 2 1) pre).
Proof.
  assert (reachable (board_of (fun i => if decide (i = 1%nat) then 0 else 1) 2 1)) as Hr.
  { apply (reach_init (fun i => if decide (i = 1%nat) then 0 else 1) (config_of 2 1)
                      0 _ 2%nat).
    vm_compute. reflexivity. }
  split; [exact Hr|].
  apply (C6_update_commits_or_keeps_cells (delete alive GameRules.__init__) _ Hr).
  vm_compute. reflexivity.
Defined.

(** C7.  For a grid of width and height at least 2 and a position (x, y) in
    it, the neighbour list that construction stores for the cell at (x, y)
    consists, in direction order and without repetition, of the cells at the
    positions [(x + dx, y + dy)], [(dx, dy)] among the eight directions, whose
    two coordinates lie in [0, width) x [0, height); it has 3 entries at a
    corner, 5 on an edge off the corners and 8 in the interior. *)
Theorem C7_neighbor_topology (rng : nat -> Z) (config : GameConfig.t) (k : nat)
  (x y : Z) :
  2 <= GameConfig.get_num_cells_x config ->
  2 <= GameConfig.get_num_cells_y config ->
  0 <= x < GameConfig.get_num_cells_x config ->
  0 <= y < GameConfig.get_num_cells_y config ->
  exists b k' cell ns ps,
    __init__ rng config k = Ok (b, k') /\
    get_cell b x y = Ok cell /\
    get_coord b cell = Ok (x, y) /\
    _neighbors b !! cell = Some ns /\
    Forall2 (fun neighbor p => get_coord b neighbor = Ok p) ns ps /\
    NoDup ps /\
    (forall p : Z * Z,
       p ∈ ps <->
         (exists d : Z * Z, d ∈ _DIRECTIONS /\ p = (x + d.1, y + d.2)) /\
         0 <= p.1 < GameConfig.get_num_cells_x config /\
         0 <= p.2 < GameConfig.get_num_cells_y config) /\
    length ns =
      if decide ((x = 0 \/ x = GameConfig.get_num_cells_x config - 1) /\
                 (y = 0 \/ y = GameConfig.get_num_cells_y config - 1)) then 3%nat
      else if decide (x = 0 \/ x = GameConfig.get_num_cells_x config - 1 \/
                      y = 0 \/ y = GameConfig.get_num_cells_y config - 1) then 5%nat
      else 8%nat.
Proof.
  intros Hnx Hny Hx Hy.
  destruct (__init___spec rng config k) as (b & Hb & Hbx & Hby & Hs & _).
  set (nx := GameConfig.get_num_cells_x config) in *.
  set (ny := GameConfig.get_num_cells_y config) in *.
  assert (Z.of_nat (width b) = nx) as Hw by (unfold width; lia).
  assert (Z.of_nat (height b) = ny) as Hh by (unfold height; lia).
  assert (get_cell b x y = Ok (cell_at (width b) (x, y))) as Hcell.
  { rewrite get_cell_in by (done || lia). rewrite Hw, Hh, !Z.mod_small by lia. done. }
  destruct (cell_at_in_store b x y Hs) as [Hlt Hpos]; [lia|lia|].
  exists b, (k + Z.to_nat nx * Z.to_nat ny)%nat, (cell_at (width b) (x, y)),
    (map (cell_at (width b)) (neighbor_positions nx ny (x, y))),
    (neighbor_positions nx ny (x, y)).
  split; [exact Hb|]. split; [exact Hcell|]. split.
  { unfold get_coord, dict_getitem. rewrite (shape_positions _ Hs).
    rewrite decide_True by (rewrite <- (shape_cells _ Hs); done). by rewrite Hpos. }
  split.
  { rewrite (shape_neighbors _ Hs).
    rewrite decide_True by (rewrite <- (shape_cells _ Hs); done).
    by rewrite Hpos, Hbx, Hby. }
  split.
  { apply Forall2_fmap_l, Forall_Forall2_diag, Forall_forall. intros p Hp. simpl.
    apply get_coord_cell_at; [done|]. rewrite Hbx, Hby.
    unfold neighbor_positions in Hp. by apply list_elem_of_filter in Hp as [Hp _]. }
  split; [apply NoDup_neighbor_positions|].
  split; [intros p; apply elem_of_neighbor_positions|].
  rewrite length_map. by apply neighbor_positions_length.
Qed.

Lemma C7_neighbor_topology_witness :
  2 <= GameConfig.get_num_cells_x (config_of 3 4) /\
  2 <= GameConfig.get_num_cells_y (config_of 3 4) /\
  0 <= 0 < GameConfig.get_num_cells_x (config_of 3 4) /\
  0 <= 2 < GameConfig.get_num_cells_y (config_of 3 4) /\
  exists b k' cell ns ps,
    __init__ (fun _ => 1) (config_of 3 4) 0 = Ok (b, k') /\
    get_cell b 0 2 = Ok cell /\
    get_coord b cell = Ok (0, 2) /\
    _neighbors b !! cell = Some ns /\
    Forall2 (fun neighbor p => get_coord b neighbor = Ok p) ns ps /\
    NoDup ps /\
    (forall p : Z * Z,
       p ∈ ps <->
         (exists d : Z * Z, d ∈ _DIRECTIONS /\ p = (0 + d.1, 2 + d.2)) /\
         0 <= p.1 < GameConfig.get_num_cells_x (config_of 3 4) /\
         0 <= p.2 < GameConfig.get_num_cells_y (config_of 3 4)) /\
    length ns =
      if decide ((0 = 0 \/ 0 = GameConfig.get_num_cells_x (config_of 3 4) - 1) /\
                 (2 = 0 \/ 2 = GameConfig.get_num_cells_y (config_of 3 4) - 1)) then 3%nat
      else if decide (0 = 0 \/ 0 = GameConfig.get_num_cells_x (config_of 3 4) - 1 \/
                      2 = 0 \/ 2 = GameConfig.get_num_cells_y (config_of 3 4) - 1) then 5%nat
      else 8%nat.
Proof.
  assert (2 <= GameConfig.get_num_cells_x (config_of 3 4)) as H1 by (simpl; lia).
  assert (2 <= GameConfig.get_num_cells_y (config_of 3 4)) as H2 by (simpl; lia).
  assert (0 <= 0 < GameConfig.get_num_cells_x (config_of 3 4)) as H3 by (simpl; lia).
  assert (0 <= 2 < GameConfig.get_num_cells_y (config_of 3 4)) as H4 by (simpl; lia).
  split; [exact H1|]. split; [exact H2|]. split; [exact H3|]. split; [exact H4|].
  exact (C7_neighbor_topology (fun _ => 1) (config_of 3 4) 0 0 2 H1 H2 H3 H4).
Defined.

(** C8 (code defect).  The claim: after [set_rule(dead, 0, alive)], a step on
    a board with no live cell makes every cell alive and leaves
    [_live_count = width * height].  [set_rule] does overwrite the one entry,
    and every cell does become alive, but [clear] has left the counter as it
    was: on a 1x1 board seeded alive and then cleared, the step returns the
    one cell as alive and [_live_count] is 2, not 1. *)
Theorem C8_live_count_after_clear_and_rule :
  let a := clear (board_of (fun _ => 0) 1 1) in
  let rules : gmap CellState (gmap Z CellState) :=
    <[dead := <[0 := alive]> (default ∅ (GameRules.__init__ !! dead))]>
      GameRules.__init__ in
  GameRules.set_rule GameRules.__init__ dead 0 alive = Ok rules /\
  cells a = [dead] /\
  (update rules a).1 = Ok [(0%nat, alive)] /\
  cells (update rules a).2 = [alive] /\
  (Z.of_nat (width a * height a) = 1 /\ _live_count (update rules a).2 = 2).
Proof. vm_compute. repeat split. Qed.

(** C9.  On a reachable board, toggling an in-bounds position twice succeeds
    both times; the cell is flipped in between, and the board after the second
    call is the board before the first: the cell's state, [_live_count] and
    every other field are as they were. *)
Theorem C9_toggle_twice (b : t) (x y : Z) :
  reachable b ->
  0 <= x < _num_cells_x b -> 0 <= y < _num_cells_y b ->
  exists cell s d1 b1 d2 b2,
    get_cell b x y = Ok cell /\
    Cell.get_state cell (cells b) = Ok s /\
    toggle_cell b x y = (Ok d1, b1) /\
    Cell.get_state cell (cells b1) = Ok (flip s) /\
    toggle_cell b1 x y = (Ok d2, b2) /\
    Cell.get_state cell (cells b2) = Ok s /\
    _live_count b2 = _live_count b /\
    b2 = b.
Proof.
  intros Hr Hx Hy. apply reachable_shape in Hr as Hs.
  assert (- Z.of_nat (width b) <= x < Z.of_nat (width b)) as Hx'
    by (unfold width; lia).
  assert (- Z.of_nat (height b) <= y < Z.of_nat (height b)) as Hy'
    by (unfold height; lia).
  destruct (toggle_cell_in b x y Hs Hx' Hy') as (s & Hsome & _ & Htoggle).
  set (c := cell_at (width b) (x mod Z.of_nat (width b), y mod Z.of_nat (height b))) in *.
  set (b1 := with_cells (<[c := flip s]> (cells b)) b) in *.
  assert (shape b1) as Hs1.
  { apply (same_frame_shape b); [|done]. split; simpl; try done. by rewrite length_insert. }
  destruct (toggle_cell_in b1 x y Hs1 Hx' Hy') as (s1 & Hsome1 & _ & Htoggle1).
  change (width b1) with (width b) in *. change (height b1) with (height b) in *.
  fold c in Hsome1, Htoggle1.
  apply lookup_lt_Some in Hsome as Hlt.
  assert (s1 = flip s) as ->.
  { unfold b1 in Hsome1. simpl in Hsome1.
    rewrite list_lookup_insert_eq in Hsome1 by done. congruence. }
  assert (with_cells (<[c := flip (flip s)]> (cells b1)) b1 = b) as Hback.
  { unfold b1. destruct b. unfold with_cells. simpl in *. f_equal.
    rewrite list_insert_insert_eq. replace (flip (flip s)) with s by (by destruct s).
    by apply list_insert_id. }
  rewrite Hback in Htoggle1.
  exists c, s, [(c, flip s)], b1, [(c, flip (flip s))], b.
  split; [by apply get_cell_in|].
  split; [unfold Cell.get_state; by rewrite Hsome|].
  split; [exact Htoggle|].
  split; [unfold Cell.get_state; by rewrite Hsome1|].
  split; [exact Htoggle1|].
  split; [unfold Cell.get_state; by rewrite Hsome|]. done.
Qed.

Lemma C9_toggle_twice_witness :
  reachable (board_of (fun _ => 0) 3 3) /\
  0 <= 1 < _num_cells_x (board_of (fun _ => 0) 3 3) /\
  0 <= 2 < _num_cells_y (board_of (fun _ => 0) 3 3) /\
  exists cell s d1 b1 d2 b2,
    get_cell (board_of (fun _ => 0) 3 3) 1 2 = Ok cell /\
    Cell.get_state cell (cells (board_of (fun _ => 0) 3 3)) = Ok s /\
    toggle_cell (board_of (fun _ => 0) 3 3) 1 2 = (Ok d1, b1) /\
    Cell.get_state cell (cells b1) = Ok (flip s) /\
    toggle_cell b1 1 2 = (Ok d2, b2) /\
    Cell.get_state cell (cells b2) = Ok s /\
    _live_count b2 = _live_count (board_of (fun _ => 0) 3 3) /\
    b2 = board_of (fun _ => 0) 3 3.
Proof.
  assert (0 <= 1 < _num_cells_x (board_of (fun _ => 0) 3 3)) as Hx
    by (vm_compute; split; discriminate || reflexivity).
  assert (0 <= 2 < _num_cells_y (board_of (fun _ => 0) 3 3)) as Hy
    by (vm_compute; split; discriminate || reflexivity).
  assert (reachable (board_of (fun _ => 0) 3 3)) as Hr.
  { apply (reach_init (fun _ => 0) (config_of 3 3) 0 _ 9%nat). vm_compute. reflexivity. }
  split; [exact Hr|]. split; [exact Hx|]. split; [exact Hy|].
  exact (C9_toggle_twice (board_of (fun _ => 0) 3 3) 1 2 Hr Hx Hy).
Defined.

(** C10.  On a reachable board, the deltas that [update] returns list the
    changed cells, in row-major scan order: a pair of a cell and a state is in
    the list exactly when the cell is a cell of the grid, has that state
    after the step and had another state before it (the list is the one that
    a scan of the grid collects), and of two entries the earlier one's cell
    lies in a row with smaller y, or in the same row at smaller x.  The result
    of [update] depends on the cell states and the rule table alone: two
    reachable boards of the same dimensions with the same cell states give,
    under one rule table, the same result, delta for delta, and their cells
    have the same coordinates.  (With a total table there is a delta list.) *)
Theorem C10_update_order_and_determinism (rules : gmap CellState (gmap Z CellState))
  (b : t) :
  reachable b ->
  (rules_total rules -> exists deltas b', update rules b = (Ok deltas, b')) /\
  (forall deltas b', update rules b = (Ok deltas, b') ->
     deltas = changes rules b (concat (_board b)) /\
     (forall (c : Cell) (s : CellState),
        (c, s) ∈ deltas <->
          c ∈ concat (_board b) /\
          Cell.get_state c (cells b') = Ok s /\
          Cell.get_state c (cells b) <> Ok s) /\
     StronglySorted
       (fun d1 d2 : Cell * CellState =>
          exists p1 p2, get_coord b d1.1 = Ok p1 /\ get_coord b d2.1 = Ok p2 /\
                        row_major_lt p1 p2)
       deltas) /\
  (forall b2, reachable b2 ->
     _num_cells_x b2 = _num_cells_x b -> _num_cells_y b2 = _num_cells_y b ->
     cells b2 = cells b ->
     (update rules b2).1 = (update rules b).1 /\
     forall cell, get_coord b2 cell = get_coord b cell).
Proof.
  intros Hr. apply reachable_shape in Hr as Hs.
  split; [by apply update_total|]. split.
  - intros deltas b' Hup.
    split; [by destruct (update_ok _ _ _ _ Hup) as (-> & _)|].
    split; [by apply (update_lists_changed rules)|].
    destruct (update_ok _ _ _ _ Hup) as (-> & _).
    rewrite (shape_board _ Hs), concat_grid.
    eapply StronglySorted_weaken; [|apply changes_seq_sorted].
    intros [c1 s1] [c2 s2] _ _ [H1 H2]. simpl in *.
    exists (pos_of (width b) c1), (pos_of (width b) c2).
    unfold get_coord, dict_getitem. rewrite !(shape_positions _ Hs).
    rewrite !decide_True by lia. split; [done|]. split; [done|].
    apply pos_of_row_major; [done|]. destruct (width b); lia.
  - intros b2 Hr2 Hx Hy Hc. apply reachable_shape in Hr2 as Hs2.
    destruct (shape_frame b b2 Hs Hs2 Hx Hy) as [_ _ Hb Hp Hn _].
    split; [by apply update_result_ext|].
    intros cell. unfold get_coord. by rewrite Hp.
Qed.

Lemma C10_update_order_and_determinism_witness :
  let b := board_of (fun i => if bool_decide (3 <= i <= 5)%nat then 0 else 1) 3 3 in
  let deltas := [(1%nat, alive); (3%nat, dead); (5%nat, dead); (7%nat, alive)] in
  reachable b /\
  update GameRules.__init__ b = (Ok deltas, (update GameRules.__init__ b).2) /\
  deltas = changes GameRules.__init__ b (concat (_board b)) /\
  (forall (c : Cell) (s : CellState),
     (c, s) ∈ deltas <->
       c ∈ concat (_board b) /\
       Cell.get_state c (cells (update GameRules.__init__ b).2) = Ok s /\
       Cell.get_state c (cells b) <> Ok s) /\
  StronglySorted
    (fun d1 d2 : Cell * CellState =>
       exists p1 p2, get_coord b d1.1 = Ok p1 /\ get_coord b d2.1 = Ok p2 /\
                     row_major_lt p1 p2)
    deltas.
Proof.
  cbn zeta.
  set (b := board_of (fun i => if bool_decide (3 <= i <= 5)%nat then 0 else 1) 3 3).
  assert (reachable b) as Hr.
  { apply (reach_init (fun i => if bool_decide (3 <= i <= 5)%nat then 0 else 1)
             (config_of 3 3) 0 _ 9%nat). vm_compute. reflexivity. }
  assert (update GameRules.__init__ b
          = (Ok [(1%nat, alive); (3%nat, dead); (5%nat, dead); (7%nat, alive)],
             (update GameRules.__init__ b).2)) as Hup
    by (vm_compute; reflexivity).
  split; [exact Hr|]. split; [exact Hup|].
  exact (proj1 (proj2 (C10_update_order_and_determinism GameRules.__init__ b Hr))
           _ _ Hup).
Defined.

(** ** Further properties: the rule table *)

Lemma default_rules_rows :
  GameRules.__init__ !! alive =
    Some (<[3 := alive]> (<[2 := alive]> (GameRules.dict_from_keys [0; 1; 4; 5; 6; 7; 8] dead))) /\
  GameRules.__init__ !! dead =
    Some (<[3 := alive]> (GameRules.dict_from_keys [0; 1; 2; 4; 5; 6; 7; 8] dead)).
Proof.
  unfold GameRules.__init__. split.
  - rewrite lookup_insert_ne by done. rewrite lookup_insert_ne by done.
    rewrite lookup_insert_eq. by rewrite lookup_insert_eq.
  - rewrite lookup_insert_eq. by rewrite lookup_insert_eq.
Qed.

Lemma lookup_dict_from_keys (ks : list Z) (v : CellState) (n : Z) :
  GameRules.dict_from_keys ks v !! n = if decide (n ∈ ks) then Some v else None.
Proof.
  unfold GameRules.dict_from_keys.
  assert (forall d : gmap Z CellState,
            foldl (fun d i => <[i := v]> d) d ks !! n =
              if decide (n ∈ ks) then Some v else d !! n) as H.
  { induction ks as [|k ks IH]; intros d; simpl.
    - done.
    - rewrite IH. destruct (decide (n ∈ ks)) as [Hin|Hin].
      + rewrite decide_True; [done|]. by right.
      + destruct (decide (n = k)) as [->|Hne].
        * rewrite lookup_insert_eq, decide_True; [done|]. by left.
        * rewrite lookup_insert_ne by done. rewrite decide_False; [done|].
          intros [?|?]%elem_of_cons; done. }
  rewrite H. case_decide; [done|]. apply lookup_empty.
Qed.

Lemma default_rules_spec (s : CellState) (n : Z) :
  GameRules.get_next_state GameRules.__init__ s n =
    if decide (0 <= n <= 8)
    then Ok (if decide (n = 3 \/ (s = alive /\ n = 2)) then alive else dead)
    else Raise KeyError.
Proof.
  destruct (decide (0 <= n <= 8)) as [Hn|Hn].
  - assert (n = 0 \/ n = 1 \/ n = 2 \/ n = 3 \/ n = 4 \/ n = 5 \/ n = 6 \/ n = 7 \/ n = 8)
      as Hc by lia.
    destruct s; repeat (destruct Hc as [->|Hc]); try subst n; vm_compute; reflexivity.
  - destruct default_rules_rows as [Ha Hd].
    unfold GameRules.get_next_state, dict_getitem.
    destruct s; rewrite ?Ha, ?Hd; cbn [bind];
      rewrite ?lookup_insert_ne by lia; rewrite lookup_dict_from_keys;
      (rewrite decide_False; [done|]);
      intros Hin; repeat (apply elem_of_cons in Hin as [Hin|Hin]; [lia|]);
      by apply elem_of_nil in Hin.
Qed.

(** X1.  The default table is Conway's: for a count from 0 to 8, a live cell
    stays alive with 2 or 3 live neighbours, a dead cell becomes alive with
    exactly 3, and every other cell is dead next; for any other count the
    lookup raises [KeyError]. *)
Theorem X1_default_rules_conway (s : CellState) (n : Z) :
  GameRules.get_next_state GameRules.__init__ s n =
    if decide (0 <= n <= 8)
    then Ok (if decide (n = 3 \/ (s = alive /\ n = 2)) then alive else dead)
    else Raise KeyError.
Proof. apply default_rules_spec. Qed.

(** X2.  [set_rule(state, neighbors, newrule)] raises [KeyError] when the
    table has no row for [state]; otherwise the next lookup of
    [(state, neighbors)] gives [newrule] and every other lookup, present or
    absent, is as before. *)
Theorem X2_set_rule_then_get_next_state (rules : gmap CellState (gmap Z CellState))
  (s : CellState) (n : Z) (v : CellState) :
  (rules !! s = None -> GameRules.set_rule rules s n v = Raise KeyError) /\
  (forall row, rules !! s = Some row ->
     exists rules',
       GameRules.set_rule rules s n v = Ok rules' /\
       GameRules.get_next_state rules' s n = Ok v /\
       forall s' n', (s', n') <> (s, n) ->
         GameRules.get_next_state rules' s' n' = GameRules.get_next_state rules s' n').
Proof.
  split.
  - intros Hnone. unfold GameRules.set_rule, dict_getitem. by rewrite Hnone.
  - intros row Hrow.
    assert (GameRules.set_rule rules s n v = Ok (<[s := <[n := v]> row]> rules)) as Hset.
    { unfold GameRules.set_rule, dict_getitem. by rewrite Hrow. }
    eexists. split; [exact Hset|]. by apply set_rule_spec.
Qed.

(** X3.  On a table with an entry for both states and every count from 0 to 8
    (the default table is one), [set_rule] does not fail when [neighbors] is
    in that range or not, and the table it leaves has all those entries
    again: no sequence of rule edits makes a step fail. *)
Theorem X3_set_rule_keeps_table_total (rules : gmap CellState (gmap Z CellState))
  (s : CellState) (n : Z) (v : CellState) :
  rules_total rules ->
  exists rules', GameRules.set_rule rules s n v = Ok rules' /\ rules_total rules'.
Proof.
  intros Ht. destruct (Ht s 0) as [s0 Hs0]; [lia|].
  unfold GameRules.get_next_state, dict_getitem in Hs0.
  destruct (rules !! s) as [row|] eqn:Hrow; [|done].
  assert (GameRules.set_rule rules s n v = Ok (<[s := <[n := v]> row]> rules)) as Hset.
  { unfold GameRules.set_rule, dict_getitem. by rewrite Hrow. }
  eexists. split; [exact Hset|]. by apply (set_rule_total rules s n v).
Qed.

Lemma X3_set_rule_keeps_table_total_witness :
  rules_total GameRules.__init__ /\
  exists rules',
    GameRules.set_rule GameRules.__init__ dead 12 alive = Ok rules' /\ rules_total rules'.
Proof.
  split; [exact rules_total_init|].
  exact (X3_set_rule_keeps_table_total GameRules.__init__ dead 12 alive rules_total_init).
Defined.

(** ** Further properties: positions and neighbours *)

(** X4.  On a reachable board, position and cell determine each other: the
    cell that [get_cell(x, y)] returns has coordinates
    [(x mod width, y mod height)] in [get_coord] (that is [(x, y)] for
    non-negative indexes), and if [get_coord(cell)] is [(x, y)] then
    [get_cell(x, y)] is that cell. *)
Theorem X4_get_cell_get_coord (b : t) (x y : Z) (cell : Cell) :
  reachable b ->
  (get_cell b x y = Ok cell ->
   get_coord b cell = Ok (x mod Z.of_nat (width b), y mod Z.of_nat (height b)) /\
   (0 <= x -> 0 <= y -> get_coord b cell = Ok (x, y))) /\
  (get_coord b cell = Ok (x, y) -> get_cell b x y = Ok cell).
Proof.
  intros Hr. apply reachable_shape in Hr as Hs. split.
  - intros Hcell.
    destruct (decide (- Z.of_nat (width b) <= x < Z.of_nat (width b) /\
                      - Z.of_nat (height b) <= y < Z.of_nat (height b))) as [[Hx Hy]|Hout].
    + destruct (toggle_cell_in b x y Hs Hx Hy) as (_ & _ & Hcoord & _).
      rewrite get_cell_in in Hcell by done. injection Hcell as <-.
      split; [exact Hcoord|]. intros Hx0 Hy0.
      rewrite Hcoord. by rewrite !Z.mod_small by lia.
    + by rewrite get_cell_out in Hcell.
  - intros Hcoord. apply get_coord_shape in Hcoord as [Hc Hp]; [|done].
    pose proof (pos_of_in_grid b cell Hc) as Hin. rewrite <- Hp in Hin.
    apply in_grid_true in Hin as [Hx Hy]. simpl in Hx, Hy.
    rewrite get_cell_in by (done || unfold width, height; lia).
    rewrite !Z.mod_small by (unfold width, height; lia).
    by rewrite Hp, cell_at_pos_of.
Qed.

Lemma X4_get_cell_get_coord_witness :
  reachable (board_of (fun _ => 1) 3 2) /\
  (get_cell (board_of (fun _ => 1) 3 2) 2 1 = Ok 5%nat ->
   get_coord (board_of (fun _ => 1) 3 2) 5%nat
     = Ok (2 mod Z.of_nat (width (board_of (fun _ => 1) 3 2)),
           1 mod Z.of_nat (height (board_of (fun _ => 1) 3 2))) /\
   (0 <= 2 -> 0 <= 1 -> get_coord (board_of (fun _ => 1) 3 2) 5%nat = Ok (2, 1))) /\
  (get_coord (board_of (fun _ => 1) 3 2) 5%nat = Ok (2, 1) ->
   get_cell (board_of (fun _ => 1) 3 2) 2 1 = Ok 5%nat).
Proof.
  assert (reachable (board_of (fun _ => 1) 3 2)) as Hr.
  { apply (reach_init (fun _ => 1) (config_of 3 2) 0 _ 6%nat). vm_compute. reflexivity. }
  split; [exact Hr|].
  exact (X4_get_cell_get_coord (board_of (fun _ => 1) 3 2) 2 1 5%nat Hr).
Defined.

Lemma opposite_direction (d : Z * Z) :
  d ∈ _DIRECTIONS -> (- d.1, - d.2) ∈ _DIRECTIONS /\ d <> (0, 0).
Proof.
  rewrite _DIRECTIONS_eq. intros Hd.
  repeat (apply elem_of_cons in Hd as [->|Hd]; [split; [set_solver|done]|]).
  by apply elem_of_nil in Hd.
Qed.

(** X5.  On a reachable board the stored neighbour relation is symmetric and
    irreflexive, and no neighbour is listed twice: if [c2] is in the
    neighbour list of [c1] then [c2] is another cell of the grid and [c1] is
    in the neighbour list of [c2]. *)
Theorem X5_neighbors_symmetric (b : t) (c1 c2 : Cell) (ns1 : list Cell) :
  reachable b ->
  _neighbors b !! c1 = Some ns1 ->
  NoDup ns1 /\
  (c2 ∈ ns1 ->
   c1 <> c2 /\ c2 ∈ concat (_board b) /\
   exists ns2, _neighbors b !! c2 = Some ns2 /\ c1 ∈ ns2).
Proof.
  intros Hr Hn1. apply reachable_shape in Hr as Hs.
  rewrite (shape_neighbors _ Hs) in Hn1.
  case_decide as Hc1; [|done]. injection Hn1 as <-.
  split.
  - apply NoDup_fmap_2_strong; [|apply NoDup_neighbor_positions].
    intros p q Hp Hq Heq.
    apply elem_of_neighbor_positions in Hp as (_ & Hp).
    apply elem_of_neighbor_positions in Hq as (_ & Hq).
    apply in_grid_true in Hp, Hq.
    apply pos_of_cell_at in Hp, Hq.
    change (Z.to_nat (_num_cells_x b)) with (width b) in Hp, Hq.
    rewrite <- Hp, <- Hq. by rewrite Heq.
  - intros Hc2. apply list_elem_of_fmap in Hc2 as (p2 & -> & Hp2).
    apply elem_of_neighbor_positions in Hp2 as ((d & Hd & Hp2) & Hin2).
    apply in_grid_true in Hin2.
    destruct (opposite_direction d Hd) as [Hopp Hd0].
    pose proof (cell_at_bound _ _ p2 Hin2) as Hlt2.
    pose proof (pos_of_cell_at _ _ p2 Hin2) as Hpos2.
    change (Z.to_nat (_num_cells_x b)) with (width b) in Hlt2, Hpos2.
    change (Z.to_nat (_num_cells_y b)) with (height b) in Hlt2.
    split; [|split].
    + intros Heq. apply Hd0. rewrite Heq, Hpos2 in Hp2.
      destruct p2, d. simpl in *. injection Hp2 as H1 H2. f_equal; lia.
    + rewrite (shape_board _ Hs), concat_grid. apply elem_of_seq. lia.
    + eexists. rewrite (shape_neighbors _ Hs), decide_True by done.
      split; [reflexivity|]. rewrite Hpos2.
      apply list_elem_of_fmap. exists (pos_of (width b) c1).
      split; [by rewrite cell_at_pos_of|].
      apply elem_of_neighbor_positions. split.
      * exists (- d.1, - d.2). split; [done|]. rewrite Hp2.
        unfold pos_of. simpl. f_equal; lia.
      * apply in_grid_true. by apply pos_of_in_grid.
Qed.

Lemma X5_neighbors_symmetric_witness :
  reachable (board_of (fun _ => 1) 3 3) /\
  _neighbors (board_of (fun _ => 1) 3 3) !! 0%nat = Some [3%nat; 1%nat; 4%nat] /\
  NoDup [3%nat; 1%nat; 4%nat] /\
  (4%nat ∈ [3%nat; 1%nat; 4%nat] ->
   0%nat <> 4%nat /\ 4%nat ∈ concat (_board (board_of (fun _ => 1) 3 3)) /\
   exists ns2, _neighbors (board_of (fun _ => 1) 3 3) !! 4%nat = Some ns2 /\ 0%nat ∈ ns2).
Proof.
  assert (reachable (board_of (fun _ => 1) 3 3)) as Hr.
  { apply (reach_init (fun _ => 1) (config_of 3 3) 0 _ 9%nat). vm_compute. reflexivity. }
  assert (_neighbors (board_of (fun _ => 1) 3 3) !! 0%nat = Some [3%nat; 1%nat; 4%nat])
    as Hn by (vm_compute; reflexivity).
  split; [exact Hr|]. split; [exact Hn|].
  exact (X5_neighbors_symmetric (board_of (fun _ => 1) 3 3) 0%nat 4%nat _ Hr Hn).
Defined.

(** ** Further properties: seeding, reset and clear *)

Lemma seeded_board_unique rng k (b1 b2 : t) :
  shape b1 -> shape b2 ->
  _num_cells_x b2 = _num_cells_x b1 -> _num_cells_y b2 = _num_cells_y b1 ->
  seeded_board rng k b1 -> seeded_board rng k b2 -> b2 = b1.
Proof.
  intros Hs1 Hs2 Hx Hy [Hg1 Hc1 Hl1 Hi1] [Hg2 Hc2 Hl2 Hi2].
  assert (cells b2 = cells b1) as Hc.
  { rewrite Hc1, Hc2. unfold width, height. by rewrite Hx, Hy. }
  apply board_eq; try congruence. by apply shape_frame.
Qed.

Lemma alive_refs_scan b :
  shape b ->
  alive_refs (cells b) =
    filter (fun c => Cell.get_state c (cells b) = Ok alive) (concat (_board b)).
Proof.
  intros Hs. rewrite (shape_board _ Hs), concat_grid, <- (shape_cells _ Hs).
  unfold alive_refs. apply filter_ext_in. intros c _.
  unfold Cell.get_state. destruct (cells b !! c); split; congruence.
Qed.

(** X6.  Construction draws once per cell, row by row: it consumes
    [max(0, width) * max(0, height)] draws, the cell at [(x, y)] is alive
    exactly when draw number [y * width + x] (counted from the first one) is
    0, the generation is 0, and [get_initial_states] lists, in scan order,
    exactly the live cells, whose number is [_live_count]. *)
Theorem X6_construction_seeds_row_major (rng : nat -> Z) (config : GameConfig.t)
  (k : nat) :
  exists b,
    __init__ rng config k =
      Ok (b, (k + Z.to_nat (GameConfig.get_num_cells_x config)
                  * Z.to_nat (GameConfig.get_num_cells_y config))%nat) /\
    _generation b = 0 /\
    (forall x y : Z,
       0 <= x < GameConfig.get_num_cells_x config ->
       0 <= y < GameConfig.get_num_cells_y config ->
       exists cell,
         get_cell b x y = Ok cell /\
         Cell.get_state cell (cells b) =
           Ok (if decide (rng (k + (Z.to_nat y * Z.to_nat (GameConfig.get_num_cells_x config)
                                    + Z.to_nat x))%nat = 0)
               then alive else dead)) /\
    get_initial_states b =
      map (fun c => (c, alive))
          (filter (fun c => Cell.get_state c (cells b) = Ok alive) (concat (_board b))) /\
    _live_count b = Z.of_nat (length (get_initial_states b)).
Proof.
  destruct (__init___spec rng config k) as (b & Hb & Hx & Hy & Hs & [Hg Hc Hl Hi]).
  exists b. split; [exact Hb|]. split; [exact Hg|].
  assert (Z.to_nat (GameConfig.get_num_cells_x config) = width b) as Hw
    by (unfold width; by rewrite Hx).
  assert (Z.to_nat (GameConfig.get_num_cells_y config) = height b) as Hh
    by (unfold height; by rewrite Hy).
  split; [|split].
  - intros x y Hx' Hy'. rewrite Hw.
    assert (0 <= x < Z.of_nat (width b)) as Hxw by lia.
    assert (0 <= y < Z.of_nat (height b)) as Hyh by lia.
    exists (cell_at (width b) (x, y)). split.
    + rewrite get_cell_in by (done || lia). by rewrite !Z.mod_small by lia.
    + destruct (cell_at_in_store b x y Hs Hxw Hyh) as [Hlt _].
      unfold Cell.get_state. rewrite Hc. unfold seeded.
      rewrite list_lookup_fmap, lookup_seq_lt by (by rewrite <- (shape_cells _ Hs)).
      simpl. done.
  - unfold get_initial_states. by rewrite Hi, alive_refs_scan.
  - unfold get_initial_states. by rewrite Hl, Hi, length_map.
Qed.

(** X7.  On a reachable board, [reset] returns exactly what construction
    returns for the board's dimensions and the same draws: whatever the
    generation, the states and the counter were (a stale [_live_count]
    included), the board afterwards is a freshly constructed one, with
    [_live_count] equal to the scanned number of live cells. *)
Theorem X7_reset_is_construction (rng : nat -> Z) (b : t) (k : nat) :
  reachable b ->
  __init__ rng (config_of (_num_cells_x b) (_num_cells_y b)) k = Ok (reset rng b k) /\
  _live_count (reset rng b k).1 = scan_live_count (reset rng b k).1.
Proof.
  intros Hr. split; [|by apply live_count_after_reset].
  apply reachable_shape in Hr as Hs.
  destruct (reset_spec rng b k Hs) as (b' & Hreset & Hf & Hseed').
  destruct (__init___spec rng (config_of (_num_cells_x b) (_num_cells_y b)) k)
    as (b2 & Hb2 & Hx2 & Hy2 & Hs2 & Hseed2).
  simpl in Hx2, Hy2, Hb2. rewrite Hb2, Hreset. do 2 f_equal.
  destruct Hf as [Hx Hy ? ? ? ?].
  apply (seeded_board_unique rng k); try done; try congruence.
  by apply (same_frame_shape b).
Qed.

Lemma X7_reset_is_construction_witness :
  reachable (clear (board_of (fun _ => 0) 2 2)) /\
  __init__ (fun i => Z.of_nat i)
           (config_of (_num_cells_x (clear (board_of (fun _ => 0) 2 2)))
                      (_num_cells_y (clear (board_of (fun _ => 0) 2 2)))) 0
    = Ok (reset (fun i => Z.of_nat i) (clear (board_of (fun _ => 0) 2 2)) 0) /\
  _live_count (reset (fun i => Z.of_nat i) (clear (board_of (fun _ => 0) 2 2)) 0).1
    = scan_live_count (reset (fun i => Z.of_nat i) (clear (board_of (fun _ => 0) 2 2)) 0).1.
Proof.
  assert (reachable (clear (board_of (fun _ => 0) 2 2))) as Hr.
  { apply reach_clear.
    apply (reach_init (fun _ => 0) (config_of 2 2) 0 _ 4%nat). vm_compute. reflexivity. }
  split; [exact Hr|].
  exact (X7_reset_is_construction (fun i => Z.of_nat i) _ 0 Hr).
Defined.

(** X8.  On a reachable board, [clear] leaves every cell dead and changes
    nothing else: dimensions, grid, neighbour map, generation, initial
    changes and also [_live_count] are as before; clearing twice is clearing
    once. *)
Theorem X8_clear_kills_cells_only (b : t) :
  reachable b ->
  clear b = with_cells (replicate (length (cells b)) dead) b /\
  (forall x y cell, get_cell (clear b) x y = Ok cell ->
     Cell.get_state cell (cells (clear b)) = Ok dead) /\
  scan_live_count (clear b) = 0 /\
  clear (clear b) = clear b.
Proof.
  intros Hr. apply reachable_shape in Hr as Hs.
  assert (clear b = with_cells (replicate (length (cells b)) dead) b) as Hclear.
  { rewrite clear_spec, (shape_board _ Hs), concat_grid, <- (shape_cells _ Hs).
    by rewrite write_all_seq. }
  assert (shape (clear b)) as Hsc by (apply (same_frame_shape b); [apply clear_frame|done]).
  split; [exact Hclear|]. split; [|split].
  - intros x y cell Hcell. apply get_cell_elem in Hcell; [|done].
    rewrite (shape_board _ Hsc), concat_grid in Hcell. apply elem_of_seq in Hcell.
    rewrite <- (shape_cells _ Hsc) in Hcell.
    unfold Cell.get_state. rewrite Hclear in *. simpl in *.
    rewrite length_replicate in Hcell. rewrite lookup_replicate_2 by lia. done.
  - rewrite scan_live_count_shape by done. rewrite Hclear. simpl.
    unfold count_alive. rewrite filter_none; [done|].
    intros s Hin. apply elem_of_replicate in Hin as [-> _]. done.
  - rewrite Hclear at 1. rewrite clear_spec. simpl.
    rewrite (shape_board _ Hs), concat_grid, <- (shape_cells _ Hs).
    rewrite <- (length_replicate (length (cells b)) dead) at 1.
    rewrite write_all_seq, length_replicate. rewrite Hclear. done.
Qed.

Lemma X8_clear_kills_cells_only_witness :
  reachable (board_of (fun _ => 0) 2 3) /\
  clear (board_of (fun _ => 0) 2 3)
    = with_cells (replicate (length (cells (board_of (fun _ => 0) 2 3))) dead)
                 (board_of (fun _ => 0) 2 3) /\
  (forall x y cell, get_cell (clear (board_of (fun _ => 0) 2 3)) x y = Ok cell ->
     Cell.get_state cell (cells (clear (board_of (fun _ => 0) 2 3))) = Ok dead) /\
  scan_live_count (clear (board_of (fun _ => 0) 2 3)) = 0 /\
  clear (clear (board_of (fun _ => 0) 2 3)) = clear (board_of (fun _ => 0) 2 3).
Proof.
  assert (reachable (board_of (fun _ => 0) 2 3)) as Hr.
  { apply (reach_init (fun _ => 0) (config_of 2 3) 0 _ 6%nat). vm_compute. reflexivity. }
  split; [exact Hr|].
  exact (X8_clear_kills_cells_only _ Hr).
Defined.

(** ** Further properties: the step *)

Lemma transition_dead_board rules b (c : Cell) (v : CellState) :
  shape b -> cells b = replicate (width b * height b) dead ->
  c ∈ concat (_board b) ->
  GameRules.get_next_state rules dead 0 = Ok v ->
  transition rules b c = Ok (dead, v).
Proof.
  intros Hs Hdead Hc Hrule. rewrite (shape_board _ Hs), concat_grid in Hc.
  apply elem_of_seq in Hc as [_ Hc]. simpl in Hc.
  unfold transition, _get_num_live_neighbors, dict_getitem.
  rewrite (shape_neighbors _ Hs), decide_True by done. cbn [bind].
  rewrite live_neighbors_ok.
  - cbn [bind]. rewrite filter_none.
    + unfold Cell.get_state. rewrite Hdead, lookup_replicate_2 by done. simpl.
      change (Z.of_nat 0) with 0. by rewrite Hrule.
    + intros n _. rewrite Hdead. intros Hn. apply lookup_replicate in Hn as [? _]. done.
  - intros n Hn. apply list_elem_of_fmap in Hn as (p & -> & Hp).
    rewrite (shape_cells _ Hs). unfold width, height.
    apply cell_at_bound. unfold neighbor_positions in Hp.
    by apply list_elem_of_filter in Hp as [Hp _].
Qed.

Lemma changes_none rules b cs cur :
  (forall c, c ∈ cs -> transition rules b c = Ok (cur, cur)) ->
  changes rules b cs = [].
Proof.
  induction cs as [|c cs IH]; intros Hall; [done|].
  rewrite changes_cons, IH by (intros c' Hc'; apply Hall; by right).
  unfold changes. simpl. rewrite (Hall c) by left. by rewrite decide_False by tauto.
Qed.

(** X9.  A step on a reachable board whose counter is right leaves it right:
    when [_live_count] equals the scanned number of live cells before
    [update] and [update] returns, it does so afterwards. *)
Theorem X9_update_keeps_live_count_right (rules : gmap CellState (gmap Z CellState))
  (b : t) (deltas : list (Cell * CellState)) (b' : t) :
  reachable b ->
  _live_count b = scan_live_count b ->
  update rules b = (Ok deltas, b') ->
  _live_count b' = scan_live_count b'.
Proof. apply live_count_after_update. Qed.

Lemma X9_update_keeps_live_count_right_witness :
  reachable (board_of (fun _ => 0) 3 3) /\
  _live_count (board_of (fun _ => 0) 3 3) = scan_live_count (board_of (fun _ => 0) 3 3) /\
  _live_count (update GameRules.__init__ (board_of (fun _ => 0) 3 3)).2
    = scan_live_count (update GameRules.__init__ (board_of (fun _ => 0) 3 3)).2.
Proof.
  assert (reachable (board_of (fun _ => 0) 3 3)) as Hr.
  { apply (reach_init (fun _ => 0) (config_of 3 3) 0 _ 9%nat). vm_compute. reflexivity. }
  assert (_live_count (board_of (fun _ => 0) 3 3)
          = scan_live_count (board_of (fun _ => 0) 3 3)) as Hinv
    by (vm_compute; reflexivity).
  split; [exact Hr|]. split; [exact Hinv|].
  apply (X9_update_keeps_live_count_right GameRules.__init__ _
           [(1%nat, dead); (3%nat, dead); (4%nat, dead); (5%nat, dead); (7%nat, dead)]
           _ Hr Hinv).
  vm_compute. reflexivity.
Defined.

(** X10.  On a reachable board with no live cell, a step under a table that
    keeps a dead cell with no live neighbour dead (the default table does)
    returns no delta and changes nothing but the generation, which is one
    more. *)
Theorem X10_update_of_dead_board_is_empty (rules : gmap CellState (gmap Z CellState))
  (b : t) :
  reachable b ->
  cells b = replicate (length (cells b)) dead ->
  GameRules.get_next_state rules dead 0 = Ok dead ->
  update rules b = (Ok [], with_generation (_generation b + 1) b).
Proof.
  intros Hr Hdead Hrule. apply reachable_shape in Hr as Hs.
  rewrite (shape_cells _ Hs) in Hdead.
  assert (forall c, c ∈ concat (_board b) -> transition rules b c = Ok (dead, dead))
    as Hall by (intros c Hc; by apply transition_dead_board).
  destruct (update_spec rules b) as [[_ Heq]|(e & pre & c & post & Hcs & _ & Hc & _)].
  - rewrite (changes_none _ _ _ dead) in Heq by done. rewrite Heq. f_equal.
    destruct b. unfold with_cells, with_live_count, with_generation, live_after.
    simpl. f_equal. lia.
  - rewrite Hall in Hc; [done|]. rewrite Hcs. apply elem_of_app. right. left.
Qed.

Lemma X10_update_of_dead_board_is_empty_witness :
  reachable (board_of (fun _ => 2) 3 2) /\
  cells (board_of (fun _ => 2) 3 2)
    = replicate (length (cells (board_of (fun _ => 2) 3 2))) dead /\
  GameRules.get_next_state GameRules.__init__ dead 0 = Ok dead /\
  update GameRules.__init__ (board_of (fun _ => 2) 3 2)
    = (Ok [], with_generation (_generation (board_of (fun _ => 2) 3 2) + 1)
                              (board_of (fun _ => 2) 3 2)).
Proof.
  assert (reachable (board_of (fun _ => 2) 3 2)) as Hr.
  { apply (reach_init (fun _ => 2) (config_of 3 2) 0 _ 6%nat). vm_compute. reflexivity. }
  assert (cells (board_of (fun _ => 2) 3 2)
          = replicate (length (cells (board_of (fun _ => 2) 3 2))) dead) as Hd
    by (vm_compute; reflexivity).
  assert (GameRules.get_next_state GameRules.__init__ dead 0 = Ok dead) as Hrule
    by (vm_compute; reflexivity).
  split; [exact Hr|]. split; [exact Hd|]. split; [exact Hrule|].
  exact (X10_update_of_dead_board_is_empty GameRules.__init__ _ Hr Hd Hrule).
Defined.

(** X11.  On a reachable board with no live cell, a step under a table in
    which a dead cell with no live neighbour is born returns one delta per
    cell, in scan order, all alive; afterwards every cell is alive, the
    generation is one more and [_live_count] has grown by the number of
    cells. *)
Theorem X11_update_of_dead_board_births (rules : gmap CellState (gmap Z CellState))
  (b : t) :
  reachable b ->
  cells b = replicate (length (cells b)) dead ->
  GameRules.get_next_state rules dead 0 = Ok alive ->
  exists b',
    update rules b = (Ok (map (fun c => (c, alive)) (concat (_board b))), b') /\
    cells b' = replicate (length (cells b)) alive /\
    _generation b' = _generation b + 1 /\
    _live_count b' = _live_count b + Z.of_nat (length (cells b)).
Proof.
  intros Hr Hdead Hrule. apply reachable_shape in Hr as Hs.
  rewrite (shape_cells _ Hs) in Hdead.
  assert (forall c, c ∈ concat (_board b) -> transition rules b c = Ok (dead, alive))
    as Hall by (intros c Hc; by apply transition_dead_board).
  destruct (update_spec rules b) as [[_ Heq]|(e & pre & c & post & Hcs & _ & Hc & _)].
  - rewrite (changes_all _ _ _ dead alive) in Heq by done.
    destruct (spawned_all_alive (concat (_board b))) as [Hsp Hdi].
    unfold live_after in Heq. rewrite Hsp, Hdi in Heq.
    eexists. split; [exact Heq|]. simpl. split; [|split; [done|]].
    + unfold write_all at 1. simpl. rewrite (shape_board _ Hs), concat_grid.
      rewrite <- (shape_cells _ Hs). apply write_all_seq.
    + rewrite (shape_board _ Hs), concat_grid, length_seq, (shape_cells _ Hs). lia.
  - rewrite Hall in Hc; [done|]. rewrite Hcs. apply elem_of_app. right. left.
Qed.

Lemma X11_update_of_dead_board_births_witness :
  reachable (board_of (fun _ => 2) 2 2) /\
  cells (board_of (fun _ => 2) 2 2)
    = replicate (length (cells (board_of (fun _ => 2) 2 2))) dead /\
  GameRules.get_next_state (<[dead := {[0 := alive]}]> GameRules.__init__) dead 0
    = Ok alive /\
  exists b',
    update (<[dead := {[0 := alive]}]> GameRules.__init__) (board_of (fun _ => 2) 2 2)
      = (Ok (map (fun c => (c, alive)) (concat (_board (board_of (fun _ => 2) 2 2)))), b') /\
    cells b' = replicate (length (cells (board_of (fun _ => 2) 2 2))) alive /\
    _generation b' = _generation (board_of (fun _ => 2) 2 2) + 1 /\
    _live_count b' = _live_count (board_of (fun _ => 2) 2 2)
                     + Z.of_nat (length (cells (board_of (fun _ => 2) 2 2))).
Proof.
  assert (reachable (board_of (fun _ => 2) 2 2)) as Hr.
  { apply (reach_init (fun _ => 2) (config_of 2 2) 0 _ 4%nat). vm_compute. reflexivity. }
  assert (cells (board_of (fun _ => 2) 2 2)
          = replicate (length (cells (board_of (fun _ => 2) 2 2))) dead) as Hd
    by (vm_compute; reflexivity).
  assert (GameRules.get_next_state (<[dead := {[0 := alive]}]> GameRules.__init__) dead 0
          = Ok alive) as Hrule by (vm_compute; reflexivity).
  split; [exact Hr|]. split; [exact Hd|]. split; [exact Hrule|].
  exact (X11_update_of_dead_board_births _ _ Hr Hd Hrule).
Defined.

Lemma changes_fst_elem rules b cs (c : Cell) :
  c ∈ (changes rules b cs).*1 <-> exists s, (c, s) ∈ changes rules b cs.
Proof.
  rewrite list_elem_of_fmap. split.
  - intros ([c' s] & -> & Hin). by exists s.
  - intros [s Hin]. by exists (c, s).
Qed.

(** X12.  The deltas of a step are exactly the difference between the states
    before and after it: no cell has two deltas, a delta's state is the
    cell's state after the step and the opposite of its state before, and
    every cell without a delta has the state it had. *)
Theorem X12_update_deltas_are_the_difference (rules : gmap CellState (gmap Z CellState))
  (b : t) (deltas : list (Cell * CellState)) (b' : t) :
  reachable b ->
  update rules b = (Ok deltas, b') ->
  NoDup deltas.*1 /\
  (forall c s, (c, s) ∈ deltas ->
     Cell.get_state c (cells b) = Ok (flip s) /\ Cell.get_state c (cells b') = Ok s) /\
  (forall c, c ∉ deltas.*1 -> Cell.get_state c (cells b') = Cell.get_state c (cells b)).
Proof.
  intros Hr Hup. apply reachable_shape in Hr as Hs.
  destruct (update_ok _ _ _ _ Hup) as (Hd & _ & _ & _ & _ & Hcells).
  split; [|split].
  - rewrite Hd. eapply sublist_NoDup; [|apply changes_fst_sublist].
    rewrite (shape_board _ Hs), concat_grid. apply NoDup_seq.
  - intros c s Hin. rewrite Hd in Hin.
    apply elem_of_changes in Hin as (Hc & cur & Htr & Hne).
    apply transition_inv in Htr as (n & Hn & Hcur & Hnext).
    destruct (Hcells c Hc) as (n' & cur' & next' & Hn' & Hcur' & Hnext' & Hpost & _).
    assert (n' = n) as -> by congruence. assert (cur' = cur) as -> by congruence.
    assert (next' = s) as -> by congruence.
    split; [|done]. rewrite Hcur. by destruct s, cur.
  - intros c Hc.
    destruct (update_spec rules b) as [[_ Heq]|(e & pre & c' & post & _ & _ & _ & Heq)];
      rewrite Heq in Hup; [|done].
    injection Hup as Hdeltas <-. simpl. unfold Cell.get_state.
    rewrite !lookup_write_all.
    rewrite !decide_False; [done| |].
    + intros [Hin _]. apply elem_of_spawned in Hin. apply Hc.
      rewrite <- Hdeltas. apply changes_fst_elem. by exists alive.
    + intros [Hin _]. apply elem_of_died in Hin. apply Hc.
      rewrite <- Hdeltas. apply changes_fst_elem. by exists dead.
Qed.

Lemma X12_update_deltas_are_the_difference_witness :
  reachable (board_of (fun _ => 0) 3 3) /\
  NoDup [(1%nat, dead); (3%nat, dead); (4%nat, dead); (5%nat, dead); (7%nat, dead)].*1 /\
  (forall c s,
     (c, s) ∈ [(1%nat, dead); (3%nat, dead); (4%nat, dead); (5%nat, dead); (7%nat, dead)] ->
     Cell.get_state c (cells (board_of (fun _ => 0) 3 3)) = Ok (flip s) /\
     Cell.get_state c (cells (update GameRules.__init__ (board_of (fun _ => 0) 3 3)).2)
       = Ok s) /\
  (forall c,
     c ∉ [(1%nat, dead); (3%nat, dead); (4%nat, dead); (5%nat, dead); (7%nat, dead)].*1 ->
     Cell.get_state c (cells (update GameRules.__init__ (board_of (fun _ => 0) 3 3)).2)
       = Cell.get_state c (cells (board_of (fun _ => 0) 3 3))).
Proof.
  assert (reachable (board_of (fun _ => 0) 3 3)) as Hr.
  { apply (reach_init (fun _ => 0) (config_of 3 3) 0 _ 9%nat). vm_compute. reflexivity. }
  split; [exact Hr|].
  apply (X12_update_deltas_are_the_difference GameRules.__init__ _ _ _ Hr).
  vm_compute. reflexivity.
Defined.

(** X13.  On a reachable board, the live-neighbour count of the cell at an
    in-grid position [(x, y)] is the number of directions [(dx, dy)] for
    which [(x + dx, y + dy)] lies in the grid and holds a live cell:
    positions off the grid are not counted and do not wrap around; the count
    is between 0 and 8. *)
Theorem X13_live_neighbors_by_position (b : t) (x y : Z) :
  reachable b ->
  0 <= x < _num_cells_x b -> 0 <= y < _num_cells_y b ->
  exists cell n,
    get_cell b x y = Ok cell /\
    _get_num_live_neighbors b cell = Ok n /\
    0 <= n <= 8 /\
    n = Z.of_nat
          (length (filter (fun p : Z * Z =>
                             (0 <= p.1 < _num_cells_x b /\ 0 <= p.2 < _num_cells_y b) /\
                             alive_at b p)
                          (map (fun d : Z * Z => (x + d.1, y + d.2)) _DIRECTIONS))).
Proof.
  intros Hr Hx Hy. apply reachable_shape in Hr as Hs.
  assert (0 <= x < Z.of_nat (width b)) as Hxw by (unfold width; lia).
  assert (0 <= y < Z.of_nat (height b)) as Hyh by (unfold height; lia).
  destruct (cell_at_in_store b x y Hs Hxw Hyh) as [Hlt Hpos].
  rewrite (shape_cells _ Hs) in Hlt.
  exists (cell_at (width b) (x, y)).
  assert (_get_num_live_neighbors b (cell_at (width b) (x, y)) =
          Ok (Z.of_nat (length (filter (fun p : Z * Z =>
                             (0 <= p.1 < _num_cells_x b /\ 0 <= p.2 < _num_cells_y b) /\
                             alive_at b p)
                          (map (fun d : Z * Z => (x + d.1, y + d.2)) _DIRECTIONS)))))
    as Hcount.
  { unfold _get_num_live_neighbors, dict_getitem.
    rewrite (shape_neighbors _ Hs), decide_True by done. cbn [bind].
    rewrite live_neighbors_ok.
    - cbn [bind]. rewrite Hpos. unfold neighbor_positions.
      by rewrite live_among_neighbor_positions.
    - intros n Hn. apply list_elem_of_fmap in Hn as (p & -> & Hp).
      rewrite (shape_cells _ Hs). unfold width, height.
      apply cell_at_bound. unfold neighbor_positions in Hp.
      by apply list_elem_of_filter in Hp as [Hp _]. }
  eexists. split; [|split; [exact Hcount|split; [|reflexivity]]].
  - rewrite get_cell_in by (done || lia). by rewrite !Z.mod_small by lia.
  - split; [lia|].
    pose proof (length_filter (fun p : Z * Z =>
                             (0 <= p.1 < _num_cells_x b /\ 0 <= p.2 < _num_cells_y b) /\
                             alive_at b p)
                  (map (fun d : Z * Z => (x + d.1, y + d.2)) _DIRECTIONS)) as Hle.
    rewrite length_map in Hle. change (length _DIRECTIONS) with 8%nat in Hle. lia.
Qed.

Lemma X13_live_neighbors_by_position_witness :
  reachable (board_of (fun _ => 0) 3 3) /\
  0 <= 0 < _num_cells_x (board_of (fun _ => 0) 3 3) /\
  0 <= 1 < _num_cells_y (board_of (fun _ => 0) 3 3) /\
  exists cell n,
    get_cell (board_of (fun _ => 0) 3 3) 0 1 = Ok cell /\
    _get_num_live_neighbors (board_of (fun _ => 0) 3 3) cell = Ok n /\
    0 <= n <= 8 /\
    n = Z.of_nat
          (length (filter (fun p : Z * Z =>
                             (0 <= p.1 < _num_cells_x (board_of (fun _ => 0) 3 3) /\
                              0 <= p.2 < _num_cells_y (board_of (fun _ => 0) 3 3)) /\
                             alive_at (board_of (fun _ => 0) 3 3) p)
                          (map (fun d : Z * Z => (0 + d.1, 1 + d.2)) _DIRECTIONS))).
Proof.
  assert (reachable (board_of (fun _ => 0) 3 3)) as Hr.
  { apply (reach_init (fun _ => 0) (config_of 3 3) 0 _ 9%nat). vm_compute. reflexivity. }
  assert (0 <= 0 < _num_cells_x (board_of (fun _ => 0) 3 3)) as Hx
    by (vm_compute; split; discriminate || reflexivity).
  assert (0 <= 1 < _num_cells_y (board_of (fun _ => 0) 3 3)) as Hy
    by (vm_compute; split; discriminate || reflexivity).
  split; [exact Hr|]. split; [exact Hx|]. split; [exact Hy|].
  exact (X13_live_neighbors_by_position _ 0 1 Hr Hx Hy).
Defined.

(** ** Further properties: the configuration form *)

Lemma validate_all_valid (screenwidth screenheight : Z)
  (config : GameConfig.t) (form : ConfigFrame.t) :
  config_valid config ->
  let st := ConfigFrame.validate_all screenwidth screenheight (config, form) in
  config_valid st.1 /\
  ConfigFrame.scale_input st.2 = Some (GameConfig.get_scale st.1) /\
  ConfigFrame.num_cells_x_input st.2 = Some (GameConfig.get_num_cells_x st.1) /\
  ConfigFrame.num_cells_y_input st.2 = Some (GameConfig.get_num_cells_y st.1) /\
  ConfigFrame.fps_input st.2 = Some (GameConfig.get_fps st.1).
Proof.
  intros (Hs & Hx & Hy & Hf). destruct config, form as [es ex ey ef fl].
  unfold config_valid, GameConfig.get_scale, GameConfig.get_num_cells_x,
    GameConfig.get_num_cells_y, GameConfig.get_fps in *. simpl in *.
  unfold ConfigFrame.validate_all, ConfigFrame._validate_scale,
    ConfigFrame._validate_num_cells, ConfigFrame._validate_fps.
  destruct es as [vs|], ex as [vx|], ey as [vy|], ef as [vf|]; simpl;
    repeat (case_decide; simpl); repeat split; try lia; try congruence; f_equal; lia.
Qed.

(** X14.  Whatever the four entry fields hold, validation turns a valid
    configuration (scale, width and height at least 1, fps from 1 to 1000)
    into a valid one, and afterwards every entry field holds the integer that
    the configuration has for it. *)
Theorem X14_validation_keeps_config_valid (screenwidth screenheight : Z)
  (config : GameConfig.t) (form : ConfigFrame.t) :
  config_valid config ->
  let st := ConfigFrame.validate_all screenwidth screenheight (config, form) in
  config_valid st.1 /\
  ConfigFrame.scale_input st.2 = Some (GameConfig.get_scale st.1) /\
  ConfigFrame.num_cells_x_input st.2 = Some (GameConfig.get_num_cells_x st.1) /\
  ConfigFrame.num_cells_y_input st.2 = Some (GameConfig.get_num_cells_y st.1) /\
  ConfigFrame.fps_input st.2 = Some (GameConfig.get_fps st.1).
Proof. apply validate_all_valid. Qed.

Lemma X14_validation_keeps_config_valid_witness :
  config_valid GameConfig.__init__ /\
  config_valid
    (ConfigFrame.validate_all 1920 1080
       (GameConfig.__init__, ConfigFrame.mk (Some 0) None (Some 7) (Some 5000) false)).1 /\
  ConfigFrame.scale_input
    (ConfigFrame.validate_all 1920 1080
       (GameConfig.__init__, ConfigFrame.mk (Some 0) None (Some 7) (Some 5000) false)).2
    = Some (GameConfig.get_scale
              (ConfigFrame.validate_all 1920 1080
                 (GameConfig.__init__,
                  ConfigFrame.mk (Some 0) None (Some 7) (Some 5000) false)).1) /\
  ConfigFrame.num_cells_x_input
    (ConfigFrame.validate_all 1920 1080
       (GameConfig.__init__, ConfigFrame.mk (Some 0) None (Some 7) (Some 5000) false)).2
    = Some (GameConfig.get_num_cells_x
              (ConfigFrame.validate_all 1920 1080
                 (GameConfig.__init__,
                  ConfigFrame.mk (Some 0) None (Some 7) (Some 5000) false)).1) /\
  ConfigFrame.num_cells_y_input
    (ConfigFrame.validate_all 1920 1080
       (GameConfig.__init__, ConfigFrame.mk (Some 0) None (Some 7) (Some 5000) false)).2
    = Some (GameConfig.get_num_cells_y
              (ConfigFrame.validate_all 1920 1080
                 (GameConfig.__init__,
                  ConfigFrame.mk (Some 0) None (Some 7) (Some 5000) false)).1) /\
  ConfigFrame.fps_input
    (ConfigFrame.validate_all 1920 1080
       (GameConfig.__init__, ConfigFrame.mk (Some 0) None (Some 7) (Some 5000) false)).2
    = Some (GameConfig.get_fps
              (ConfigFrame.validate_all 1920 1080
                 (GameConfig.__init__,
                  ConfigFrame.mk (Some 0) None (Some 7) (Some 5000) false)).1).
Proof.
  assert (config_valid GameConfig.__init__) as Hv by (vm_compute; intuition discriminate).
  split; [exact Hv|].
  exact (X14_validation_keeps_config_valid 1920 1080 GameConfig.__init__
           (ConfigFrame.mk (Some 0) None (Some 7) (Some 5000) false) Hv).
Defined.

Lemma validate_all_flag (screenwidth screenheight : Z)
  (config : GameConfig.t) (form : ConfigFrame.t) :
  let st := ConfigFrame.validate_all screenwidth screenheight (config, form) in
  ConfigFrame._board_needs_rebuild st.2 =
    ConfigFrame._board_needs_rebuild form
    || differs (ConfigFrame.scale_input form) (GameConfig.get_scale config)
    || differs (ConfigFrame.num_cells_x_input form) (GameConfig.get_num_cells_x config)
    || differs (ConfigFrame.num_cells_y_input form) (GameConfig.get_num_cells_y config) /\
  (differs (ConfigFrame.scale_input form) (GameConfig.get_scale config) = false ->
   GameConfig.get_scale st.1 = GameConfig.get_scale config) /\
  (differs (ConfigFrame.num_cells_x_input form) (GameConfig.get_num_cells_x config) = false ->
   GameConfig.get_num_cells_x st.1 = GameConfig.get_num_cells_x config) /\
  (differs (ConfigFrame.num_cells_y_input form) (GameConfig.get_num_cells_y config) = false ->
   GameConfig.get_num_cells_y st.1 = GameConfig.get_num_cells_y config) /\
  (differs (ConfigFrame.fps_input form) (GameConfig.get_fps config) = false ->
   GameConfig.get_fps st.1 = GameConfig.get_fps config).
Proof.
  destruct config, form as [es ex ey ef fl].
  unfold GameConfig.get_scale, GameConfig.get_num_cells_x,
    GameConfig.get_num_cells_y, GameConfig.get_fps in *. simpl in *.
  unfold ConfigFrame.validate_all, ConfigFrame._validate_scale,
    ConfigFrame._validate_num_cells, ConfigFrame._validate_fps, differs.
  destruct es as [vs|], ex as [vx|], ey as [vy|], ef as [vf|], fl; simpl;
    repeat (case_decide; simpl);
    rewrite ?bool_decide_eq_true_2, ?bool_decide_eq_false_2 by (congruence || tauto);
    repeat split; try done; try (intros; congruence);
    rewrite ?bool_decide_eq_false; intros; exfalso; tauto.
Qed.

(** X15.  Validation asks for a rebuild of the board exactly when the flag was
    already set or the scale, width or height entry holds an integer other
    than the current value, even one that is clamped back to the current
    value; the fps entry never asks for one, and a field that is not an
    integer or repeats the current value changes nothing in the
    configuration. *)
Theorem X15_rebuild_flag (screenwidth screenheight : Z)
  (config : GameConfig.t) (form : ConfigFrame.t) :
  let st := ConfigFrame.validate_all screenwidth screenheight (config, form) in
  ConfigFrame._board_needs_rebuild st.2 =
    ConfigFrame._board_needs_rebuild form
    || differs (ConfigFrame.scale_input form) (GameConfig.get_scale config)
    || differs (ConfigFrame.num_cells_x_input form) (GameConfig.get_num_cells_x config)
    || differs (ConfigFrame.num_cells_y_input form) (GameConfig.get_num_cells_y config) /\
  (differs (ConfigFrame.scale_input form) (GameConfig.get_scale config) = false ->
   GameConfig.get_scale st.1 = GameConfig.get_scale config) /\
  (differs (ConfigFrame.num_cells_x_input form) (GameConfig.get_num_cells_x config) = false ->
   GameConfig.get_num_cells_x st.1 = GameConfig.get_num_cells_x config) /\
  (differs (ConfigFrame.num_cells_y_input form) (GameConfig.get_num_cells_y config) = false ->
   GameConfig.get_num_cells_y st.1 = GameConfig.get_num_cells_y config) /\
  (differs (ConfigFrame.fps_input form) (GameConfig.get_fps config) = false ->
   GameConfig.get_fps st.1 = GameConfig.get_fps config).
Proof. apply validate_all_flag. Qed.

(** ** Further properties: the rule editor *)

Lemma set_value_item_spec rules name n v :
  is_Some (rules !! state_of_name name) ->
  exists rules',
    RulesFrame.set_value_item rules ((name, n), v) = Done rules' /\
    (forall s, is_Some (rules !! s) -> is_Some (rules' !! s)) /\
    GameRules.get_next_state rules' (state_of_name name) n = Ok (if v then alive else dead) /\
    forall s' n', (s', n') <> (state_of_name name, n) ->
      GameRules.get_next_state rules' s' n' = GameRules.get_next_state rules s' n'.
Proof.
  intros [row Hrow]. unfold RulesFrame.set_value_item. fold (state_of_name name).
  assert (dict_getitem RulesFrame._state_values (Z.b2z v) = Ok (if v then alive else dead))
    as -> by (by destruct v).
  destruct (GameRules.set_rule rules (state_of_name name) n (if v then alive else dead))
    as [rules'|e] eqn:Heq.
  - exists rules'. split; [done|]. split; [|by apply set_rule_spec].
    intros s [r Hr]. unfold GameRules.set_rule, dict_getitem in Heq.
    rewrite Hrow in Heq. injection Heq as <-.
    destruct (decide (s = state_of_name name)) as [->|Hne].
    + rewrite lookup_insert_eq. by eexists.
    + rewrite lookup_insert_ne by done. by eexists.
  - unfold GameRules.set_rule, dict_getitem in Heq. by rewrite Hrow in Heq.
Qed.

Lemma set_value_spec (l : list ((string * Z) * bool)) : forall rules,
  is_Some (rules !! alive) -> is_Some (rules !! dead) ->
  NoDup (map (fun kv : (string * Z) * bool => (state_of_name kv.1.1, kv.1.2)) l) ->
  exists rules',
    for_each RulesFrame.set_value_item rules l = Done rules' /\
    is_Some (rules' !! alive) /\ is_Some (rules' !! dead) /\
    (forall name n v, ((name, n), v) ∈ l ->
       GameRules.get_next_state rules' (state_of_name name) n
         = Ok (if v : bool then alive else dead)) /\
    (forall s n,
       (s, n) ∉ map (fun kv : (string * Z) * bool => (state_of_name kv.1.1, kv.1.2)) l ->
       GameRules.get_next_state rules' s n = GameRules.get_next_state rules s n).
Proof.
  induction l as [|[[name n] v] l IH]; intros rules Ha Hd Hnd.
  - exists rules. repeat split; try done. intros ? ? ? Hin. by apply elem_of_nil in Hin.
  - cbn [map fst snd] in Hnd. apply NoDup_cons in Hnd as [Hfresh Hnd].
    destruct (set_value_item_spec rules name n v) as (rules1 & Hitem & Hrows & Hnew & Hold).
    { unfold state_of_name. by case_decide. }
    destruct (IH rules1 (Hrows _ Ha) (Hrows _ Hd) Hnd)
      as (rules' & Hloop & Ha' & Hd' & Hin' & Hout').
    exists rules'. cbn [for_each]. rewrite Hitem.
    split; [exact Hloop|]. split; [done|]. split; [done|]. split.
    + intros name' n' v' Hin. apply elem_of_cons in Hin as [[= -> -> ->]|Hin].
      * rewrite Hout' by done. exact Hnew.
      * by apply Hin'.
    + intros s' n' Hnotin. cbn [map fst snd] in Hnotin.
      apply not_elem_of_cons in Hnotin as [Hne Hnotin].
      rewrite Hout' by done. by apply Hold.
Qed.

Lemma click_keeps_keys key (self : RulesFrame.t) rules :
  (RulesFrame._vars (click_rule key (self, rules)).1).*1 = (RulesFrame._vars self).*1.
Proof.
  unfold click_rule. simpl. induction (RulesFrame._vars self) as [|[k v] l IH]; [done|].
  simpl. f_equal; [case_decide; simpl; congruence|apply IH].
Qed.

Lemma NoDup_rule_keys :
  NoDup (map (fun k : string * Z => (state_of_name k.1, k.2))
             (RulesFrame._vars RulesFrame.__init__).*1).
Proof. by apply (bool_decide_unpack _). Qed.

Lemma rule_keys_cover (s : CellState) (n : Z) :
  0 <= n <= 8 ->
  exists name, state_of_name name = s /\
               (name, n) ∈ (RulesFrame._vars RulesFrame.__init__).*1.
Proof.
  intros Hn.
  assert (n = 0 \/ n = 1 \/ n = 2 \/ n = 3 \/ n = 4 \/ n = 5 \/ n = 6 \/ n = 7 \/ n = 8)
    as Hc by lia.
  destruct s; [exists "born"%string|exists "survive"%string]; (split; [done|]);
    repeat (destruct Hc as [->|Hc]; [by apply (bool_decide_unpack _)|]);
    subst; by apply (bool_decide_unpack _).
Qed.

Lemma set_value_mirrors (self : RulesFrame.t)
  (rules : gmap CellState (gmap Z CellState)) :
  (RulesFrame._vars self).*1 = (RulesFrame._vars RulesFrame.__init__).*1 ->
  is_Some (rules !! alive) -> is_Some (rules !! dead) ->
  exists rules',
    RulesFrame.set_value self rules = Done rules' /\
    mirrors self rules' /\
    rules_total rules' /\
    (forall s n, 0 <= n <= 8 ->
       exists name v, state_of_name name = s /\ ((name, n), v) ∈ RulesFrame._vars self) /\
    (forall s n, ~ 0 <= n <= 8 ->
       GameRules.get_next_state rules' s n = GameRules.get_next_state rules s n).
Proof.
  intros Hkeys Ha Hd.
  assert (map (fun kv : (string * Z) * bool => (state_of_name kv.1.1, kv.1.2))
              (RulesFrame._vars self)
          = map (fun k : string * Z => (state_of_name k.1, k.2))
                (RulesFrame._vars RulesFrame.__init__).*1) as Hmap.
  { rewrite <- Hkeys. rewrite <- list_fmap_compose. done. }
  destruct (set_value_spec (RulesFrame._vars self) rules Ha Hd)
    as (rules' & Hloop & Ha' & Hd' & Hin & Hout).
  { rewrite Hmap. apply NoDup_rule_keys. }
  assert (forall s n, 0 <= n <= 8 ->
            exists name v, state_of_name name = s /\
                           ((name, n), v) ∈ RulesFrame._vars self) as Hcover.
  { intros s n Hn. destruct (rule_keys_cover s n Hn) as (name & Hname & Hk).
    rewrite <- Hkeys in Hk. apply list_elem_of_fmap in Hk as ([k v] & Hk & Hkv).
    simpl in Hk. subst k. by exists name, v. }
  exists rules'. split; [exact Hloop|]. split; [exact Hin|]. split; [|split; [exact Hcover|]].
  - intros s n Hn. destruct (Hcover s n Hn) as (name & v & <- & Hkv).
    eexists. by apply Hin.
  - intros s n Hn. apply Hout. rewrite Hmap. intros Hk.
    apply list_elem_of_fmap in Hk as ([name n'] & [= -> ->] & Hk). simpl in Hn.
    apply Hn. clear -Hk.
    repeat (apply elem_of_cons in Hk as [[= _ ->]|Hk]; [lia|]). by apply elem_of_nil in Hk.
Qed.

(** X16.  With check buttons for exactly the eighteen keys that the editor
    creates and a table that has both rows, [set_value] does not raise and
    leaves the table saying what the buttons show: a live cell with [n] live
    neighbours survives exactly when ['survive n'] is checked, a dead one is
    born exactly when ['born n'] is checked, for every [n] from 0 to 8; no
    entry for any other count is written. *)
Theorem X16_set_value_mirrors_check_buttons (self : RulesFrame.t)
  (rules : gmap CellState (gmap Z CellState)) :
  (RulesFrame._vars self).*1 = (RulesFrame._vars RulesFrame.__init__).*1 ->
  is_Some (rules !! alive) -> is_Some (rules !! dead) ->
  exists rules',
    RulesFrame.set_value self rules = Done rules' /\
    mirrors self rules' /\
    rules_total rules' /\
    (forall s n, 0 <= n <= 8 ->
       exists name v, state_of_name name = s /\ ((name, n), v) ∈ RulesFrame._vars self) /\
    (forall s n, ~ 0 <= n <= 8 ->
       GameRules.get_next_state rules' s n = GameRules.get_next_state rules s n).
Proof. apply set_value_mirrors. Qed.

Lemma X16_set_value_mirrors_check_buttons_witness :
  (RulesFrame._vars RulesFrame.__init__).*1 = (RulesFrame._vars RulesFrame.__init__).*1 /\
  is_Some (GameRules.__init__ !! alive) /\ is_Some (GameRules.__init__ !! dead) /\
  exists rules',
    RulesFrame.set_value RulesFrame.__init__ GameRules.__init__ = Done rules' /\
    mirrors RulesFrame.__init__ rules' /\
    rules_total rules' /\
    (forall s n, 0 <= n <= 8 ->
       exists name v, state_of_name name = s /\
                      ((name, n), v) ∈ RulesFrame._vars RulesFrame.__init__) /\
    (forall s n, ~ 0 <= n <= 8 ->
       GameRules.get_next_state rules' s n = GameRules.get_next_state GameRules.__init__ s n).
Proof.
  assert (is_Some (GameRules.__init__ !! alive)) as Ha by (vm_compute; eauto).
  assert (is_Some (GameRules.__init__ !! dead)) as Hd by (vm_compute; eauto).
  split; [reflexivity|]. split; [exact Ha|]. split; [exact Hd|].
  exact (X16_set_value_mirrors_check_buttons RulesFrame.__init__ GameRules.__init__
           eq_refl Ha Hd).
Defined.

Lemma mirrors_init : mirrors RulesFrame.__init__ GameRules.__init__.
Proof.
  intros name n v Hin.
  repeat (apply elem_of_cons in Hin as [[= -> -> ->]|Hin]; [vm_compute; reflexivity|]).
  by apply elem_of_nil in Hin.
Qed.

Lemma click_rules_spec (keys : list (string * Z)) : forall self rules,
  (RulesFrame._vars self).*1 = (RulesFrame._vars RulesFrame.__init__).*1 ->
  rules_total rules ->
  exists self' rules',
    click_rules keys (self, rules) = (self', Done rules') /\
    (RulesFrame._vars self').*1 = (RulesFrame._vars RulesFrame.__init__).*1 /\
    rules_total rules' /\
    (keys <> [] -> mirrors self' rules') /\
    (keys = [] -> self' = self /\ rules' = rules) /\
    (forall s n, ~ 0 <= n <= 8 ->
       GameRules.get_next_state rules' s n = GameRules.get_next_state rules s n).
Proof.
  induction keys as [|key keys IH]; intros self rules Hkeys Ht.
  - exists self, rules. repeat split; try done.
  - cbn [click_rules].
    pose proof (click_keeps_keys key self rules) as Hkeys1. rewrite Hkeys in Hkeys1.
    destruct (click_rule key (self, rules)) as [self1 out] eqn:Hclick.
    assert (out = RulesFrame.set_value self1 rules) as ->.
    { unfold click_rule in Hclick. by injection Hclick as <- <-. }
    simpl in Hkeys1.
    assert (forall s, is_Some (rules !! s)) as Hrows.
    { intros s. destruct (Ht s 0) as [s' Hs']; [lia|].
      unfold GameRules.get_next_state, dict_getitem in Hs'.
      destruct (rules !! s); [by eexists|done]. }
    destruct (set_value_mirrors self1 rules Hkeys1 (Hrows _) (Hrows _))
      as (rules1 & -> & Hm1 & Ht1 & _ & Hout1).
    destruct (IH self1 rules1 Hkeys1 Ht1)
      as (self' & rules' & -> & Hkeys' & Ht' & Hm' & Hnil & Hout').
    exists self', rules'. split; [done|]. split; [done|]. split; [done|].
    split; [|split; [done|]].
    + intros _. destruct keys as [|k keys'].
      * destruct Hnil as [-> ->]; done.
      * by apply Hm'.
    + intros s n Hn. rewrite Hout' by done. by apply Hout1.
Qed.

(** X17.  From the editor's initial check buttons and the default table, any
    run of clicks on check buttons goes through without an exception, and
    after it the table says what the buttons show (the buttons never clicked
    included), has an entry for both states and every count from 0 to 8, and
    still has none for any other count. *)
Theorem X17_rule_clicks_keep_table_in_step (keys : list (string * Z)) :
  exists self' rules',
    click_rules keys (RulesFrame.__init__, GameRules.__init__) = (self', Done rules') /\
    (RulesFrame._vars self').*1 = (RulesFrame._vars RulesFrame.__init__).*1 /\
    mirrors self' rules' /\
    rules_total rules' /\
    (forall s n, ~ 0 <= n <= 8 -> GameRules.get_next_state rules' s n = Raise KeyError).
Proof.
  destruct (click_rules_spec keys RulesFrame.__init__ GameRules.__init__ eq_refl
              rules_total_init)
    as (self' & rules' & Hrun & Hkeys & Ht & Hm & Hnil & Hout).
  exists self', rules'. split; [done|]. split; [done|]. split; [|split; [done|]].
  - destruct keys as [|k keys]; [|by apply Hm].
    destruct Hnil as [-> ->]; [done|]. apply mirrors_init.
  - intros s n Hn. rewrite Hout by done.
    rewrite default_rules_spec. by rewrite decide_False.
Qed.

(** ** The view: linking cells to rectangles *)

Lemma view_eta (g : BoardFrame.t) :
  BoardFrame.with_links (BoardFrame.links g)
    (BoardFrame.with_canvas (BoardFrame.canvas g) g) = g.
Proof. by destruct g. Qed.

Lemma _create_cell_links_spec (g : BoardFrame.t) :
  shape (BoardFrame._game_board g) ->
  BoardFrame.colors g !! dead = Some WHITE ->
  exists g',
    BoardFrame._create_cell_links g = Done g' /\
    links_inv g (Canvas.next_item (BoardFrame.canvas g))
      (width (BoardFrame._game_board g) * height (BoardFrame._game_board g)) g'.
Proof.
  intros Hshape Hcol. unfold BoardFrame._create_cell_links.
  rewrite for_each_concat. unfold get_board.
  rewrite (shape_board _ Hshape), concat_grid.
  set (base := Canvas.next_item (BoardFrame.canvas g)).
  apply (for_each_seq_inv _ (links_inv g base)).
  - split; simpl.
    + by destruct g.
    + unfold base. lia.
    + intros c. apply lookup_empty.
    + intros sq. case_decide; [lia|done].
  - intros i s Hi [Hrest Hnext Hlinks Hitems].
    unfold BoardFrame._create_cell_links_cell.
    assert (BoardFrame._game_board s = BoardFrame._game_board g) as Hb
      by (rewrite Hrest; done).
    assert (BoardFrame._scale s = BoardFrame._scale g) as Hsc
      by (rewrite Hrest; done).
    assert (BoardFrame.colors s = BoardFrame.colors g) as Hc
      by (rewrite Hrest; done).
    rewrite Hb, Hsc, Hc.
    assert (get_coord (BoardFrame._game_board g) i
            = Ok (pos_of (width (BoardFrame._game_board g)) i)) as ->
      by (by apply get_coord_shape).
    unfold dict_getitem. rewrite Hcol. cbn [Canvas.create_rectangle].
    eexists. split; [reflexivity|].
    split; cbn.
    + rewrite Hrest. done.
    + rewrite Hnext. lia.
    + intros c. rewrite Hnext. destruct (decide (c = i)) as [->|Hne].
      * rewrite lookup_insert_eq. by rewrite decide_True by lia.
      * rewrite lookup_insert_ne by done. rewrite Hlinks.
        repeat case_decide; done || lia.
    + intros sq. rewrite Hnext. destruct (decide (sq = (base + i)%nat)) as [->|Hne].
      * rewrite lookup_insert_eq. rewrite decide_True by lia.
        replace (base + i - base)%nat with i by lia. done.
      * rewrite lookup_insert_ne by done. rewrite Hitems.
        repeat case_decide; done || lia.
Qed.

Lemma links_inv_drawn (g g' : BoardFrame.t) :
  shape (BoardFrame._game_board g) ->
  Canvas.items (BoardFrame.canvas g) = ∅ ->
  links_inv g (Canvas.next_item (BoardFrame.canvas g))
    (width (BoardFrame._game_board g) * height (BoardFrame._game_board g)) g' ->
  drawn g'
    (replicate (width (BoardFrame._game_board g) * height (BoardFrame._game_board g))
       dead).
Proof.
  intros Hshape Hempty [Hrest Hnext Hlinks Hitems].
  set (n := (width (BoardFrame._game_board g) * height (BoardFrame._game_board g))%nat)
    in *.
  assert (BoardFrame._game_board g' = BoardFrame._game_board g) as Hb
    by (rewrite Hrest; done).
  assert (BoardFrame._scale g' = BoardFrame._scale g) as Hsc
    by (rewrite Hrest; done).
  assert (forall c : Cell,
            c ∈ concat (get_board (BoardFrame._game_board g')) <-> (c < n)%nat) as Hon.
  { intros c. rewrite Hb. unfold get_board.
    rewrite (shape_board _ Hshape), concat_grid, elem_of_seq. fold n. lia. }
  split.
  - intros c Hc. apply Hon in Hc.
    exists (pos_of (width (BoardFrame._game_board g)) c), dead,
           (Canvas.next_item (BoardFrame.canvas g) + c)%nat.
    rewrite Hb, Hsc. split_and!.
    + by apply get_coord_shape.
    + unfold Cell.get_state. by rewrite lookup_replicate_2.
    + rewrite Hlinks. by rewrite decide_True.
    + rewrite Hitems, decide_True by lia.
      by replace (Canvas.next_item (BoardFrame.canvas g) + c
                  - Canvas.next_item (BoardFrame.canvas g))%nat with c by lia.
  - intros c sq. rewrite Hlinks. case_decide; [|done]. intros _. by apply Hon.
  - intros c c' sq. rewrite !Hlinks. repeat case_decide; try done.
    intros [= <-] [= ?]. lia.
  - intros sq. rewrite Hitems. case_decide as Hsq.
    + intros _. exists (sq - Canvas.next_item (BoardFrame.canvas g))%nat.
      rewrite Hlinks, decide_True by lia. f_equal. lia.
    + rewrite Hempty, lookup_empty. by intros [? ?].
Qed.

Lemma default_colors (g : BoardFrame.t) (s : CellState) :
  BoardFrame.colors g = <[dead := WHITE]> (<[alive := BLACK]> ∅) ->
  BoardFrame.colors g !! s = Some (color_of s).
Proof. intros ->. by destruct s. Qed.

(** ** The view: drawing a delta list *)

Lemma drawn_ext (g : BoardFrame.t) (st st' : Cell.store) :
  (forall c : Cell, c ∈ concat (get_board (BoardFrame._game_board g)) ->
     st' !! c = st !! c) ->
  drawn g st -> drawn g st'.
Proof.
  intros Hst [Hcell Hlinks Hdistinct Hitems]. split; try done.
  intros c Hc. destruct (Hcell c Hc) as (p & s & sq & ? & Hs & ? & ?).
  exists p, s, sq. split_and!; try done.
  unfold Cell.get_state in *. by rewrite Hst.
Qed.

Lemma _draw_changes_item_spec (g : BoardFrame.t) (st : Cell.store) (c : Cell)
  (s : CellState) :
  BoardFrame.colors g = <[dead := WHITE]> (<[alive := BLACK]> ∅) ->
  drawn g st ->
  c ∈ concat (get_board (BoardFrame._game_board g)) ->
  exists canvas',
    BoardFrame._draw_changes_item g (c, s) = Done (BoardFrame.with_canvas canvas' g) /\
    drawn (BoardFrame.with_canvas canvas' g) (<[c := s]> st).
Proof.
  intros Hcol [Hcell Hlinks Hdistinct Hitems] Hc.
  destruct (Hcell c Hc) as (p & s0 & sq & Hp & Hs0 & Hsq & Hit).
  unfold BoardFrame._draw_changes_item, dict_getitem.
  rewrite (default_colors _ _ Hcol), Hsq.
  eexists. split; [reflexivity|].
  assert (c < length st)%nat as Hlen.
  { unfold Cell.get_state in Hs0. destruct (st !! c) eqn:E; [|done].
    by apply lookup_lt_Some in E. }
  split; cbn.
  - intros c' Hc'. destruct (Hcell c' Hc') as (p' & s' & sq' & Hp' & Hs' & Hsq' & Hit').
    destruct (decide (c' = c)) as [->|Hne].
    + exists p, s, sq. split_and!; try done.
      * unfold Cell.get_state. by rewrite list_lookup_insert_eq.
      * rewrite lookup_alter_eq, Hit. done.
    + exists p', s', sq'. split_and!; try done.
      * unfold Cell.get_state in *. by rewrite list_lookup_insert_ne.
      * rewrite lookup_alter_ne; [done|]. intros <-. apply Hne.
        by apply (Hdistinct c' c sq).
  - done.
  - done.
  - intros sq'. destruct (decide (sq = sq')) as [<-|Hne].
    + intros _. by exists c.
    + rewrite lookup_alter_ne by done. apply Hitems.
Qed.

Lemma _draw_changes_spec (celldata : list (Cell * CellState)) :
  forall (g : BoardFrame.t) (st st' : Cell.store),
  BoardFrame.colors g = <[dead := WHITE]> (<[alive := BLACK]> ∅) ->
  drawn g st ->
  (forall (c : Cell) (s : CellState), (c, s) ∈ celldata ->
     c ∈ concat (get_board (BoardFrame._game_board g)) /\ st' !! c = Some s) ->
  (forall c : Cell, c ∈ concat (get_board (BoardFrame._game_board g)) ->
     c ∉ celldata.*1 -> st' !! c = st !! c) ->
  exists canvas',
    BoardFrame._draw_changes celldata g = Done (BoardFrame.with_canvas canvas' g) /\
    drawn (BoardFrame.with_canvas canvas' g) st'.
Proof.
  unfold BoardFrame._draw_changes.
  induction celldata as [|[c s] l IH]; intros g st st' Hcol Hdrawn Hin Hout.
  - exists (BoardFrame.canvas g). cbn [for_each].
    replace (BoardFrame.with_canvas (BoardFrame.canvas g) g) with g by (by destruct g).
    split; [done|]. apply (drawn_ext g st); [|done].
    intros c Hc. apply Hout; [done|]. apply not_elem_of_nil.
  - destruct (Hin c s) as [Hc Hs]; [left|].
    destruct (_draw_changes_item_spec g st c s Hcol Hdrawn Hc) as (cv1 & Hstep & Hd1).
    cbn [for_each]. rewrite Hstep.
    destruct (IH (BoardFrame.with_canvas cv1 g) (<[c := s]> st) st') as (cv2 & Hrun & Hd2).
    + done.
    + done.
    + intros c2 s2 Hel. apply Hin. by right.
    + intros c' Hc' Hnot. destruct (decide (c' = c)) as [->|Hne].
      * rewrite Hs. symmetry. apply list_lookup_insert_eq.
        destruct Hdrawn as [Hcell _ _ _].
        destruct (Hcell c Hc) as (? & ? & ? & _ & Hs0 & _).
        unfold Cell.get_state in Hs0. destruct (st !! c) eqn:E; [|done].
        by apply lookup_lt_Some in E.
      * rewrite list_lookup_insert_ne by done. apply Hout; [done|].
        rewrite fmap_cons. cbn. intros [?|?]%elem_of_cons; done.
    + exists cv2. split; [|done]. rewrite Hrun. by destruct g.
Qed.

Lemma drawn_with_info (g : BoardFrame.t) (v : string) (st : Cell.store) :
  drawn g st -> drawn (BoardFrame.with_info v g) st.
Proof. intros [? ? ? ?]. by split. Qed.

Lemma drawn_with_game_board (g : BoardFrame.t) (b' : t) (st : Cell.store) :
  same_frame (BoardFrame._game_board g) b' ->
  drawn g st -> drawn (BoardFrame.with_game_board b' g) st.
Proof.
  intros [_ _ Hboard Hpos _ _] [Hcell Hlinks Hdistinct Hitems].
  split; cbn; unfold get_board, get_coord in *; rewrite ?Hboard, ?Hpos; done.
Qed.

(** ** The view: drawing the seeded cells *)

Lemma draw_seeded (g : BoardFrame.t) :
  let b := BoardFrame._game_board g in
  shape b ->
  BoardFrame.colors g = <[dead := WHITE]> (<[alive := BLACK]> ∅) ->
  _initial_changes b = map (fun c => (c, alive)) (alive_refs (cells b)) ->
  drawn g (replicate (width b * height b) dead) ->
  exists canvas',
    BoardFrame._draw_changes (get_initial_states b) g
      = Done (BoardFrame.with_canvas canvas' g) /\
    drawn (BoardFrame.with_canvas canvas' g) (cells b).
Proof.
  intros b Hshape Hcol Hinit Hdrawn.
  assert (forall c : Cell, c ∈ concat (get_board b) <-> (c < length (cells b))%nat) as Hon.
  { intros c. unfold get_board.
    rewrite (shape_board _ Hshape), concat_grid, elem_of_seq, (shape_cells _ Hshape).
    lia. }
  apply (_draw_changes_spec _ g _ (cells b) Hcol Hdrawn);
    unfold get_initial_states; fold b; rewrite Hinit.
  - intros c s Hel. apply list_elem_of_fmap in Hel as (c' & [= -> ->] & Hel).
    unfold alive_refs in Hel. apply list_elem_of_filter in Hel as [Hs Hel].
    split; [|done]. apply Hon. apply elem_of_seq in Hel. lia.
  - intros c Hc Hnot. apply Hon in Hc.
    destruct (lookup_lt_is_Some_2 _ _ Hc) as [s Hs]. rewrite Hs.
    rewrite lookup_replicate_2 by (rewrite <- (shape_cells _ Hshape); done).
    destruct s; [done|]. exfalso. apply Hnot.
    rewrite <- list_fmap_compose. apply list_elem_of_fmap. exists c. split; [done|].
    unfold alive_refs. apply list_elem_of_filter. split; [done|].
    apply elem_of_seq. lia.
Qed.

(** ** The view: its methods *)

Lemma links_inv_fields (g g' : BoardFrame.t) (base i : nat) :
  links_inv g base i g' ->
  BoardFrame._game_board g' = BoardFrame._game_board g /\
  BoardFrame._num_cells_x g' = BoardFrame._num_cells_x g /\
  BoardFrame._num_cells_y g' = BoardFrame._num_cells_y g /\
  BoardFrame._scale g' = BoardFrame._scale g /\
  BoardFrame._canvas_width g' = BoardFrame._canvas_width g /\
  BoardFrame._canvas_height g' = BoardFrame._canvas_height g /\
  BoardFrame.colors g' = BoardFrame.colors g /\
  BoardFrame.info g' = BoardFrame.info g.
Proof. intros [-> _ _ _]. done. Qed.

Lemma view_init rng (config : GameConfig.t) (k : nat) :
  exists g k',
    BoardFrame.__init__ rng config k = Ok (g, k') /\
    view_inv g /\
    __init__ rng config k = Ok (BoardFrame._game_board g, k') /\
    BoardFrame._num_cells_x g = GameConfig.get_num_cells_x config /\
    BoardFrame._num_cells_y g = GameConfig.get_num_cells_y config /\
    BoardFrame._scale g = GameConfig.get_scale config.
Proof.
  destruct (__init___spec rng config k) as (b & Hb & Hx & Hy & Hshape & Hseeded).
  unfold BoardFrame.__init__. rewrite Hb. cbn [bind fst snd].
  match goal with |- context [BoardFrame._create_cell_links ?g] => set (g0 := g) end.
  destruct (_create_cell_links_spec g0) as (g1 & Hg1 & Hinv); [done|done|].
  rewrite Hg1.
  pose proof (links_inv_drawn g0 g1 Hshape eq_refl Hinv) as Hd1.
  destruct (links_inv_fields _ _ _ _ Hinv)
    as (Hb1 & Hx1 & Hy1 & Hs1 & Hw1 & Hh1 & Hcol1 & _).
  cbn in Hb1, Hx1, Hy1, Hs1, Hw1, Hh1, Hcol1.
  rewrite <- Hb1 in Hshape, Hseeded.
  destruct (draw_seeded g1 Hshape Hcol1 (seeded_initial_changes _ _ _ Hseeded))
    as (cv & Hdraw & Hd2).
  { by rewrite Hb1. }
  rewrite Hdraw. eexists _, _. split; [reflexivity|].
  split; [split|].
  - split; cbn; rewrite ?Hb1, ?Hx1, ?Hy1, ?Hs1, ?Hw1, ?Hh1; try done.
    by apply (reach_init rng config k _ _ Hb).
  - by apply drawn_with_info.
  - done.
  - cbn. by rewrite Hb1.
Qed.

Lemma view_reset rng (g : BoardFrame.t) (k : nat) :
  view_frame g ->
  exists g',
    BoardFrame.reset rng g k =
      (g', (k + width (BoardFrame._game_board g) * height (BoardFrame._game_board g))%nat,
       None) /\
    view_inv g' /\
    BoardFrame._game_board g' = (reset rng (BoardFrame._game_board g) k).1 /\
    BoardFrame._num_cells_x g' = BoardFrame._num_cells_x g /\
    BoardFrame._num_cells_y g' = BoardFrame._num_cells_y g /\
    BoardFrame._scale g' = BoardFrame._scale g.
Proof.
  intros [Hreach Hx Hy Hw Hh Hcol].
  pose proof (reachable_shape _ Hreach) as Hshape.
  destruct (reset_spec rng (BoardFrame._game_board g) k Hshape)
    as (b' & Hreset & Hframe & Hseeded).
  pose proof (same_frame_shape _ _ Hframe Hshape) as Hshape'.
  assert (reachable b') as Hreach'.
  { pose proof (reach_reset rng _ k Hreach) as H. by rewrite Hreset in H. }
  assert (width b' = width (BoardFrame._game_board g)) as Hwidth
    by (unfold width; by rewrite (frame_x _ _ Hframe)).
  assert (height b' = height (BoardFrame._game_board g)) as Hheight
    by (unfold height; by rewrite (frame_y _ _ Hframe)).
  unfold BoardFrame.reset. rewrite Hreset.
  match goal with |- context [BoardFrame._create_cell_links ?g] => set (g0 := g) end.
  destruct (_create_cell_links_spec g0) as (g1 & Hg1 & Hinv);
    [done|by apply default_colors|].
  rewrite Hg1.
  pose proof (links_inv_drawn g0 g1 Hshape' eq_refl Hinv) as Hd1.
  destruct (links_inv_fields _ _ _ _ Hinv)
    as (Hb1 & Hx1 & Hy1 & Hs1 & Hw1 & Hh1 & Hcol1 & _).
  cbn in Hb1, Hx1, Hy1, Hs1, Hw1, Hh1, Hcol1.
  set (g2 := BoardFrame.with_info (get_info_string (BoardFrame._game_board g1)) g1).
  assert (BoardFrame._game_board g2 = b') as Hb2 by done.
  assert (BoardFrame.colors g2 = <[dead := WHITE]> (<[alive := BLACK]> ∅)) as Hcol2
    by (cbn; congruence).
  rewrite <- Hb2 in Hshape', Hseeded.
  destruct (draw_seeded g2 Hshape' Hcol2 (seeded_initial_changes _ _ _ Hseeded))
    as (cv & Hdraw & Hd2).
  { rewrite Hb2. unfold g2. apply drawn_with_info. exact Hd1. }
  rewrite Hdraw. cbn [BoardFrame.leave]. eexists. split.
  { reflexivity. }
  split; [split|].
  - split; cbn; rewrite ?Hb1, ?Hx1, ?Hy1, ?Hs1, ?Hw1, ?Hh1,
      ?(frame_x _ _ Hframe), ?(frame_y _ _ Hframe); done.
  - done.
  - done.
  - cbn. by rewrite Hb1.
Qed.

Lemma view_change_size rng (config : GameConfig.t) (g : BoardFrame.t) (k : nat) :
  BoardFrame.colors g = <[dead := WHITE]> (<[alive := BLACK]> ∅) ->
  exists g' k',
    BoardFrame.change_size rng config g k = (g', k', None) /\
    view_inv g' /\
    GameBoardGUI.change_size rng config k = Ok (BoardFrame._game_board g', k') /\
    BoardFrame._num_cells_x g' = GameConfig.get_num_cells_x config /\
    BoardFrame._num_cells_y g' = GameConfig.get_num_cells_y config /\
    BoardFrame._scale g' = GameConfig.get_scale config.
Proof.
  intros Hcol.
  destruct (__init___spec rng config k) as (b & Hb & Hx & Hy & Hshape & Hseeded).
  unfold BoardFrame.change_size, GameBoardGUI.change_size. rewrite Hb.
  cbn [bind fst snd].
  match goal with |- context [BoardFrame.reset rng ?g0 ?k0] =>
    set (g1 := g0); set (k1 := k0)
  end.
  destruct (view_reset rng g1 k1) as (g' & Hreset & Hinv & Hboard & Hnx & Hny & Hscale).
  { split; try done. by apply (reach_init rng config k _ _ Hb). }
  rewrite Hreset. eexists _, _. split; [reflexivity|]. split; [done|].
  split; [|done].
  change (BoardFrame._game_board g1) with b in *.
  destruct (reset_spec rng b k1 Hshape) as (b2 & E2 & _).
  rewrite E2 in Hboard |- *. cbn [fst] in Hboard. by rewrite Hboard.
Qed.

Lemma view_update rules (g : BoardFrame.t) :
  rules_total rules -> view_inv g ->
  exists g',
    BoardFrame.update rules g = (g', None) /\ view_inv g' /\
    BoardFrame._game_board g' = (update rules (BoardFrame._game_board g)).2 /\
    BoardFrame._num_cells_x g' = BoardFrame._num_cells_x g /\
    BoardFrame._num_cells_y g' = BoardFrame._num_cells_y g /\
    BoardFrame._scale g' = BoardFrame._scale g.
Proof.
  intros Hrules [[Hreach Hx Hy Hw Hh Hcol] Hsync Hinfo].
  set (b := BoardFrame._game_board g) in *.
  destruct (update_total rules b Hreach Hrules) as (deltas & b' & Hupd).
  destruct (update_ok rules b deltas b' Hupd)
    as (Hdeltas & Hgen & Hlive & Hinit & Hframe & Hcells).
  assert (reachable b') as Hreach'.
  { pose proof (reach_update rules b Hreach) as H. by rewrite Hupd in H. }
  unfold BoardFrame.update. fold b. rewrite Hupd.
  destruct (_draw_changes_spec deltas (BoardFrame.with_game_board b' g) (cells b) (cells b'))
    as (cv & Hdraw & Hd).
  - done.
  - by apply drawn_with_game_board.
  - intros c s Hel. cbn. unfold get_board. rewrite (frame_board _ _ Hframe).
    rewrite Hdeltas in Hel. apply elem_of_changes in Hel as (Hc & cur & Htr & Hne).
    split; [done|]. apply transition_inv in Htr as (n & Hn & Hcur & Hnext).
    destruct (Hcells c Hc) as (n' & cur' & next' & Hn' & Hcur' & Hnext' & Hafter & _).
    rewrite Hn in Hn'. injection Hn' as <-.
    rewrite Hcur in Hcur'. injection Hcur' as <-.
    rewrite Hnext in Hnext'. injection Hnext' as <-.
    unfold Cell.get_state in Hafter. by destruct (cells b' !! c) as [s'|]; simplify_eq.
  - intros c Hc Hnot. cbn in Hc. unfold get_board in Hc.
    rewrite (frame_board _ _ Hframe) in Hc.
    destruct (Hcells c Hc) as (n & cur & next & _ & Hcur & _ & Hafter & Hiff).
    destruct (decide (next = cur)) as [->|Hne].
    + unfold Cell.get_state in *.
      destruct (cells b' !! c), (cells b !! c); simplify_eq; done.
    + exfalso. apply Hnot. apply list_elem_of_fmap. exists (c, next).
      split; [done|]. by apply Hiff.
  - rewrite Hdraw. eexists. split; [reflexivity|].
    split; [split|done].
    + split; cbn; try done.
      * by rewrite (frame_x _ _ Hframe).
      * by rewrite (frame_y _ _ Hframe).
    + by apply drawn_with_info.
    + done.
Qed.

Lemma bind_all_dead (rows : list (list Cell)) :
  (row ← rows; cell ← row; [(cell, dead)]) = map (fun c => (c, dead)) (concat rows).
Proof.
  induction rows as [|row rows IH]; [done|].
  cbn. rewrite map_app, IH. apply (f_equal (fun l => l ++ _)).
  clear IH. induction row as [|c row IHrow]; [done|]. cbn. by rewrite IHrow.
Qed.

Lemma view_clear (g : BoardFrame.t) :
  view_inv g ->
  exists g',
    BoardFrame.clear g = (g', None) /\ view_inv g' /\
    BoardFrame._game_board g' = clear (BoardFrame._game_board g) /\
    BoardFrame._num_cells_x g' = BoardFrame._num_cells_x g /\
    BoardFrame._num_cells_y g' = BoardFrame._num_cells_y g /\
    BoardFrame._scale g' = BoardFrame._scale g.
Proof.
  intros [[Hreach Hx Hy Hw Hh Hcol] Hsync Hinfo].
  set (b := BoardFrame._game_board g) in *.
  destruct (clear_facts b Hreach) as (Hcells & Hgen & Hlive & Hframe).
  pose proof (reachable_shape _ Hreach) as Hshape.
  unfold BoardFrame.clear. fold b. cbn [BoardFrame._game_board BoardFrame.with_game_board].
  rewrite bind_all_dead.
  destruct (_draw_changes_spec (map (fun c => (c, dead)) (concat (get_board (clear b))))
              (BoardFrame.with_game_board (clear b) g) (cells b) (cells (clear b)))
    as (cv & Hdraw & Hd).
  - done.
  - by apply drawn_with_game_board.
  - intros c s Hel. cbn. apply list_elem_of_fmap in Hel as (c' & [= -> ->] & Hel).
    split; [done|]. rewrite Hcells. apply lookup_replicate_2.
    unfold get_board in Hel.
    rewrite (frame_board _ _ Hframe), (shape_board _ Hshape), concat_grid in Hel.
    apply elem_of_seq in Hel. lia.
  - intros c Hc Hnot. exfalso. apply Hnot. rewrite <- list_fmap_compose.
    apply list_elem_of_fmap. by exists c.
  - rewrite Hdraw. cbn [BoardFrame.leave]. eexists. split; [reflexivity|].
    split; [split|done].
    + split; cbn; try done.
      * by apply reach_clear.
      * by rewrite (frame_x _ _ Hframe).
      * by rewrite (frame_y _ _ Hframe).
    + done.
    + cbn. rewrite Hinfo. unfold get_info_string, _get_total_live_cells.
      by rewrite Hgen, Hlive.
Qed.

Lemma view_toggle_cell (event_x event_y : Z) (g : BoardFrame.t) :
  view_inv g ->
  let g' := (BoardFrame.toggle_cell event_x event_y g).1 in
  view_inv g' /\
  BoardFrame._num_cells_x g' = BoardFrame._num_cells_x g /\
  BoardFrame._num_cells_y g' = BoardFrame._num_cells_y g /\
  BoardFrame._scale g' = BoardFrame._scale g.
Proof.
  intros Hinv g'. unfold g'. clear g'. pose proof Hinv as [[Hreach Hx Hy Hw Hh Hcol] Hsync Hinfo].
  set (b := BoardFrame._game_board g) in *.
  pose proof (reachable_shape _ Hreach) as Hshape.
  unfold BoardFrame.toggle_cell.
  destruct (floordiv event_x _) as [x|]; [|done].
  destruct (floordiv event_y _) as [y|]; [|done].
  fold b. pose proof (toggle_cell_frame b x y) as Hframe.
  pose proof (reach_toggle_cell b x y Hreach) as Hreach'.
  unfold toggle_cell in *.
  destruct (get_cell b x y) as [cell|e] eqn:Hcell.
  2:{ cbn. by replace (BoardFrame.with_game_board b g) with g by (by destruct g). }
  unfold Cell.toggle_state, Cell.get_state in *.
  destruct (cells b !! cell) as [s|] eqn:Hs; cbn [bind] in *.
  2:{ cbn. by replace (BoardFrame.with_game_board b g) with g by (by destruct g). }
  assert (exists s', (if decide (s = dead) then Ok (alive, <[cell := alive]> (cells b))
                      else Ok (dead, <[cell := dead]> (cells b)))
                     = Ok (s', <[cell := s']> (cells b))) as [s' Heq]
    by (case_decide; eauto).
  rewrite Heq in *. cbn [snd] in *.
  pose proof (get_cell_elem b x y cell Hshape Hcell) as Hon.
  set (b' := with_cells (<[cell := s']> (cells b)) b) in *.
  destruct (_draw_changes_spec [(cell, s')] (BoardFrame.with_game_board b' g)
              (cells b) (cells b')) as (cv & Hdraw & Hd).
  - done.
  - by apply drawn_with_game_board.
  - intros c s0 [= -> ->]%list_elem_of_singleton. split; [done|].
    cbn. apply list_lookup_insert_eq. by apply lookup_lt_Some in Hs.
  - intros c Hc Hnot. cbn. apply list_lookup_insert_ne. intros <-. apply Hnot. left.
  - rewrite Hdraw. cbn [fst]. split; [split; [split|done|done]; cbn; done|done].
Qed.

Lemma view_reachable_inv (g : BoardFrame.t) : view_reachable g -> view_inv g.
Proof.
  induction 1 as [rng config k g k' Hinit|rules g Hrules _ IH|x y g _ IH|g _ IH
                  |rng g k _ IH|rng config g k _ IH].
  - destruct (view_init rng config k) as (g0 & k0 & Hg0 & Hinv & _).
    rewrite Hinit in Hg0. by injection Hg0 as <- <-.
  - destruct (view_update rules g Hrules IH) as (g' & -> & Hinv & _). done.
  - by apply view_toggle_cell.
  - destruct (view_clear g IH) as (g' & -> & Hinv & _). done.
  - destruct (view_reset rng g k (vi_frame _ IH)) as (g' & -> & Hinv & _). done.
  - destruct (view_change_size rng config g k (vf_colors _ (vi_frame _ IH)))
      as (g' & k' & -> & Hinv & _). done.
Qed.

(** ** Further properties: the board on the canvas *)

(** X18.  The canvas always shows the board.  After construction and after
    any run of [update], [toggle_cell], [clear], [reset] and [change_size],
    every cell of the board is linked to a rectangle of its own, which lies at
    the cell's position times the scale, is one scale wide and high, and is
    filled with the colour of the cell's state; and the canvas holds no
    rectangle besides these, so [reset] leaves none of the old ones behind. *)
Theorem X18_canvas_shows_board (g : BoardFrame.t) :
  view_reachable g -> in_sync g.
Proof. intros Hg. apply view_reachable_inv in Hg. apply Hg. Qed.

Lemma X18_canvas_shows_board_witness :
  view_reachable (BoardFrame.toggle_cell 20 5 (view_of (fun _ => 0) 2 2)).1 /\
  in_sync (BoardFrame.toggle_cell 20 5 (view_of (fun _ => 0) 2 2)).1.
Proof.
  assert (view_reachable (BoardFrame.toggle_cell 20 5 (view_of (fun _ => 0) 2 2)).1) as Hg.
  { apply vreach_toggle_cell.
    apply (vreach_init (fun _ => 0) (config_of 2 2) 0 _ 4%nat). vm_compute. reflexivity. }
  split; [exact Hg|].
  exact (X18_canvas_shows_board _ Hg).
Defined.

(** X19.  No method of the view raises.  Construction returns a view, and on
    a view made by the methods, [update] with a rule table whose lookups
    succeed, [clear], [reset] and [change_size] return normally: the lookups
    [colors[state]] and [links[cell]] of [_draw_changes] and the [get_coord]
    of [_create_cell_links] never miss. *)
Theorem X19_view_methods_return (rng : nat -> Z) (config : GameConfig.t)
  (rules : gmap CellState (gmap Z CellState)) (g : BoardFrame.t) (k : nat) :
  view_reachable g -> rules_total rules ->
  (exists g0 k0, BoardFrame.__init__ rng config k = Ok (g0, k0)) /\
  (BoardFrame.update rules g).2 = None /\
  (BoardFrame.clear g).2 = None /\
  (BoardFrame.reset rng g k).2 = None /\
  (BoardFrame.change_size rng config g k).2 = None.
Proof.
  intros Hg Hrules. apply view_reachable_inv in Hg. split_and!.
  - destruct (view_init rng config k) as (g0 & k0 & H0 & _). by exists g0, k0.
  - destruct (view_update rules g Hrules Hg) as (g' & -> & _). done.
  - destruct (view_clear g Hg) as (g' & -> & _). done.
  - destruct (view_reset rng g k (vi_frame _ Hg)) as (g' & -> & _). done.
  - destruct (view_change_size rng config g k (vf_colors _ (vi_frame _ Hg)))
      as (g' & k' & -> & _). done.
Qed.

Lemma X19_view_methods_return_witness :
  view_reachable (view_of (fun _ => 0) 2 2) /\
  rules_total GameRules.__init__ /\
  (BoardFrame.update GameRules.__init__ (view_of (fun _ => 0) 2 2)).2 = None.
Proof.
  assert (view_reachable (view_of (fun _ => 0) 2 2)) as Hg.
  { apply (vreach_init (fun _ => 0) (config_of 2 2) 0 _ 4%nat). vm_compute. reflexivity. }
  split; [exact Hg|]. split; [exact rules_total_init|].
  exact (proj1 (proj2 (X19_view_methods_return (fun _ => 0) (config_of 2 2)
                         GameRules.__init__ _ 0 Hg rules_total_init))).
Defined.

(** X20.  The label always shows the board's generation and live counter:
    [update] and [reset] set it, and [toggle_cell] and [clear], which do not,
    change neither number on the board. *)
Theorem X20_info_label_shows_counters (g : BoardFrame.t) :
  view_reachable g ->
  BoardFrame.info g = get_info_string (BoardFrame._game_board g).
Proof. intros Hg. apply view_reachable_inv in Hg. apply Hg. Qed.

Lemma X20_info_label_shows_counters_witness :
  view_reachable (BoardFrame.clear (view_of (fun _ => 0) 2 2)).1 /\
  BoardFrame.info (BoardFrame.clear (view_of (fun _ => 0) 2 2)).1
    = get_info_string (BoardFrame._game_board (BoardFrame.clear (view_of (fun _ => 0) 2 2)).1).
Proof.
  assert (view_reachable (BoardFrame.clear (view_of (fun _ => 0) 2 2)).1) as Hg.
  { apply vreach_clear.
    apply (vreach_init (fun _ => 0) (config_of 2 2) 0 _ 4%nat). vm_compute. reflexivity. }
  split; [exact Hg|].
  exact (X20_info_label_shows_counters _ Hg).
Defined.

Lemma floordiv_pos (a b : Z) : 1 <= b -> floordiv a b = Some (a / b).
Proof. intros Hb. unfold floordiv. by rewrite decide_False by lia. Qed.

Lemma pixel_cell (p n scale : Z) :
  1 <= scale -> 0 <= p < n * scale ->
  0 <= p / scale < n /\ p / scale * scale <= p < p / scale * scale + scale.
Proof.
  intros Hs Hp.
  pose proof (Z.div_mod p scale ltac:(lia)) as Hdm.
  pose proof (Z.mod_pos_bound p scale ltac:(lia)) as Hm.
  split; [|lia]. split; [apply Z.div_pos; lia|].
  apply Z.div_lt_upper_bound; lia.
Qed.

(** What [toggle_cell] of the view does for a pixel inside the canvas. *)
Lemma view_toggle_cell_in (event_x event_y : Z) (g : BoardFrame.t) :
  view_inv g ->
  1 <= BoardFrame._scale g ->
  0 <= event_x < BoardFrame._canvas_width g ->
  0 <= event_y < BoardFrame._canvas_height g ->
  let x := event_x / BoardFrame._scale g in
  let y := event_y / BoardFrame._scale g in
  let b := BoardFrame._game_board g in
  exists (cell : Cell) (s : CellState) (cv : Canvas.t),
    get_cell b x y = Ok cell /\
    get_coord b cell = Ok (x, y) /\
    cells b !! cell = Some s /\
    BoardFrame.toggle_cell event_x event_y g =
      (BoardFrame.with_canvas cv
         (BoardFrame.with_game_board (with_cells (<[cell := flip s]> (cells b)) b) g),
       None) /\
    drawn (BoardFrame.with_canvas cv
             (BoardFrame.with_game_board (with_cells (<[cell := flip s]> (cells b)) b) g))
          (<[cell := flip s]> (cells b)).
Proof.
  intros [[Hreach Hx Hy Hw Hh Hcol] Hsync Hinfo] Hscale Hpx Hpy x y b.
  pose proof (reachable_shape _ Hreach) as Hshape. fold b in Hshape, Hx, Hy, Hsync.
  rewrite Hw, Hx in Hpx. rewrite Hh, Hy in Hpy.
  destruct (pixel_cell _ _ _ Hscale Hpx) as [Hx0 _].
  destruct (pixel_cell _ _ _ Hscale Hpy) as [Hy0 _].
  fold x in Hx0. fold y in Hy0.
  assert (0 <= x < Z.of_nat (width b)) as Hxw by (unfold width; lia).
  assert (0 <= y < Z.of_nat (height b)) as Hyh by (unfold height; lia).
  destruct (toggle_cell_in b x y Hshape) as (s & Hs & Hcoord & Htoggle); [lia|lia|].
  rewrite !Z.mod_small in Hs, Hcoord, Htoggle by lia.
  set (cell := cell_at (width b) (x, y)) in *.
  assert (get_cell b x y = Ok cell) as Hcell.
  { rewrite get_cell_in by (done || lia). by rewrite !Z.mod_small by lia. }
  unfold BoardFrame.toggle_cell. rewrite !floordiv_pos by done.
  fold x y b. rewrite Htoggle.
  set (b' := with_cells (<[cell := flip s]> (cells b)) b).
  destruct (_draw_changes_spec [(cell, flip s)] (BoardFrame.with_game_board b' g)
              (cells b) (cells b')) as (cv & Hdraw & Hd).
  - done.
  - apply drawn_with_game_board; [|done]. split; try done. cbn. apply length_insert.
  - intros c s0 [= -> ->]%list_elem_of_singleton. split.
    + by apply (get_cell_elem b x y).
    + cbn. apply list_lookup_insert_eq. by apply lookup_lt_Some in Hs.
  - intros c Hc Hnot. cbn. apply list_lookup_insert_ne. intros <-. apply Hnot. left.
  - exists cell, s, cv. rewrite Hdraw. done.
Qed.

(** X21.  A click inside the canvas toggles the cell under the pointer.  On a
    view with a scale of at least one, [toggle_cell] on a pixel of the canvas
    returns normally; the cell it toggles is the one whose rectangle holds
    the pixel; that cell changes state and its rectangle changes to the
    colour of the new state; and no other cell and no other rectangle
    changes. *)
Theorem X21_click_toggles_cell_under_pointer (g : BoardFrame.t) (event_x event_y : Z) :
  view_reachable g ->
  1 <= BoardFrame._scale g ->
  0 <= event_x < BoardFrame._canvas_width g ->
  0 <= event_y < BoardFrame._canvas_height g ->
  exists (g' : BoardFrame.t) (cell : Cell) (s : CellState) (square : nat)
         (r : Z * Z * Z * Z),
    BoardFrame.toggle_cell event_x event_y g = (g', None) /\
    BoardFrame.links g' = BoardFrame.links g /\
    BoardFrame.links g !! cell = Some square /\
    covers r event_x event_y /\
    Cell.get_state cell (cells (BoardFrame._game_board g)) = Ok s /\
    Canvas.items (BoardFrame.canvas g) !! square = Some (Canvas.mk_item r (color_of s)) /\
    Cell.get_state cell (cells (BoardFrame._game_board g')) = Ok (flip s) /\
    Canvas.items (BoardFrame.canvas g') !! square
      = Some (Canvas.mk_item r (color_of (flip s))) /\
    (forall c : Cell, c <> cell ->
       Cell.get_state c (cells (BoardFrame._game_board g'))
         = Cell.get_state c (cells (BoardFrame._game_board g))) /\
    (forall sq : nat, sq <> square ->
       Canvas.items (BoardFrame.canvas g') !! sq = Canvas.items (BoardFrame.canvas g) !! sq).
Proof.
  intros Hg Hscale Hpx Hpy. apply view_reachable_inv in Hg.
  destruct (view_toggle_cell_in event_x event_y g Hg Hscale Hpx Hpy)
    as (cell & s & cv & Hcell & Hcoord & Hs & Htoggle & Hd').
  pose proof Hg as [[Hreach Hx Hy Hw Hh Hcol] Hd _].
  pose proof (reachable_shape _ Hreach) as Hshape.
  set (b := BoardFrame._game_board g) in *.
  set (x := event_x / BoardFrame._scale g) in *.
  set (y := event_y / BoardFrame._scale g) in *.
  set (b' := with_cells (<[cell := flip s]> (cells b)) b) in *.
  set (g' := BoardFrame.with_canvas cv (BoardFrame.with_game_board b' g)) in *.
  pose proof (get_cell_elem b x y cell Hshape Hcell) as Hon.
  assert (cell < length (cells b))%nat as Hlen by (by apply lookup_lt_Some in Hs).
  destruct (drawn_cell _ _ Hd cell Hon) as (p & s0 & square & Hp & Hs0 & Hsq & Hit).
  fold b in Hp, Hs0. rewrite Hcoord in Hp. injection Hp as <-.
  unfold Cell.get_state in Hs0. rewrite Hs in Hs0. injection Hs0 as <-.
  destruct (drawn_cell _ _ Hd' cell Hon) as (p' & s' & square' & Hp' & Hs' & Hsq' & Hit').
  cbn in Hp', Hsq', Hit'. unfold get_coord in Hp', Hcoord. cbn in Hp'.
  rewrite Hcoord in Hp'. injection Hp' as <-.
  rewrite Hsq in Hsq'. injection Hsq' as <-.
  unfold Cell.get_state in Hs'. rewrite list_lookup_insert_eq in Hs' by done.
  injection Hs' as <-.
  exists g', cell, s, square, (square_of (BoardFrame._scale g) (x, y)).
  split_and!; try done.
  - rewrite Hw, Hx in Hpx. rewrite Hh, Hy in Hpy.
    destruct (pixel_cell _ _ _ Hscale Hpx) as [_ Hcx].
    destruct (pixel_cell _ _ _ Hscale Hpy) as [_ Hcy].
    unfold covers, square_of. cbn. fold x y. lia.
  - unfold Cell.get_state. fold b. by rewrite Hs.
  - cbn. unfold Cell.get_state. by rewrite list_lookup_insert_eq.
  - intros c Hne. cbn. unfold Cell.get_state. by rewrite list_lookup_insert_ne.
  - intros sq Hne.
    assert (forall c : Cell, BoardFrame.links g !! c = Some sq ->
              Canvas.items (BoardFrame.canvas g') !! sq
                = Canvas.items (BoardFrame.canvas g) !! sq) as Hsame.
    { intros c Hc.
      assert (c <> cell) as Hcne by (intros ->; rewrite Hsq in Hc; by injection Hc).
      pose proof (drawn_links _ _ Hd c sq Hc) as Hcon.
      destruct (drawn_cell _ _ Hd c Hcon) as (p1 & s1 & sq1 & Hp1 & Hs1 & Hsq1 & Hit1).
      destruct (drawn_cell _ _ Hd' c Hcon) as (p2 & s2 & sq2 & Hp2 & Hs2 & Hsq2 & Hit2).
      cbn in Hp2, Hsq2, Hit2. fold b in Hp1, Hs1.
      unfold get_coord in Hp1, Hp2. cbn in Hp2. rewrite Hp1 in Hp2. injection Hp2 as <-.
      rewrite Hc in Hsq1, Hsq2. injection Hsq1 as <-. injection Hsq2 as <-.
      unfold Cell.get_state in Hs1, Hs2.
      rewrite list_lookup_insert_ne in Hs2 by done.
      destruct (cells b !! c); simplify_eq. etrans; [exact Hit2|]. by rewrite Hit1. }
    destruct (Canvas.items (BoardFrame.canvas g) !! sq) as [it|] eqn:Hold.
    + destruct (drawn_items _ _ Hd sq) as [c Hc]; [by rewrite Hold|].
      rewrite (Hsame c Hc). done.
    + destruct (Canvas.items (BoardFrame.canvas g') !! sq) as [it|] eqn:Hnew; [|done].
      destruct (drawn_items _ _ Hd' sq) as [c Hc]; [by rewrite Hnew|].
      cbn in Hc. pose proof (Hsame c Hc) as E. congruence.
Qed.

Lemma X21_click_toggles_cell_under_pointer_witness :
  view_reachable (view_of (fun _ => 0) 2 2) /\
  exists (g' : BoardFrame.t) (cell : Cell) (s : CellState) (square : nat)
         (r : Z * Z * Z * Z),
    BoardFrame.toggle_cell 20 5 (view_of (fun _ => 0) 2 2) = (g', None) /\
    BoardFrame.links g' = BoardFrame.links (view_of (fun _ => 0) 2 2) /\
    BoardFrame.links (view_of (fun _ => 0) 2 2) !! cell = Some square /\
    covers r 20 5 /\
    Cell.get_state cell (cells (BoardFrame._game_board (view_of (fun _ => 0) 2 2))) = Ok s /\
    Canvas.items (BoardFrame.canvas (view_of (fun _ => 0) 2 2)) !! square
      = Some (Canvas.mk_item r (color_of s)) /\
    Cell.get_state cell (cells (BoardFrame._game_board g')) = Ok (flip s) /\
    Canvas.items (BoardFrame.canvas g') !! square
      = Some (Canvas.mk_item r (color_of (flip s))) /\
    (forall c : Cell, c <> cell ->
       Cell.get_state c (cells (BoardFrame._game_board g'))
         = Cell.get_state c (cells (BoardFrame._game_board (view_of (fun _ => 0) 2 2)))) /\
    (forall sq : nat, sq <> square ->
       Canvas.items (BoardFrame.canvas g') !! sq
         = Canvas.items (BoardFrame.canvas (view_of (fun _ => 0) 2 2)) !! sq).
Proof.
  assert (view_reachable (view_of (fun _ => 0) 2 2)) as Hg.
  { apply (vreach_init (fun _ => 0) (config_of 2 2) 0 _ 4%nat). vm_compute. reflexivity. }
  split; [exact Hg|].
  apply (X21_click_toggles_cell_under_pointer _ 20 5 Hg); vm_compute; done.
Defined.

(** X22.  A click past the last column or the last row raises [IndexError]
    and changes nothing: [toggle_cell] does not compare the pixel with the
    size of the canvas. *)
Theorem X22_click_past_the_grid_raises (g : BoardFrame.t) (event_x event_y : Z) :
  view_reachable g ->
  1 <= BoardFrame._scale g ->
  0 <= event_x -> 0 <= event_y ->
  BoardFrame._canvas_width g <= event_x \/ BoardFrame._canvas_height g <= event_y ->
  BoardFrame.toggle_cell event_x event_y g = (g, Some (BoardError IndexError)).
Proof.
  intros Hg Hscale Hx0 Hy0 Hout. apply view_reachable_inv in Hg.
  destruct Hg as [[Hreach Hx Hy Hw Hh Hcol] _ _].
  pose proof (reachable_shape _ Hreach) as Hshape.
  unfold BoardFrame.toggle_cell. rewrite !floordiv_pos by done.
  unfold toggle_cell. rewrite get_cell_out; [by destruct g|done|].
  rewrite Hw, Hx in Hout. rewrite Hh, Hy in Hout.
  set (b := BoardFrame._game_board g) in *.
  pose proof (Z.div_pos event_x (BoardFrame._scale g) Hx0 ltac:(lia)) as Hdx.
  pose proof (Z.div_pos event_y (BoardFrame._scale g) Hy0 ltac:(lia)) as Hdy.
  intros [Hbx Hby]. unfold width, height in Hbx, Hby.
  destruct Hout as [Hout|Hout].
  - assert (_num_cells_x b <= event_x / BoardFrame._scale g); [|lia].
    apply Z.div_le_lower_bound; lia.
  - assert (_num_cells_y b <= event_y / BoardFrame._scale g); [|lia].
    apply Z.div_le_lower_bound; lia.
Qed.

Lemma X22_click_past_the_grid_raises_witness :
  view_reachable (view_of (fun _ => 0) 2 2) /\
  BoardFrame.toggle_cell 32 5 (view_of (fun _ => 0) 2 2)
    = (view_of (fun _ => 0) 2 2, Some (BoardError IndexError)).
Proof.
  assert (view_reachable (view_of (fun _ => 0) 2 2)) as Hg.
  { apply (vreach_init (fun _ => 0) (config_of 2 2) 0 _ 4%nat). vm_compute. reflexivity. }
  split; [exact Hg|].
  apply (X22_click_past_the_grid_raises _ 32 5 Hg); vm_compute; (done || by left).
Defined.

(** ** The application: what every event keeps *)

Ltac app_simpl :=
  cbn [App._playing App._play_id App._delay App._board_config App._rules
       App._game_board App._config_gui App._rule_gui App.tk App.draws
       App.with_playing App.with_play_id App.with_delay App.with_board_config
       App.with_rules App.with_game_board App.with_config_gui App.with_rule_gui
       App.with_tk App.with_draws App.lift
       ConfigFrame._board_needs_rebuild ConfigFrame.with_board_needs_rebuild
       Timers.pending Timers.next_id Timers.after Timers.after_cancel fst snd].

Lemma click_rule_spec key (self : RulesFrame.t) (rules : gmap CellState (gmap Z CellState)) :
  (RulesFrame._vars self).*1 = (RulesFrame._vars RulesFrame.__init__).*1 ->
  rules_total rules ->
  exists self' rules',
    click_rule key (self, rules) = (self', Done rules') /\
    (RulesFrame._vars self').*1 = (RulesFrame._vars RulesFrame.__init__).*1 /\
    rules_total rules' /\ mirrors self' rules'.
Proof.
  intros Hkeys Htotal.
  destruct (click_rules_spec [key] self rules Hkeys Htotal)
    as (self' & rules' & Hrun & Hkeys' & Htotal' & Hm & _).
  exists self', rules'. split; [|by auto].
  cbn [click_rules] in Hrun.
  destruct (click_rule key (self, rules)) as [f [r|e r]]; by simplify_eq.
Qed.

Lemma delay_bounds (fps : Z) :
  1 <= fps <= 1000 ->
  floordiv 1000 fps = Some (1000 / fps) /\ 1 <= 1000 / fps <= 1000.
Proof.
  intros Hfps. split; [apply floordiv_pos; lia|]. split.
  - apply Z.div_le_lower_bound; lia.
  - apply Z.div_le_upper_bound; lia.
Qed.

Lemma app_init_inv rng (k : nat) :
  exists a, App.__init__ rng k = Ok a /\ app_inv a.
Proof.
  destruct (view_init rng GameConfig.__init__ k)
    as (g & k' & Hg & Hinv & _ & Hx & Hy & Hs).
  unfold App.__init__. rewrite Hg. cbn [bind fst snd].
  eexists. split; [reflexivity|].
  split; app_simpl; try done. apply rules_total_init.
Qed.

Lemma app_play_pause (a : App.t) :
  app_inv a -> (App.play_pause a).2 = None /\ app_inv (App.play_pause a).1.
Proof.
  intros [Hconfig Hview Hx Hy Hs Hkeys Hrules Hflag Hdelay Htimers].
  unfold App.play_pause. destruct (App._playing a) eqn:Hplaying; cbn [negb].
  - destruct Htimers as (id & ms & Hid & Hpending & Hms).
    rewrite Hid. app_simpl. split; [done|].
    split; app_simpl; try done. split; [done|]. rewrite Hpending. apply delete_singleton_eq.
  - destruct Htimers as [Hid Hpending].
    destruct (delay_bounds (GameConfig.get_fps (App._board_config a))) as [Hdiv Hbounds];
      [apply Hconfig|].
    app_simpl. rewrite Hdiv. app_simpl. split; [done|].
    split; app_simpl; try done.
    eexists _, 0. split; [done|]. split; [|by left].
    rewrite Hpending. apply insert_empty.
Qed.

Lemma app_stop (a : App.t) :
  app_inv a ->
  (App.stop a).2 = None /\ app_inv (App.stop a).1 /\
  App._playing (App.stop a).1 = false /\
  App._board_config (App.stop a).1 = App._board_config a /\
  App._game_board (App.stop a).1 = App._game_board a /\
  App._config_gui (App.stop a).1 = App._config_gui a /\
  App.draws (App.stop a).1 = App.draws a.
Proof.
  intros [Hconfig Hview Hx Hy Hs Hkeys Hrules Hflag Hdelay Htimers].
  unfold App.stop. destruct (App._playing a) eqn:Hplaying.
  - destruct Htimers as (id & ms & Hid & Hpending & Hms).
    rewrite Hid. app_simpl. split; [done|]. split; [|done].
    split; app_simpl; try done. split; [done|]. rewrite Hpending. apply delete_singleton_eq.
  - app_simpl. split; [done|]. split; [|done]. split; try done. by rewrite Hplaying.
Qed.

Lemma app_with_view (a : App.t) (g : BoardFrame.t) :
  app_inv a -> view_inv g ->
  BoardFrame._num_cells_x g = BoardFrame._num_cells_x (App._game_board a) ->
  BoardFrame._num_cells_y g = BoardFrame._num_cells_y (App._game_board a) ->
  BoardFrame._scale g = BoardFrame._scale (App._game_board a) ->
  app_inv (App.with_game_board g a).
Proof.
  intros [Hconfig Hview Hx Hy Hs Hkeys Hrules Hflag Hdelay Htimers] Hg Hgx Hgy Hgs.
  split; app_simpl; try done; congruence.
Qed.

Lemma app_with_draws (a : App.t) (k : nat) : app_inv a -> app_inv (App.with_draws k a).
Proof. intros [? ? ? ? ? ? ? ? ? ?]. by split. Qed.

Lemma app_advance (a : App.t) :
  app_inv a -> (App.advance a).2 = None /\ app_inv (App.advance a).1.
Proof.
  intros Ha. unfold App.advance.
  destruct (view_update (App._rules a) (App._game_board a) (ai_rules _ Ha) (ai_view _ Ha))
    as (g' & -> & Hinv & _ & Hx & Hy & Hs).
  app_simpl. split; [done|]. by apply app_with_view.
Qed.

Lemma app_play_frame (a : App.t) :
  ConfigFrame._board_needs_rebuild (App._config_gui a) = false ->
  config_valid (App._board_config a) ->
  view_inv (App._game_board a) ->
  BoardFrame._num_cells_x (App._game_board a)
    = GameConfig.get_num_cells_x (App._board_config a) ->
  BoardFrame._num_cells_y (App._game_board a)
    = GameConfig.get_num_cells_y (App._board_config a) ->
  BoardFrame._scale (App._game_board a) = GameConfig.get_scale (App._board_config a) ->
  (RulesFrame._vars (App._rule_gui a)).*1 = (RulesFrame._vars RulesFrame.__init__).*1 ->
  rules_total (App._rules a) ->
  1 <= App._delay a <= 1000 ->
  App._playing a = true ->
  Timers.pending (App.tk a) = ∅ ->
  (App._play_frame a).2 = None /\ app_inv (App._play_frame a).1.
Proof.
  intros Hflag Hconfig Hview Hx Hy Hs Hkeys Hrules Hdelay Hplaying Hpending.
  unfold App._play_frame.
  destruct (view_update (App._rules a) (App._game_board a) Hrules Hview)
    as (g' & -> & Hinv & _ & Hgx & Hgy & Hgs).
  app_simpl. split; [done|].
  split; app_simpl; try done; try congruence.
  rewrite Hplaying. eexists _, _. split; [done|]. split; [|by right].
  rewrite Hpending. apply insert_empty.
Qed.

Lemma app_set_options rng (screenwidth screenheight : Z) (a : App.t) :
  app_inv a ->
  (App._set_options rng screenwidth screenheight a).2 = None /\
  app_inv (App._set_options rng screenwidth screenheight a).1.
Proof.
  intros Ha. pose proof Ha as [Hconfig Hview Hx Hy Hs Hkeys Hrules Hflag Hdelay Htimers].
  unfold App._set_options.
  pose proof (validate_all_valid screenwidth screenheight (App._board_config a)
                (App._config_gui a) Hconfig) as (Hvalid & _).
  pose proof (validate_all_flag screenwidth screenheight (App._board_config a)
                (App._config_gui a)) as (Hfl & Hks & Hkx & Hky & _).
  destruct (ConfigFrame.validate_all screenwidth screenheight
              (App._board_config a, App._config_gui a)) as [config form] eqn:Hval.
  cbn [fst snd] in *. rewrite Hflag in Hfl. cbn [orb] in Hfl.
  set (a1 := App.with_config_gui form (App.with_board_config config a)).
  change (App._config_gui a1) with form.
  destruct (ConfigFrame._board_needs_rebuild form) eqn:Hform.
  - assert (forall a2 : App.t,
              App._playing a2 = false ->
              App._play_id a2 = None -> Timers.pending (App.tk a2) = ∅ ->
              App._board_config a2 = config -> App._rules a2 = App._rules a ->
              App._rule_gui a2 = App._rule_gui a -> App._delay a2 = App._delay a ->
              BoardFrame.colors (App._game_board a2)
                = <[dead := WHITE]> (<[alive := BLACK]> ∅) ->
              (App.rebuild_board rng a2).2 = None /\
              app_inv (App.with_config_gui
                         (ConfigFrame.with_board_needs_rebuild false
                            (App._config_gui (App.rebuild_board rng a2).1))
                         (App.rebuild_board rng a2).1)) as Hrebuild.
    { intros a2 Hp Hid Hpend Hc Hr Hrg Hd Hcol. unfold App.rebuild_board.
      destruct (view_change_size rng (App._board_config a2) (App._game_board a2)
                  (App.draws a2) Hcol)
        as (g' & k' & -> & Hinv & _ & Hgx & Hgy & Hgs).
      app_simpl. split; [done|]. split; app_simpl; try done; try congruence.
      - by rewrite Hr.
      - by rewrite Hp. }
    unfold App.stop. destruct (App._playing a1) eqn:Hplaying.
    + assert (App._playing a = true) as Hpa by done.
      rewrite Hpa in Htimers. destruct Htimers as (id & ms & Hid & Hpending & Hms).
      change (App._play_id a1) with (App._play_id a). rewrite Hid.
      app_simpl.
      match goal with |- context [App.rebuild_board rng ?x] => set (a2 := x) end.
      assert (Timers.pending (App.tk a2) = ∅) as Hpend2
        by (unfold a2, a1; app_simpl; rewrite Hpending; apply delete_singleton_eq).
      pose proof (Hrebuild a2 eq_refl eq_refl Hpend2 eq_refl eq_refl eq_refl eq_refl
                    (vf_colors _ (vi_frame _ Hview))) as [Hnone Hinv].
      destruct (App.rebuild_board rng a2) as [a3 [e|]]; done.
    + assert (App._playing a = false) as Hpa by done.
      rewrite Hpa in Htimers. destruct Htimers as [Hid Hpending].
      pose proof (Hrebuild a1 Hplaying Hid Hpending eq_refl eq_refl eq_refl eq_refl
                    (vf_colors _ (vi_frame _ Hview))) as [Hnone Hinv].
      destruct (App.rebuild_board rng a1) as [a3 [e|]]; done.
  - app_simpl. split; [done|].
    symmetry in Hfl. apply orb_false_elim in Hfl as [Hfl Hdy].
    apply orb_false_elim in Hfl as [Hds Hdx].
    split; unfold a1; app_simpl; try done.
    + rewrite Hx. symmetry. by apply Hkx.
    + rewrite Hy. symmetry. by apply Hky.
    + rewrite Hs. symmetry. by apply Hks.
Qed.

Lemma app_handle rng (ev : event) (a : App.t) :
  app_inv a ->
  app_inv (handle rng ev a).1 /\
  ((handle rng ev a).2 = None \/
   exists x y : Z, ev = click_canvas x y /\ ~ on_canvas (App._game_board a) x y).
Proof.
  intros Ha. pose proof Ha as [Hconfig Hview Hx Hy Hs Hkeys Hrules Hflag Hdelay Htimers].
  destruct ev as [| | | |x y|key|es ex ey ef|sw sh|id]; cbn [handle].
  - destruct (app_play_pause a Ha) as [Hnone Hinv]. by auto.
  - destruct (app_advance a Ha) as [Hnone Hinv]. by auto.
  - destruct (view_clear _ Hview) as (g' & -> & Hinv & _ & Hgx & Hgy & Hgs).
    app_simpl. split; [|by left]. by apply app_with_view.
  - unfold App.reset.
    destruct (view_reset rng _ (App.draws a) (vi_frame _ Hview))
      as (g' & -> & Hinv & _ & Hgx & Hgy & Hgs).
    app_simpl. split; [|by left]. apply app_with_draws. by apply app_with_view.
  - destruct (view_toggle_cell x y _ Hview) as (Hinv & Hgx & Hgy & Hgs).
    destruct (decide (on_canvas (App._game_board a) x y)) as [[Hin_x Hin_y]|Hout].
    + destruct (view_toggle_cell_in x y _ Hview) as (c & s & cv & _ & _ & _ & Heq & _);
        [rewrite Hs; apply Hconfig|done|done|].
      rewrite Heq in *. app_simpl. split; [|by left]. by apply app_with_view.
    + destruct (BoardFrame.toggle_cell x y (App._game_board a)) as [g' e].
      app_simpl. split; [by apply app_with_view|]. right. by exists x, y.
  - destruct (click_rule_spec key _ _ Hkeys Hrules) as (f & r & -> & Hk & Ht & _).
    app_simpl. split; [|by left]. split; app_simpl; done.
  - app_simpl. split; [|by left]. split; app_simpl; done.
  - destruct (app_set_options rng sw sh a Ha) as [Hnone Hinv]. by auto.
  - destruct (Timers.pending (App.tk a) !! id) as [ms|] eqn:Hid; [|by auto].
    destruct (App._playing a) eqn:Hplaying.
    + destruct Htimers as (id0 & ms0 & Hid0 & Hpending & Hms).
      rewrite Hpending in Hid. apply lookup_singleton_Some in Hid as [-> ->].
      match goal with |- context [App._play_frame ?x] => set (a1 := x) end.
      destruct (app_play_frame a1) as [Hnone Hinv]; try done.
      * unfold a1. app_simpl. rewrite Hpending. apply delete_singleton_eq.
      * by auto.
    + destruct Htimers as [_ Hpending]. by rewrite Hpending, lookup_empty in Hid.
Qed.

Lemma app_run rng (evs : list event) : forall a : App.t,
  app_inv a -> app_inv (run rng evs a).
Proof.
  unfold run. induction evs as [|ev evs IH]; intros a Ha; [done|].
  cbn [foldl]. apply IH. by apply app_handle.
Qed.

Lemma app_set_options_spec rng (screenwidth screenheight : Z) (a : App.t) :
  app_inv a ->
  let st := ConfigFrame.validate_all screenwidth screenheight
              (App._board_config a, App._config_gui a) in
  let a' := (App._set_options rng screenwidth screenheight a).1 in
  App._board_config a' = st.1 /\
  if ConfigFrame._board_needs_rebuild st.2 then
    App._playing a' = false /\
    Timers.pending (App.tk a') = ∅ /\
    GameBoardGUI.change_size rng st.1 (App.draws a)
      = Ok (BoardFrame._game_board (App._game_board a'), App.draws a')
  else
    App._game_board a' = App._game_board a /\
    App.tk a' = App.tk a /\
    App._playing a' = App._playing a /\
    App._play_id a' = App._play_id a /\
    App._delay a' = App._delay a /\
    App.draws a' = App.draws a.
Proof.
  intros Ha. pose proof Ha as [Hconfig Hview Hx Hy Hs Hkeys Hrules Hflag Hdelay Htimers].
  cbn zeta. unfold App._set_options.
  destruct (ConfigFrame.validate_all screenwidth screenheight
              (App._board_config a, App._config_gui a)) as [config form] eqn:Hval.
  cbn [fst snd].
  set (a1 := App.with_config_gui form (App.with_board_config config a)).
  change (App._config_gui a1) with form.
  destruct (ConfigFrame._board_needs_rebuild form) eqn:Hform; [|done].
  assert (forall a2 : App.t,
            App._playing a2 = false -> Timers.pending (App.tk a2) = ∅ ->
            App._board_config a2 = config -> App.draws a2 = App.draws a ->
            BoardFrame.colors (App._game_board a2)
              = <[dead := WHITE]> (<[alive := BLACK]> ∅) ->
            exists a3,
              App.rebuild_board rng a2 = (a3, None) /\
              App._board_config a3 = config /\
              App._playing a3 = false /\
              Timers.pending (App.tk a3) = ∅ /\
              GameBoardGUI.change_size rng config (App.draws a)
                = Ok (BoardFrame._game_board (App._game_board a3), App.draws a3))
    as Hrebuild.
  { intros a2 Hp Hpend Hc Hd Hcol. unfold App.rebuild_board.
    destruct (view_change_size rng (App._board_config a2) (App._game_board a2)
                (App.draws a2) Hcol)
      as (g' & k' & -> & Hinv & Hcs & _).
    app_simpl. eexists. split; [reflexivity|]. app_simpl.
    rewrite Hc, Hd in Hcs. done. }
  unfold App.stop. destruct (App._playing a1) eqn:Hplaying.
  - assert (App._playing a = true) as Hpa by done.
    rewrite Hpa in Htimers. destruct Htimers as (id & ms & Hid & Hpending & Hms).
    change (App._play_id a1) with (App._play_id a). rewrite Hid. app_simpl.
    match goal with |- context [App.rebuild_board rng ?x] => set (a2 := x) end.
    assert (Timers.pending (App.tk a2) = ∅) as Hpend2
      by (unfold a2, a1; app_simpl; rewrite Hpending; apply delete_singleton_eq).
    destruct (Hrebuild a2 eq_refl Hpend2 eq_refl eq_refl (vf_colors _ (vi_frame _ Hview)))
      as (a3 & -> & H3). app_simpl. done.
  - assert (App._playing a = false) as Hpa by done.
    rewrite Hpa in Htimers. destruct Htimers as [Hid Hpending].
    destruct (Hrebuild a1 Hplaying Hpending eq_refl eq_refl (vf_colors _ (vi_frame _ Hview)))
      as (a3 & -> & H3). app_simpl. done.
Qed.

(** ** Further properties: the application *)

(** X23.  The board on display always has the configured size.  After any
    run of events the configuration is valid, the flag that asks for a
    rebuild is down, the board and its view have the numbers of cells and the
    scale of the configuration, the canvas shows the board and the label its
    counters: whenever [_set_options] changes a dimension or the scale it
    rebuilds the board in the same callback. *)
Theorem X23_board_has_configured_size (rng : nat -> Z) (k : nat) (evs : list event) :
  exists a0 : App.t,
    App.__init__ rng k = Ok a0 /\
    let a := run rng evs a0 in
    let config := App._board_config a in
    let g := App._game_board a in
    config_valid config /\
    ConfigFrame._board_needs_rebuild (App._config_gui a) = false /\
    _num_cells_x (BoardFrame._game_board g) = GameConfig.get_num_cells_x config /\
    _num_cells_y (BoardFrame._game_board g) = GameConfig.get_num_cells_y config /\
    BoardFrame._scale g = GameConfig.get_scale config /\
    BoardFrame._canvas_width g
      = GameConfig.get_num_cells_x config * GameConfig.get_scale config /\
    BoardFrame._canvas_height g
      = GameConfig.get_num_cells_y config * GameConfig.get_scale config /\
    in_sync g /\
    BoardFrame.info g = get_info_string (BoardFrame._game_board g).
Proof.
  destruct (app_init_inv rng k) as (a0 & Ha0 & Hinv0). exists a0. split; [done|].
  cbn zeta.
  destruct (app_run rng evs a0 Hinv0)
    as [Hconfig [[Hreach Hvx Hvy Hw Hh Hcol] Hsync Hinfo] Hx Hy Hs _ _ Hflag _ _].
  split_and!; try done; congruence.
Qed.

(** X24.  At most one frame is ever pending.  After any run of events the
    delay between frames is between 1 and 1000 ms; while the application is
    playing exactly one [_play_frame] timer is pending, the one that
    [_play_id] names, due at once or after [_delay]; and while it is not
    playing none is pending and [_play_id] is [None]. *)
Theorem X24_at_most_one_frame_timer (rng : nat -> Z) (k : nat) (evs : list event) :
  exists a0 : App.t,
    App.__init__ rng k = Ok a0 /\
    let a := run rng evs a0 in
    1 <= App._delay a <= 1000 /\
    if App._playing a then
      exists (id : nat) (ms : Z),
        App._play_id a = Some id /\
        Timers.pending (App.tk a) = {[id := ms]} /\
        (ms = 0 \/ ms = App._delay a)
    else App._play_id a = None /\ Timers.pending (App.tk a) = ∅.
Proof.
  destruct (app_init_inv rng k) as (a0 & Ha0 & Hinv0). exists a0. split; [done|].
  cbn zeta. destruct (app_run rng evs a0 Hinv0) as [_ _ _ _ _ _ _ _ Hdelay Htimers].
  done.
Qed.

(** X25.  No callback raises, except a click off the canvas.  After any run
    of events, the callback of any further event returns normally, unless the
    event is a click on a pixel that is not on the canvas: neither the
    division by the frames per second in [play_pause], nor [after_cancel],
    nor a lookup of the board, the view or the rule table fails. *)
Theorem X25_callbacks_return (rng : nat -> Z) (k : nat) (evs : list event) (ev : event) :
  exists a0 : App.t,
    App.__init__ rng k = Ok a0 /\
    let a := run rng evs a0 in
    (handle rng ev a).2 = None \/
    exists x y : Z, ev = click_canvas x y /\ ~ on_canvas (App._game_board a) x y.
Proof.
  destruct (app_init_inv rng k) as (a0 & Ha0 & Hinv0). exists a0. split; [done|].
  cbn zeta. apply app_handle. by apply app_run.
Qed.

(** X26.  [Set] rebuilds the board exactly when an entry for the scale or
    for a number of cells holds an integer other than the configured one.
    Then the animation is stopped, no timer is left pending, and the board is
    the one that [change_size] makes for the validated configuration.
    Otherwise the view, the timers, the playing flag and the delay stay as
    they are: a new frame rate does not reach a running animation. *)
Theorem X26_set_rebuilds_or_keeps (rng : nat -> Z) (k : nat) (evs : list event)
  (screenwidth screenheight : Z) :
  exists a0 : App.t,
    App.__init__ rng k = Ok a0 /\
    let a := run rng evs a0 in
    let a' := (handle rng (press_set screenwidth screenheight) a).1 in
    let config := App._board_config a in
    let form := App._config_gui a in
    App._board_config a'
      = (ConfigFrame.validate_all screenwidth screenheight (config, form)).1 /\
    if differs (ConfigFrame.scale_input form) (GameConfig.get_scale config)
       || differs (ConfigFrame.num_cells_x_input form) (GameConfig.get_num_cells_x config)
       || differs (ConfigFrame.num_cells_y_input form) (GameConfig.get_num_cells_y config)
    then
      App._playing a' = false /\
      Timers.pending (App.tk a') = ∅ /\
      GameBoardGUI.change_size rng (App._board_config a') (App.draws a)
        = Ok (BoardFrame._game_board (App._game_board a'), App.draws a')
    else
      App._game_board a' = App._game_board a /\
      App.tk a' = App.tk a /\
      App._playing a' = App._playing a /\
      App._play_id a' = App._play_id a /\
      App._delay a' = App._delay a /\
      App.draws a' = App.draws a.
Proof.
  destruct (app_init_inv rng k) as (a0 & Ha0 & Hinv0). exists a0. split; [done|].
  cbn zeta. cbn [handle].
  pose proof (app_run rng evs a0 Hinv0) as Ha.
  destruct (app_set_options_spec rng screenwidth screenheight _ Ha) as [Hc Hrest].
  destruct (validate_all_flag screenwidth screenheight (App._board_config (run rng evs a0))
              (App._config_gui (run rng evs a0))) as (Hfl & _).
  rewrite (ai_flag _ Ha) in Hfl. cbn [orb] in Hfl. cbn zeta in Hfl.
  rewrite <- Hfl. split; [done|]. rewrite Hc.
  destruct (ConfigFrame._board_needs_rebuild _); done.
Qed.

(** X27.  [Play/Pause] flips the playing flag.  When it starts the animation
    it sets the delay to [1000 // fps] for the configured frame rate and
    schedules the first frame at once; when it stops it, no timer is left. *)
Theorem X27_play_pause_toggles (rng : nat -> Z) (k : nat) (evs : list event) :
  exists a0 : App.t,
    App.__init__ rng k = Ok a0 /\
    let a := run rng evs a0 in
    let a' := (handle rng press_play_pause a).1 in
    App._playing a' = negb (App._playing a) /\
    App._game_board a' = App._game_board a /\
    if App._playing a' then
      App._delay a' = 1000 / GameConfig.get_fps (App._board_config a) /\
      exists id : nat,
        App._play_id a' = Some id /\ Timers.pending (App.tk a') = {[id := 0]}
    else App._delay a' = App._delay a /\ Timers.pending (App.tk a') = ∅.
Proof.
  destruct (app_init_inv rng k) as (a0 & Ha0 & Hinv0). exists a0. split; [done|].
  cbn zeta. cbn [handle].
  pose proof (app_run rng evs a0 Hinv0) as Ha. set (a := run rng evs a0) in *.
  destruct Ha as [Hconfig _ _ _ _ _ _ _ _ Htimers].
  unfold App.play_pause. destruct (App._playing a) eqn:Hplaying; cbn [negb].
  - destruct Htimers as (id & ms & Hid & Hpending & Hms).
    rewrite Hid. app_simpl. split_and!; try done.
    rewrite Hpending. apply delete_singleton_eq.
  - destruct Htimers as [Hid Hpending].
    destruct (delay_bounds (GameConfig.get_fps (App._board_config a))) as [Hdiv _];
      [apply Hconfig|].
    app_simpl. rewrite Hdiv. app_simpl. split_and!; try done.
    eexists. split; [done|]. rewrite Hpending. apply insert_empty.
Qed.
